(** * AgentWeave: a shallow embedding of the security-critical paths

    The development follows the Python sources module by module:
    - [Task], [Server]        agentweave/comms/a2a/task.py, server.py
    - [Mtls]                  agentweave/identity/mtls.py
    - [Channel]               agentweave/transport/channel.py
    - [Opa]                   agentweave/authz/opa.py
    - [Circuit], [Retry]      agentweave/transport/circuit.py, retry.py
    - [Decorators]            agentweave/decorators.py
    - [Config]                agentweave/config.py

    Part I holds the model, Part II the properties.  Coroutines are run
    to completion one at a time (the event loop is not modelled), clocks
    and remote services are oracles indexed by the number of times they
    have been consulted, and instants and durations are integers counted
    in one common unit. *)

From Stdlib Require Import ZArith QArith Qpower Qminmax List Bool Lia String Ascii.
From stdpp Require Import base option gmap strings list.

Set Warnings "-register-all".
Local Open Scope Z_scope.

(* ===================================================================== *)
(** * Part I: the model                                                    *)
(* ===================================================================== *)

(** ** Python values shared by the modules *)
Module Py.

(** Values of type [Any] that travel through the JSON-RPC layer. *)
Inductive JSON : Type :=
| JNull
| JBool (b : bool)
| JNum (z : Z)
| JStr (s : string)
| JList (l : list JSON)
| JDict (d : list (string * JSON)).

(** Python truthiness, as used by [if x:] and [not x]. *)
Definition truthy (v : JSON) : bool :=
  match v with
  | JNull => false
  | JBool b => b
  | JNum z => negb (Z.eqb z 0)
  | JStr s => negb (String.eqb s "")
  | JList l => match l with [] => false | _ => true end
  | JDict d => match d with [] => false | _ => true end
  end.

Definition is_None (v : JSON) : bool :=
  match v with JNull => true | _ => false end.

(** [Optional[str]] tested with [if s:]: [None] and the empty string are falsy. *)
Definition truthy_opt_str (s : option string) : bool :=
  match s with
  | None => false
  | Some s => negb (String.eqb s "")
  end.

Definition opt_str_json (s : option string) : JSON :=
  match s with None => JNull | Some s => JStr s end.

(** An exception instance: the names of its class and of the classes it
    inherits from (its method resolution order), and [str(e)]. *)
Record Exn : Type := mkExn { exn_mro : list string; exn_str : string }.

(** [isinstance(e, classes)] for a tuple of classes. *)
Definition isinstance (e : Exn) (classes : list string) : bool :=
  existsb (fun c => bool_decide (c ∈ exn_mro e)) classes.

(** What running a call produces. *)
Inductive outcome (A : Type) : Type :=
| Returned (a : A)
| Raised (e : Exn).
Arguments Returned {A} a.
Arguments Raised {A} e.

(** State-passing computations: every model function that mutates an
    object takes the state and gives it back. *)
Definition M (St A : Type) : Type := St -> A * St.
Definition ret {St A} (a : A) : M St A := fun s => (a, s).
Definition bind {St A B} (c : M St A) (k : A -> M St B) : M St B :=
  fun s => let '(a, s') := c s in k a s'.
Definition get {St} : M St St := fun s => (s, s).
Definition put {St} (s : St) : M St unit := fun _ => (tt, s).
Definition modify {St} (f : St -> St) : M St unit := fun s => (tt, f s).

#[global] Instance M_ret {St} : MRet (M St) := fun A a => ret a.
#[global] Instance M_bind {St} : MBind (M St) := fun A B k c => bind c k.

(** Lifting a computation on one half of a paired state. *)
Definition on_fst {S1 S2 A} (c : M S1 A) : M (S1 * S2) A :=
  fun s => let '(a, s1) := c (fst s) in (a, (s1, snd s)).
Definition on_snd {S1 S2 A} (c : M S2 A) : M (S1 * S2) A :=
  fun s => let '(a, s2) := c (snd s) in (a, (fst s, s2)).

(** The world outside the process.  What it answers is fixed by an
    environment of oracles; the world state counts how often each was
    consulted and records the pauses taken with [asyncio.sleep]. *)
Record World : Type := mkWorld {
  invoked : nat;          (* calls made to the wrapped coroutine *)
  clock_reads : nat;      (* readings of the clock *)
  draws : nat;            (* draws from the random generator *)
  slept : list Q          (* arguments of [asyncio.sleep], oldest first *)
}.

Definition world0 : World := mkWorld 0 0 0 [].

Record Env (T : Type) : Type := mkEnv {
  func : nat -> outcome T;    (* what the k-th call of the wrapped coroutine does *)
  clock : nat -> Z;           (* the k-th reading of the clock *)
  random : nat -> Q           (* the k-th value of [random.random()], in [0, 1) *)
}.
Arguments mkEnv {T} func clock random.
Arguments func {T} e k.
Arguments clock {T} e k.
Arguments random {T} e k.

(** [await func(...)] *)
Definition call_func {T} (env : Env T) : M World (outcome T) :=
  fun w => (func env (invoked w),
            mkWorld (Datatypes.S (invoked w)) (clock_reads w) (draws w) (slept w)).

(** [time.time()], [datetime.utcnow()] *)
Definition read_clock {T} (env : Env T) : M World Z :=
  fun w => (clock env (clock_reads w),
            mkWorld (invoked w) (Datatypes.S (clock_reads w)) (draws w) (slept w)).

(** [random.random()] *)
Definition draw {T} (env : Env T) : M World Q :=
  fun w => (random env (draws w),
            mkWorld (invoked w) (clock_reads w) (Datatypes.S (draws w)) (slept w)).

(** [await asyncio.sleep(d)] *)
Definition sleep (d : Q) : M World unit :=
  fun w => (tt, mkWorld (invoked w) (clock_reads w) (draws w) (slept w ++ [d])).

(** [s.startswith(p)] *)
Definition startswith (s p : string) : bool := String.prefix p s.

(** [needle in hay] on strings. *)
Fixpoint contains (needle hay : string) : bool :=
  String.prefix needle hay ||
  match hay with
  | EmptyString => false
  | String _ rest => contains needle rest
  end.

End Py.

(** ** agentweave/comms/a2a/task.py *)
Module Task.
Import Py.

Inductive TaskState : Type := PENDING | RUNNING | COMPLETED | FAILED | CANCELLED.

#[global] Instance TaskState_eq_dec : EqDecision TaskState.
Proof. solve_decision. Defined.

(** [TaskState.value] *)
Definition value (s : TaskState) : string :=
  match s with
  | PENDING => "pending"
  | RUNNING => "running"
  | COMPLETED => "completed"
  | FAILED => "failed"
  | CANCELLED => "cancelled"
  end.

(** [TaskState.is_terminal] *)
Definition state_is_terminal (s : TaskState) : bool :=
  match s with
  | COMPLETED | FAILED | CANCELLED => true
  | PENDING | RUNNING => false
  end.

Record MessagePart : Type := mkPart { part_type : string; part_content : JSON }.

Record Message : Type :=
  mkMessage { role : string; parts : list MessagePart; timestamp : Z }.

Record Artifact : Type :=
  mkArtifact { art_type : string; art_data : JSON; art_metadata : list (string * JSON) }.

Record Task : Type := mkTask {
  id : string;
  type : string;
  state : TaskState;
  payload : list (string * JSON);
  messages : list Message;
  result : JSON;                 (* Optional[Any]; [JNull] is [None] *)
  artifacts : list Artifact;
  error : option string;
  created_at : Z;
  updated_at : Z;
  metadata : list (string * JSON)
}.

Definition set_state (t : Task) (s : TaskState) : Task :=
  mkTask (id t) (type t) s (payload t) (messages t) (result t) (artifacts t)
         (error t) (created_at t) (updated_at t) (metadata t).
Definition set_updated_at (t : Task) (now : Z) : Task :=
  mkTask (id t) (type t) (state t) (payload t) (messages t) (result t) (artifacts t)
         (error t) (created_at t) now (metadata t).
Definition set_error (t : Task) (e : option string) : Task :=
  mkTask (id t) (type t) (state t) (payload t) (messages t) (result t) (artifacts t)
         e (created_at t) (updated_at t) (metadata t).
Definition set_result (t : Task) (r : JSON) : Task :=
  mkTask (id t) (type t) (state t) (payload t) (messages t) r (artifacts t)
         (error t) (created_at t) (updated_at t) (metadata t).

(** [Task.update_state]; [now] is the reading of [datetime.now]. *)
Definition update_state (t : Task) (new_state : TaskState)
    (err : option string) (now : Z) : Task :=
  let t := set_state t new_state in
  let t := set_updated_at t now in
  if truthy_opt_str err then set_error t err else t.

(** [Task.is_terminal] *)
Definition is_terminal (t : Task) : bool := state_is_terminal (state t).

Section Serialise.
(** [datetime.isoformat] is the standard library's. *)
Variable isoformat : Z -> string.

Definition part_to_dict (p : MessagePart) : JSON :=
  JDict [("type", JStr (part_type p)); ("content", part_content p)].

Definition message_to_dict (m : Message) : JSON :=
  JDict [("role", JStr (role m));
         ("parts", JList (map part_to_dict (parts m)));
         ("timestamp", JStr (isoformat (timestamp m)))].

Definition artifact_to_dict (a : Artifact) : JSON :=
  JDict [("type", JStr (art_type a));
         ("data", art_data a);
         ("metadata", JDict (art_metadata a))].

(** [Task.to_dict] *)
Definition to_dict (t : Task) : JSON :=
  JDict [("id", JStr (id t));
         ("type", JStr (type t));
         ("state", JStr (value (state t)));
         ("payload", JDict (payload t));
         ("messages", JList (map message_to_dict (messages t)));
         ("result", result t);
         ("artifacts", JList (map artifact_to_dict (artifacts t)));
         ("error", opt_str_json (error t));
         ("created_at", JStr (isoformat (created_at t)));
         ("updated_at", JStr (isoformat (updated_at t)));
         ("metadata", JDict (metadata t))].
End Serialise.

(** [TaskManager]: the task table, the keys of the lock table (a
    [defaultdict], so looking a key up creates it) and, per task, whether
    its completion event is set. *)
Record TaskManager : Type := mkManager {
  _tasks : gmap string Task;
  _task_locks : gset string;
  _task_events : gmap string bool
}.

(** [TaskManager.get_task] *)
Definition get_task (m : TaskManager) (task_id : string) : option Task :=
  _tasks m !! task_id.

(** [TaskManager.update_task].  The task object is shared with the table,
    so the mutated task is the one the table holds afterwards. *)
Definition update_task (m : TaskManager) (task_id : string)
    (new_state : option TaskState) (res : JSON) (err : option string)
    (now : Z) : option Task * TaskManager :=
  match _tasks m !! task_id with
  | None => (None, m)
  | Some task =>
      let task :=
        match new_state with
        | Some s => update_state task s err now
        | None => task
        end in
      let task := if is_None res then task else set_result task res in
      let events :=
        if is_terminal task && bool_decide (is_Some (_task_events m !! task_id))
        then <[task_id := true]> (_task_events m)
        else _task_events m in
      (Some task,
       mkManager (<[task_id := task]> (_tasks m))
                 ({[task_id]} ∪ _task_locks m)
                 events)
  end.

End Task.

(** ** agentweave/comms/a2a/server.py *)
Module Server.
Import Py Task.

Inductive JSONResponse : Type :=
| jsonrpc_success (res : JSON) (request_id : JSON)
| jsonrpc_error (error_id : JSON) (code : Z) (message : string).

Section Handlers.
Variable isoformat : Z -> string.
(** [str(x)] inside an f-string; the identity on strings. *)
Variable py_str : JSON -> string.

(** [params.get(key)] *)
Definition params_get (params : gmap string JSON) (key : string) : JSON :=
  default JNull (params !! key).

(** [A2AServer._handle_task_cancel].  A [task_id] that is not a string
    is no key of the task table, and one that cannot be hashed (a list,
    a dict) makes the table lookup raise.  [update_task] deletes
    nothing, so the second [get_task] finds the task again. *)
Definition _handle_task_cancel (m : TaskManager) (params : gmap string JSON)
    (request_id : JSON) (now : Z) : outcome JSONResponse * TaskManager :=
  let task_id := params_get params "task_id" in
  if negb (truthy task_id) then
    (Returned (jsonrpc_error request_id (-32602) "Missing required parameter: task_id"), m)
  else
    match task_id with
    | JList _ | JDict _ =>
        (Raised (mkExn ["TypeError"; "Exception"] "unhashable type"), m)
    | JStr k =>
        match get_task m k with
        | None =>
            (Returned (jsonrpc_error request_id (-32000)
                         ("Task not found: " +:+ py_str task_id)), m)
        | Some task =>
            let m :=
              if negb (is_terminal task)
              then snd (update_task m k (Some CANCELLED) JNull None now)
              else m in
            match get_task m k with
            | Some task => (Returned (jsonrpc_success (to_dict isoformat task) request_id), m)
            | None =>
                (Raised (mkExn ["AttributeError"; "Exception"]
                           "'NoneType' object has no attribute 'to_dict'"), m)
            end
        end
    | _ =>
        (Returned (jsonrpc_error request_id (-32000)
                     ("Task not found: " +:+ py_str task_id)), m)
    end.
End Handlers.

End Server.

(** ** agentweave/identity/mtls.py *)
Module Mtls.
Import Py.

Record Certificate : Type := mkCert { not_valid_after_utc : Z }.

Record X509Svid : Type := mkSvid { spiffe_id : string; leaf : Certificate }.

(** What [_validate_file_paths] finds on disk. *)
Record Files : Type := mkFiles {
  cert_path : string;
  key_path : string;
  ca_bundle_path : string;
  cert_exists : bool;
  key_exists : bool;
  ca_bundle_exists : bool;
  key_mode : Z                  (* [st_mode] of the key file *)
}.

(** [', '.join(parts)] *)
Fixpoint join (parts : list string) : string :=
  match parts with
  | [] => ""
  | [x] => x
  | x :: rest => x +:+ ", " +:+ join rest
  end.

Record StaticMTLSProvider : Type := mkProvider {
  _svid : option X509Svid;
  _initialized : bool
}.

Inductive LogRecord : Type :=
| log_warning (msg : string)
| log_error (msg : string)
| log_debug (msg : string).

Definition IdentityError (msg : string) : Exn :=
  mkExn ["IdentityError"; "AgentWeaveError"; "Exception"] msg.

(** [_ensure_initialized] *)
Definition _ensure_initialized (p : StaticMTLSProvider) : outcome unit :=
  if negb (_initialized p)
  then Raised (IdentityError
         "Static mTLS provider not initialized. Call initialize() before using the provider.")
  else Returned tt.

Section Provider.
(** [str] of a [datetime], used in log lines only. *)
Variable str_datetime : Z -> string.

(** [StaticMTLSProvider.get_svid].  The guard compares the leaf's
    [not_valid_after_utc] with itself, as the source does; no clock is read. *)
Definition get_svid (p : StaticMTLSProvider) : outcome X509Svid * list LogRecord :=
  match _ensure_initialized p with
  | Raised e => (Raised e, [])
  | Returned _ =>
      match _svid p with
      | None => (Raised (mkExn ["AttributeError"; "Exception"]
                           "'NoneType' object has no attribute 'leaf'"), [])
      | Some svid =>
          let logs :=
            if not_valid_after_utc (leaf svid) <? not_valid_after_utc (leaf svid)
            then [log_warning ("Certificate has expired: "
                               +:+ str_datetime (not_valid_after_utc (leaf svid))
                               +:+ ". Update certificate files and restart the agent.")]
            else [] in
          (Returned svid, logs)
      end
  end.

(** [_validate_file_paths] *)
Definition _validate_file_paths (fs : Files) : outcome unit * list LogRecord :=
  let missing_files :=
    (if cert_exists fs then [] else [cert_path fs])
    ++ (if key_exists fs then [] else [key_path fs])
    ++ (if ca_bundle_exists fs then [] else [ca_bundle_path fs]) in
  match missing_files with
  | _ :: _ =>
      (Raised (IdentityError ("Certificate files not found: " +:+ join missing_files)), [])
  | [] =>
      if negb (Z.land (key_mode fs) 63 =? 0)
      then (Returned tt,
            [log_warning ("Private key file " +:+ key_path fs
                          +:+ " has overly permissive permissions. Recommend chmod 600 for security.")])
      else (Returned tt, [])
  end.

(** [StaticMTLSProvider.health_check] *)
Definition health_check (p : StaticMTLSProvider) (fs : Files) : bool * list LogRecord :=
  if negb (_initialized p)
  then (false, [log_warning "Health check failed: provider not initialized"])
  else
    match _validate_file_paths fs with
    | (Raised e, l1) => (false, l1 ++ [log_error ("Health check failed: " +:+ exn_str e)])
    | (Returned _, l1) =>
        match get_svid p with
        | (Raised e, l2) =>
            (false, l1 ++ l2 ++ [log_error ("Health check failed: " +:+ exn_str e)])
        | (Returned svid, l2) =>
            if not_valid_after_utc (leaf svid) <? not_valid_after_utc (leaf svid)
            then (false, l1 ++ l2 ++ [log_error "Health check failed: certificate expired"])
            else (true, l1 ++ l2 ++ [log_debug "Health check passed"])
        end
    end.
End Provider.

End Mtls.

(** ** agentweave/transport/retry.py *)
Module Retry.
Import Py.

(** Delays are [float] seconds in the source; the model computes them
    exactly, over the rationals. *)
Record RetryConfig : Type := mkRetryConfig {
  max_retries : Z;
  base_delay : Q;
  max_delay : Q;
  exponential_base : Q;
  jitter : bool;
  retryable_exceptions : list string
}.

Definition ValueError (msg : string) : Exn := mkExn ["ValueError"; "Exception"] msg.

Definition Qltb (a b : Q) : bool := negb (Qle_bool b a).

(** [RetryConfig.__post_init__] *)
Definition post_init (c : RetryConfig) : outcome unit :=
  if max_retries c <? 0 then Raised (ValueError "max_retries must be non-negative")
  else if Qle_bool (base_delay c) 0 then Raised (ValueError "base_delay must be positive")
  else if Qltb (max_delay c) (base_delay c)
  then Raised (ValueError "max_delay must be >= base_delay")
  else if Qle_bool (exponential_base c) 1
  then Raised (ValueError "exponential_base must be > 1")
  else Returned tt.

(** Python's [min(a, b)]: [b] when [b < a], else [a]. *)
Definition py_min (a b : Q) : Q := if Qltb b a then b else a.



Record RetryPolicy : Type := mkPolicy {
  _config : RetryConfig;
  _attempt_count : Z;
  _total_delay : Q
}.

(** [RetryPolicy.__init__] *)
Definition new_policy (c : RetryConfig) : RetryPolicy := mkPolicy c 0 0%Q.

Section Execute.
Context {T : Type}.
Variable env : Env T.

(** [random.uniform(a, b)] is [a + (b - a) * random()]. *)
Definition random_uniform (a b : Q) : M World Q :=
  u ← draw env; mret (a + (b - a) * u)%Q.

(** [RetryPolicy._calculate_delay] *)
Definition _calculate_delay (c : RetryConfig) (attempt : Z) : M World Q :=
  let delay := (base_delay c * exponential_base c ^ attempt)%Q in
  let delay := py_min delay (max_delay c) in
  if jitter c then random_uniform 0%Q delay else mret delay.


(** [RetryPolicy._is_retryable] *)
Definition _is_retryable (c : RetryConfig) (e : Exn) : bool :=
  isinstance e (retryable_exceptions c).

Definition set_attempt (attempt : Z) : M RetryPolicy unit :=
  modify (fun p => mkPolicy (_config p) attempt (_total_delay p)).
Definition add_delay (d : Q) : M RetryPolicy unit :=
  modify (fun p => mkPolicy (_config p) (_attempt_count p) (_total_delay p + d)%Q).

(** The body of [for attempt in range(max_retries + 1)]: [remaining]
    iterations are left, the next one runs with index [attempt]. *)
Fixpoint attempts (c : RetryConfig) (remaining : nat) (attempt : Z)
    (last_exception : option Exn) : M (RetryPolicy * World) (outcome T) :=
  match remaining with
  | O =>
      (* after the loop *)
      match last_exception with
      | Some e => mret (Raised e)
      | None => mret (Raised (mkExn ["RuntimeError"; "Exception"] "Unexpected retry state"))
      end
  | Datatypes.S remaining =>
      on_fst (set_attempt attempt);;
      r ← on_snd (call_func env);
      match r with
      | Returned v => mret (Returned v)
      | Raised e =>
          if negb (_is_retryable c e) then mret (Raised e)
          else if max_retries c <=? attempt then mret (Raised e)
          else
            delay ← on_snd (_calculate_delay c attempt);
            on_fst (add_delay delay);;
            on_snd (sleep delay);;
            attempts c remaining (attempt + 1) (Some e)
      end
  end.


(** [RetryPolicy.execute] *)
Definition execute : M (RetryPolicy * World) (outcome T) :=
  fun s => attempts (_config (fst s)) (Z.to_nat (max_retries (_config (fst s)) + 1)) 0 None s.
End Execute.

End Retry.

(** ** agentweave/transport/circuit.py *)
Module Circuit.
Import Py.

Inductive CircuitState : Type := CLOSED | OPEN | HALF_OPEN.

(** [==] on circuit states. *)
Definition state_eqb (a b : CircuitState) : bool :=
  match a, b with
  | CLOSED, CLOSED | OPEN, OPEN | HALF_OPEN, HALF_OPEN => true
  | _, _ => false
  end.

Record CircuitBreakerConfig : Type := mkConfig {
  failure_threshold : Z;
  success_threshold : Z;
  timeout : Z;
  excluded_exceptions : list string
}.

(** [CircuitBreakerConfig.__post_init__] *)
Definition post_init (c : CircuitBreakerConfig) : outcome unit :=
  if failure_threshold c <=? 0
  then Raised (Retry.ValueError "failure_threshold must be positive")
  else if success_threshold c <=? 0
  then Raised (Retry.ValueError "success_threshold must be positive")
  else if timeout c <=? 0
  then Raised (Retry.ValueError "timeout must be positive")
  else Returned tt.

Record CircuitBreakerMetrics : Type := mkMetrics {
  state : CircuitState;
  failure_count : Z;
  success_count : Z;
  total_calls : Z;
  total_failures : Z;
  total_successes : Z;
  total_rejected : Z;
  last_failure_time : option Z;
  last_state_change : Z
}.

Record CircuitBreaker : Type := mkBreaker {
  _name : string;
  _config : CircuitBreakerConfig;
  _metrics : CircuitBreakerMetrics
}.

Definition with_metrics (f : CircuitBreakerMetrics -> CircuitBreakerMetrics)
    : M CircuitBreaker unit :=
  modify (fun b => mkBreaker (_name b) (_config b) (f (_metrics b))).

Definition set_state_change (s : CircuitState) (now : Z) (m : CircuitBreakerMetrics) :=
  mkMetrics s (failure_count m) (success_count m) (total_calls m) (total_failures m)
            (total_successes m) (total_rejected m) (last_failure_time m) now.
Definition set_counts (fc sc : Z) (m : CircuitBreakerMetrics) :=
  mkMetrics (state m) fc sc (total_calls m) (total_failures m)
            (total_successes m) (total_rejected m) (last_failure_time m)
            (last_state_change m).
Definition count_success (m : CircuitBreakerMetrics) :=
  mkMetrics (state m) (failure_count m) (success_count m) (total_calls m + 1)
            (total_failures m) (total_successes m + 1) (total_rejected m)
            (last_failure_time m) (last_state_change m).
Definition count_failure (now : Z) (m : CircuitBreakerMetrics) :=
  mkMetrics (state m) (failure_count m + 1) (success_count m) (total_calls m + 1)
            (total_failures m + 1) (total_successes m) (total_rejected m)
            (Some now) (last_state_change m).
Definition count_rejected (m : CircuitBreakerMetrics) :=
  mkMetrics (state m) (failure_count m) (success_count m) (total_calls m)
            (total_failures m) (total_successes m) (total_rejected m + 1)
            (last_failure_time m) (last_state_change m).

Section Breaker.
Context {T : Type}.
Variable env : Env T.
(** The text of [CircuitOpenError], an f-string over the breaker's
    name, failure count and last failure time. *)
Variable open_message : string -> Z -> option Z -> string.

Definition CircuitOpenError (b : CircuitBreaker) : Exn :=
  mkExn ["CircuitOpenError"; "Exception"]
        (open_message (_name b) (failure_count (_metrics b))
                      (last_failure_time (_metrics b))).

(** [CircuitBreaker._should_attempt_reset] *)
Definition _should_attempt_reset : M (CircuitBreaker * World) bool :=
  b ← on_fst get;
  match last_failure_time (_metrics b) with
  | None => mret false
  | Some t =>
      now ← on_snd (read_clock env);
      let elapsed := now - t in
      mret (timeout (_config b) <=? elapsed)
  end.

(** [CircuitBreaker._transition_state] *)
Definition _transition_state (new_state : CircuitState) : M (CircuitBreaker * World) unit :=
  b ← on_fst get;
  let old_state := state (_metrics b) in
  if state_eqb old_state new_state then mret tt
  else
    now ← on_snd (read_clock env);
    on_fst (with_metrics (set_state_change new_state now));;
    match new_state with
    | CLOSED => on_fst (with_metrics (set_counts 0 0))
    | HALF_OPEN => on_fst (with_metrics (fun m => set_counts (failure_count m) 0 m))
    | OPEN => mret tt
    end.

(** [CircuitBreaker._record_success] *)
Definition _record_success : M (CircuitBreaker * World) unit :=
  on_fst (with_metrics count_success);;
  b ← on_fst get;
  match state (_metrics b) with
  | HALF_OPEN =>
      on_fst (with_metrics (fun m => set_counts (failure_count m) (success_count m + 1) m));;
      b ← on_fst get;
      if success_threshold (_config b) <=? success_count (_metrics b)
      then _transition_state CLOSED
      else mret tt
  | CLOSED => on_fst (with_metrics (fun m => set_counts 0 (success_count m) m))
  | OPEN => mret tt
  end.

(** [CircuitBreaker._record_failure] *)
Definition _record_failure (exception : Exn) : M (CircuitBreaker * World) unit :=
  b ← on_fst get;
  if isinstance exception (excluded_exceptions (_config b)) then mret tt
  else
    now ← on_snd (read_clock env);
    on_fst (with_metrics (count_failure now));;
    b ← on_fst get;
    match state (_metrics b) with
    | HALF_OPEN => _transition_state OPEN
    | CLOSED =>
        if failure_threshold (_config b) <=? failure_count (_metrics b)
        then _transition_state OPEN
        else mret tt
    | OPEN => mret tt
    end.

(** The first block of [CircuitBreaker.call]: from OPEN, go to HALF_OPEN
    once the timeout has elapsed (checked again under the lock). *)
Definition try_half_open : M (CircuitBreaker * World) unit :=
  b ← on_fst get;
  if state_eqb (state (_metrics b)) OPEN then
    elapsed ← _should_attempt_reset;
    if (elapsed : bool) then
      still_elapsed ← _should_attempt_reset;
      if (still_elapsed : bool) then _transition_state HALF_OPEN else mret tt
    else mret tt
  else mret tt.

(** [CircuitBreaker.call] *)
Definition call : M (CircuitBreaker * World) (outcome T) :=
  try_half_open;;
  b ← on_fst get;
  if state_eqb (state (_metrics b)) OPEN then
    on_fst (with_metrics count_rejected);;
    b ← on_fst get;
    mret (Raised (CircuitOpenError b))
  else
    r ← on_snd (call_func env);
    match r with
    | Returned v => _record_success;; mret (Returned v)
    | Raised e => _record_failure e;; mret (Raised e)
    end.


(** [n] successive calls; the outcomes, oldest first. *)
Fixpoint calls (n : nat) : M (CircuitBreaker * World) (list (outcome T)) :=
  match n with
  | O => mret []
  | Datatypes.S n => r ← call; rs ← calls n; mret (r :: rs)
  end.
End Breaker.

(** [CircuitBreaker.__init__]; [now] is the reading that
    [CircuitBreakerMetrics] takes for [last_state_change]. *)
Definition new_breaker (name : string) (c : CircuitBreakerConfig) (now : Z) : CircuitBreaker :=
  mkBreaker name c (mkMetrics CLOSED 0 0 0 0 0 0 None now).

End Circuit.

(** ** agentweave/authz/base.py and agentweave/authz/opa.py *)
Module Opa.
Import Py.

Record AuthzDecision : Type := mkDecision {
  allowed : bool;
  reason : string;
  policy_id : option string;
  audit_id : string
}.

Inductive BreakerState : Type := CLOSED | OPEN | HALF_OPEN.

#[global] Instance BreakerState_eq_dec : EqDecision BreakerState.
Proof. solve_decision. Defined.

(** The breaker private to the OPA provider. *)
Record CircuitBreaker : Type := mkBreaker {
  failure_threshold : Z;
  recovery_timeout : Z;
  success_threshold : Z;
  failure_count : Z;
  success_count : Z;
  last_failure_time : option Z;
  state : BreakerState
}.

Definition CircuitBreakerError (msg : string) : Exn :=
  mkExn ["CircuitBreakerError"; "Exception"] msg.

(** An [OrderedDict]: keys in insertion order, no key twice. *)
Section OrderedDict.
Context {V : Type}.
Definition od_get (k : string) (d : list (string * V)) : option V :=
  snd <$> List.find (fun kv => String.eqb k (fst kv)) d.
Definition od_del (k : string) (d : list (string * V)) : list (string * V) :=
  List.filter (fun kv => negb (String.eqb k (fst kv))) d.
(** [d[k] = v]: in place when [k] is present, else appended. *)
Definition od_set (k : string) (v : V) (d : list (string * V)) : list (string * V) :=
  match od_get k d with
  | Some _ => List.map (fun kv => if String.eqb k (fst kv) then (k, v) else kv) d
  | None => d ++ [(k, v)]
  end.
Definition od_move_to_end (k : string) (d : list (string * V)) : list (string * V) :=
  match od_get k d with
  | Some v => od_del k d ++ [(k, v)]
  | None => d
  end.
(** [d.popitem(last=False)] *)
Definition od_popfirst (d : list (string * V)) : list (string * V) := List.tl d.
End OrderedDict.

Record DecisionCache : Type := mkCache {
  max_size : Z;
  ttl_seconds : Z;
  _cache : list (string * (AuthzDecision * Z))
}.

Definition set_cache (d : list (string * (AuthzDecision * Z))) : M DecisionCache unit :=
  modify (fun c => mkCache (max_size c) (ttl_seconds c) d).

(** What the audit logger and the module logger receive. *)
Inductive LogRecord : Type :=
| AUTHZ (caller resource action : string) (decision : AuthzDecision)
| log_debug (msg : string)
| log_warning (msg : string)
| log_error (msg : string).

Definition is_AUTHZ (r : LogRecord) : bool :=
  match r with AUTHZ _ _ _ _ => true | _ => false end.

Record OPAProvider : Type := mkProvider {
  default_deny : bool;
  cache : DecisionCache;
  _circuit_breaker : CircuitBreaker;
  uuids : nat;                 (* identifiers drawn from [uuid.uuid4] so far *)
  logged : list LogRecord      (* oldest first *)
}.

(** Running a computation of the cache, or of the breaker, inside the provider. *)
Definition with_cache {A} (c : M (DecisionCache * World) A) : M (OPAProvider * World) A :=
  fun s =>
    let p := fst s in
    let '(a, (c', w)) := c (cache p, snd s) in
    (a, (mkProvider (default_deny p) c' (_circuit_breaker p) (uuids p) (logged p), w)).
Definition with_breaker {A} (c : M (CircuitBreaker * World) A) : M (OPAProvider * World) A :=
  fun s =>
    let p := fst s in
    let '(a, (b', w)) := c (_circuit_breaker p, snd s) in
    (a, (mkProvider (default_deny p) (cache p) b' (uuids p) (logged p), w)).
Definition emit (r : LogRecord) : M OPAProvider unit :=
  modify (fun p => mkProvider (default_deny p) (cache p) (_circuit_breaker p)
                              (uuids p) (logged p ++ [r])).

(** The input document sent to the policy engine. *)
Record InputDoc : Type := mkInput {
  caller_spiffe_id : string;
  resource_spiffe_id : string;
  action_name : string;
  timestamp : Z;
  caller_trust_domain : option string;
  resource_trust_domain : option string;
  context_entries : option (list (string * JSON))
}.

(** [s.split(sep)] for a one-character separator, on the characters of [s]. *)
Fixpoint split_chars (sep : ascii) (s : list ascii) (cur : list ascii) : list (list ascii) :=
  match s with
  | [] => [rev cur]
  | c :: s => if Ascii.eqb c sep then rev cur :: split_chars sep s []
              else split_chars sep s (c :: cur)
  end.
Definition split (sep : ascii) (s : string) : list string :=
  map string_of_list_ascii (split_chars sep (list_ascii_of_string s) []).

(** [x.split('/')[2] if x.startswith('spiffe://') else None], kept only
    when truthy. *)
Definition trust_domain_of (x : string) : option string :=
  if startswith x "spiffe://" then
    match split "/"%char x !! 2%nat with
    | Some d => if String.eqb d "" then None else Some d
    | None => None
    end
  else None.

Definition dict_truthy {A} (d : option (list A)) : bool :=
  match d with Some (_ :: _) => true | _ => false end.

Section Provider.
(** The wrapped coroutine is [_query_opa]: the HTTP exchange with the
    policy engine and the parsing of its answer. *)
Variable env : Env AuthzDecision.
(** [uuid.uuid4()], [hashlib.sha256(...).hexdigest()] and
    [str(sorted(context.items()))] belong to the standard library. *)
Variable uuid4 : nat -> string.
Variable sha256_hexdigest : string -> string.
Variable str_sorted_items : list (string * JSON) -> string.

(** [CircuitBreaker._on_success] *)
Definition _on_success : M CircuitBreaker unit :=
  modify (fun b =>
    let b := mkBreaker (failure_threshold b) (recovery_timeout b) (success_threshold b)
                       0 (success_count b) (last_failure_time b) (state b) in
    match state b with
    | HALF_OPEN =>
        let sc := success_count b + 1 in
        if success_threshold b <=? sc
        then mkBreaker (failure_threshold b) (recovery_timeout b) (success_threshold b)
                       (failure_count b) 0 (last_failure_time b) CLOSED
        else mkBreaker (failure_threshold b) (recovery_timeout b) (success_threshold b)
                       (failure_count b) sc (last_failure_time b) (state b)
    | _ => b
    end).

(** [CircuitBreaker._on_failure] *)
Definition _on_failure : M (CircuitBreaker * World) unit :=
  now ← on_snd (read_clock env);
  on_fst (modify (fun b =>
    let fc := failure_count b + 1 in
    match state b with
    | HALF_OPEN =>
        mkBreaker (failure_threshold b) (recovery_timeout b) (success_threshold b)
                  fc 0 (Some now) OPEN
    | _ =>
        if failure_threshold b <=? fc
        then mkBreaker (failure_threshold b) (recovery_timeout b) (success_threshold b)
                       fc (success_count b) (Some now) OPEN
        else mkBreaker (failure_threshold b) (recovery_timeout b) (success_threshold b)
                       fc (success_count b) (Some now) (state b)
    end)).

(** The guarded part of [CircuitBreaker.call]: [None] lets the call
    through, [Some e] is the exception raised before the call. *)
Definition guard_call : M (CircuitBreaker * World) (option Exn) :=
  b ← on_fst get;
  match state b with
  | OPEN =>
      now ← on_snd (read_clock env);
      match last_failure_time b with
      | None =>
          mret (Some (mkExn ["TypeError"; "Exception"]
                  "unsupported operand type(s) for -: 'datetime.datetime' and 'NoneType'"))
      | Some t =>
          if recovery_timeout b <? now - t then
            on_fst (modify (fun b =>
              mkBreaker (failure_threshold b) (recovery_timeout b) (success_threshold b)
                        (failure_count b) 0 (last_failure_time b) HALF_OPEN));;
            mret None
          else mret (Some (CircuitBreakerError "Circuit breaker is OPEN"))
      end
  | _ => mret None
  end.

(** The breaker lets a call made in world [w] through. *)
Definition lets_through (b : CircuitBreaker) (w : World) : Prop :=
  fst (guard_call (b, w)) = None.

(** [CircuitBreaker.call] *)
Definition call : M (CircuitBreaker * World) (outcome AuthzDecision) :=
  refused ← guard_call;
  match refused with
  | Some e => mret (Raised e)
  | None =>
      r ← on_snd (call_func env);
      match r with
      | Returned v => on_fst _on_success;; mret (Returned v)
      | Raised e => _on_failure;; mret (Raised e)
      end
  end.

(** [DecisionCache._make_key] *)
Definition _make_key (caller_id resource action : string)
    (context : option (list (string * JSON))) : string :=
  let context_str :=
    match context with
    | Some (e :: d) => str_sorted_items (e :: d)
    | _ => ""
    end in
  sha256_hexdigest (caller_id +:+ ":" +:+ resource +:+ ":" +:+ action +:+ ":" +:+ context_str).

(** [DecisionCache.get] *)
Definition cache_get (caller_id resource action : string)
    (context : option (list (string * JSON))) : M (DecisionCache * World) (option AuthzDecision) :=
  let key := _make_key caller_id resource action context in
  c ← on_fst get;
  match od_get key (_cache c) with
  | None => mret None
  | Some (decision, stamp) =>
      now ← on_snd (read_clock env);
      let age := now - stamp in
      if ttl_seconds c <? age then
        on_fst (set_cache (od_del key (_cache c)));;
        mret None
      else
        on_fst (set_cache (od_move_to_end key (_cache c)));;
        mret (Some decision)
  end.

(** [DecisionCache.put] *)
Definition cache_put (caller_id resource action : string)
    (context : option (list (string * JSON))) (decision : AuthzDecision)
    : M (DecisionCache * World) unit :=
  let key := _make_key caller_id resource action context in
  now ← on_snd (read_clock env);
  c ← on_fst get;
  let d := od_move_to_end key (od_set key (decision, now) (_cache c)) in
  let d := if max_size c <? Z.of_nat (length d) then od_popfirst d else d in
  on_fst (set_cache d).

(** [OPAProvider._build_input] *)
Definition _build_input (caller_id resource action : string)
    (context : option (list (string * JSON))) : M World InputDoc :=
  now ← read_clock env;
  mret (mkInput caller_id resource action now
                (trust_domain_of caller_id) (trust_domain_of resource)
                (if dict_truthy context then context else None)).

(** [AuthzDecision(...)] without an [audit_id]: [__post_init__] draws one. *)
Definition new_decision (a : bool) (r : string) (pid : option string)
    : M OPAProvider AuthzDecision :=
  p ← get;
  put (mkProvider (default_deny p) (cache p) (_circuit_breaker p)
                  (Datatypes.S (uuids p)) (logged p));;
  mret (mkDecision a r pid (uuid4 (uuids p))).

(** [OPAProvider._default_decision] *)
Definition _default_decision (caller_id resource action error : string)
    : M OPAProvider AuthzDecision :=
  p ← get;
  if default_deny p then
    emit (log_warning ("Default DENY applied: " +:+ caller_id +:+ " -> " +:+ resource
                       +:+ ":" +:+ action +:+ " (OPA unavailable: " +:+ error +:+ ")"));;
    new_decision false ("OPA unavailable, default deny policy applied: " +:+ error)
                 (Some "default-deny")
  else
    emit (log_warning ("Default ALLOW applied: " +:+ caller_id +:+ " -> " +:+ resource
                       +:+ ":" +:+ action +:+ " (OPA unavailable: " +:+ error +:+ ")"));;
    new_decision true ("OPA unavailable, default allow policy applied: " +:+ error)
                 (Some "default-allow").

(** [OPAProvider._audit_log] *)
Definition _audit_log (caller_id resource action : string) (decision : AuthzDecision)
    : M OPAProvider unit :=
  emit (AUTHZ caller_id resource action decision).

(** [OPAProvider.check] *)
Definition check (caller_id resource action : string)
    (context : option (list (string * JSON))) : M (OPAProvider * World) AuthzDecision :=
  cached ← with_cache (cache_get caller_id resource action context);
  match cached with
  | Some d =>
      on_fst (emit (log_debug ("Cache hit for " +:+ caller_id +:+ " -> " +:+ resource
                               +:+ ":" +:+ action)));;
      mret d
  | None =>
      input_doc ← on_snd (_build_input caller_id resource action context);
      r ← with_breaker call;
      match r with
      | Returned decision =>
          with_cache (cache_put caller_id resource action context decision);;
          on_fst (_audit_log caller_id resource action decision);;
          mret decision
      | Raised e =>
          if isinstance e ["CircuitBreakerError"] then
            on_fst (emit (log_error ("Circuit breaker open, applying default policy: "
                                     +:+ exn_str e)));;
            on_fst (_default_decision caller_id resource action (exn_str e))
          else
            on_fst (emit (log_error ("OPA query failed: " +:+ exn_str e)));;
            on_fst (_default_decision caller_id resource action (exn_str e))
      end
  end.
End Provider.

End Opa.

(** ** agentweave/transport/channel.py *)
Module Channel.
Import Py.

(** [ssl.TLSVersion] members by their integer values. *)
Definition TLSv1_2 : Z := 771.
Definition TLSv1_3 : Z := 772.

Inductive VerifyMode : Type := CERT_NONE | CERT_OPTIONAL | CERT_REQUIRED.

Record SSLContext : Type := mkContext {
  minimum_version : Z;
  maximum_version : Z;
  verify_mode : VerifyMode;
  check_hostname : bool
}.

Record TransportConfig : Type := mkTransport {
  tls_min_version : Z;
  tls_max_version : Z;
  timeout : Q;
  verify_peer : bool;
  retry_config : option Retry.RetryConfig
}.

(** [TransportConfig.__post_init__] *)
Definition post_init (c : TransportConfig) : outcome unit :=
  if negb (verify_peer c)
  then Raised (Retry.ValueError "verify_peer cannot be False. mTLS peer verification is mandatory in AgentWeave SDK. There is no way to disable this.")
  else if tls_min_version c <? TLSv1_2
  then Raised (Retry.ValueError "tls_min_version must be at least TLSv1_2")
  else if Qle_bool (timeout c) 0
  then Raised (Retry.ValueError "timeout must be positive")
  else Returned tt.

(** [TransportConfig()] *)
Definition default_config : TransportConfig :=
  mkTransport TLSv1_3 TLSv1_3 30%Q true None.

(** Entries of a subject-alternative-name extension. *)
Inductive GeneralName : Type :=
| UniformResourceIdentifier (value : string)
| DNSName (value : string)
| OtherGeneralName.

(** A peer certificate as the [cryptography] and [ssl] libraries see it:
    its SAN extension ([None] when absent) and whether its chain
    verifies against the CA store of the context. *)
Record Certificate : Type := mkCert {
  san : option (list GeneralName);
  chain_verifies : bool
}.

(** DER bytes, by what [x509.load_der_x509_certificate] makes of them;
    [None] when they do not parse. *)
Definition cert_der : Type := option Certificate.

Definition PeerVerificationError (expected_id : string) (actual_id : option string) : Exn :=
  mkExn ["PeerVerificationError"; "Exception"]
        ("Peer verification failed. Expected SPIFFE ID: " +:+ expected_id +:+ ", Got: "
         +:+ match actual_id with
             | Some a => if String.eqb a "" then "None" else a
             | None => "None"
             end).

Record Response : Type := mkResponse { status_code : Z; content : string }.

Record SecureChannel : Type := mkChannel {
  _peer_spiffe_id : string;
  _config : TransportConfig;
  _client : option SSLContext;       (* the [httpx.AsyncClient], by the context it verifies with *)
  _ssl_context : option SSLContext
}.

Inductive AuditLine : Type :=
| Outbound (method url peer : string)
| ResponseLine (status : Z) (method url : string).

(** [SecureChannel.__init__] *)
Definition new_channel (peer_spiffe_id : string) (config : option TransportConfig)
    : outcome SecureChannel :=
  if negb (startswith peer_spiffe_id "spiffe://")
  then Raised (Retry.ValueError ("Invalid SPIFFE ID: " +:+ peer_spiffe_id
                                 +:+ ". Must start with 'spiffe://'"))
  else Returned (mkChannel peer_spiffe_id (default default_config config) None None).

(** The loop of [_extract_spiffe_id_from_cert] over the SAN entries. *)
Fixpoint first_spiffe_uri (names : list GeneralName) : option string :=
  match names with
  | [] => None
  | UniformResourceIdentifier uri :: rest =>
      if startswith uri "spiffe://" then Some uri else first_spiffe_uri rest
  | _ :: rest => first_spiffe_uri rest
  end.

(** [SecureChannel._extract_spiffe_id_from_cert]; every exception gives [None]. *)
Definition _extract_spiffe_id_from_cert (der : cert_der) : option string :=
  match der with
  | None => None
  | Some cert =>
      match san cert with
      | None => None
      | Some names => first_spiffe_uri names
      end
  end.

(** [SecureChannel._verify_peer_callback] *)
Definition _verify_peer_callback (ch : SecureChannel) (der : cert_der) : outcome unit :=
  let peer_id := _extract_spiffe_id_from_cert der in
  if bool_decide (peer_id ≠ Some (_peer_spiffe_id ch))
  then Raised (PeerVerificationError (_peer_spiffe_id ch) peer_id)
  else Returned tt.

(** [urlparse(spiffe_id).netloc] for an identifier that starts with
    [spiffe://]: what follows, up to the first of [/], [?] and [#]. *)
Fixpoint until_delim (s : string) : string :=
  match s with
  | EmptyString => EmptyString
  | String c rest =>
      if Ascii.eqb c "/" || Ascii.eqb c "?" || Ascii.eqb c "#" then EmptyString
      else String c (until_delim rest)
  end.
Definition _extract_trust_domain (spiffe_id : string) : string :=
  until_delim (String.substring 9 (String.length spiffe_id - 9) spiffe_id).

(** The identity provider the channel was built with. *)
Record IdentityProvider : Type := mkIdentity {
  get_svid_context : outcome SSLContext;
  get_trust_bundle_for_domain : string -> outcome (list string)
}.

Definition RuntimeError (msg : string) : Exn := mkExn ["RuntimeError"; "Exception"] msg.

(** [SecureChannel._create_ssl_context] *)
Definition _create_ssl_context (identity : IdentityProvider) (ch : SecureChannel)
    : outcome SSLContext :=
  match get_svid_context identity with
  | Raised e => Raised (RuntimeError ("Cannot create SSL context: " +:+ exn_str e))
  | Returned ctx =>
      let ctx := mkContext (tls_min_version (_config ch)) (tls_max_version (_config ch))
                           CERT_REQUIRED false in
      let trust_domain := _extract_trust_domain (_peer_spiffe_id ch) in
      match get_trust_bundle_for_domain identity trust_domain with
      | Raised e => Raised (RuntimeError ("Cannot verify peer: " +:+ exn_str e))
      | Returned ca_certs => Returned ctx
      end
  end.

(** [SecureChannel._ensure_client] *)
Definition _ensure_client (identity : IdentityProvider)
    : M SecureChannel (outcome SSLContext) :=
  fun ch =>
    match _client ch with
    | Some client => (Returned client, ch)
    | None =>
        match _create_ssl_context identity ch with
        | Raised e => (Raised e, ch)
        | Returned ctx =>
            (Returned ctx,
             mkChannel (_peer_spiffe_id ch) (_config ch) (Some ctx) (Some ctx))
        end
    end.

(** The TLS handshake that the [ssl] library performs for a client built
    with [verify=ctx]: the chain is checked when the context requires a
    certificate; names are compared only under [check_hostname].  The
    context has no other hook, and nothing registers
    [_verify_peer_callback] with it. *)
Definition handshake (ctx : SSLContext) (peer : Certificate) (hostname_matches : bool) : bool :=
  match verify_mode ctx with
  | CERT_REQUIRED => chain_verifies peer && (negb (check_hostname ctx) || hostname_matches)
  | _ => true
  end.

Section Request.
(** The peer at the other end: its certificate, whether the URL's host
    is among its DNS names, and its answers. *)
Variable peer : Certificate.
Variable hostname_matches : bool.
Variable answers : nat -> outcome Response.
Variable random_source : nat -> Q.

Definition ConnectError : Exn :=
  mkExn ["ConnectError"; "TransportError"; "HTTPError"; "Exception"]
        "[SSL: CERTIFICATE_VERIFY_FAILED] certificate verify failed".

(** [client.request(method, url)] *)
Definition client_request (client : SSLContext) : Env Response :=
  mkEnv (fun k => if handshake client peer hostname_matches then answers k
                  else Raised ConnectError)
        (fun _ => 0) random_source.

(** [SecureChannel.request] *)
Definition request (identity : IdentityProvider) (method url : string)
    (ch : SecureChannel) (w : World)
    : outcome Response * (SecureChannel * World * list AuditLine) :=
  match _ensure_client identity ch with
  | (Raised e, ch) => (Raised e, (ch, w, []))
  | (Returned client, ch) =>
      let line := Outbound method url (_peer_spiffe_id ch) in
      let '(r, w) :=
        match retry_config (_config ch) with
        | Some rc =>
            let '(r, (_, w)) := Retry.execute (client_request client) (Retry.new_policy rc, w) in
            (r, w)
        | None => call_func (client_request client) w
        end in
      match r with
      | Raised e => (Raised e, (ch, w, [line]))
      | Returned response =>
          (Returned response,
           (ch, w, [line; ResponseLine (status_code response) method url]))
      end
  end.
End Request.

End Channel.

(** ** agentweave/context.py and agentweave/decorators.py *)
Module Decorators.
Import Py.

Record RequestContext : Type := mkContext {
  caller_id : string;
  task_id : string;
  metadata : list (string * JSON)
}.

Record CapabilityMetadata : Type := mkMetadata {
  name : string;
  description : option string;
  requires_peer_patterns : list string;
  audit_level : option string
}.

Definition PermissionError (msg : string) : Exn :=
  mkExn ["PermissionError"; "OSError"; "Exception"] msg.


Section Decorators.
Context {T : Type}.
(** The decorated coroutine itself: a call of it is a call of the
    wrapped function of the environment, so [invoked] counts how often
    the handler body ran. *)
Variable env : Env T.
(** [fnmatch.fnmatch(name, pattern)] of the standard library. *)
Variable fnmatch : string -> string -> bool.

(** A coroutine function with the attribute the decorators look for.
    [body] is what a call does under the current request context
    ([get_current_context()]). *)
Record Function : Type := mkFunction {
  body : option RequestContext -> M World (outcome T);
  _capability_metadata : option CapabilityMetadata
}.

(** The plain [async def] under the decorators. *)
Definition handler : Function :=
  mkFunction (fun _ => call_func env) None.

(** [requires_peer(spiffe_pattern)(func)].  [functools.wraps] copies the
    attributes of [func], so the wrapper carries the same metadata. *)
Definition requires_peer (spiffe_pattern : string) (func : Function) : Function :=
  let meta :=
    match _capability_metadata func with
    | Some m => Some (mkMetadata (name m) (description m)
                                 (requires_peer_patterns m ++ [spiffe_pattern])
                                 (audit_level m))
    | None => None
    end in
  mkFunction
    (fun context =>
       match context with
       | None =>
           mret (Raised (PermissionError "No request context available for peer verification"))
       | Some ctx =>
           if negb (fnmatch (caller_id ctx) spiffe_pattern) then
             mret (Raised (PermissionError
                     ("Caller " +:+ caller_id ctx
                      +:+ " does not match required peer pattern " +:+ spiffe_pattern)))
           else body func context
       end)
    meta.

(** [capability(name, description)(func)].  [authz] is the agent's
    [_authz.check_inbound] when the agent has one: caller and action to
    [(allowed, reason)]. *)
Definition capability (cap_name : string) (cap_description : option string)
    (authz : option (string -> string -> bool * string)) (func : Function) : Function :=
  let meta := mkMetadata cap_name cap_description [] None in
  mkFunction
    (fun context =>
       match context, authz with
       | Some ctx, Some check_inbound =>
           let '(allowed, reason) := check_inbound (caller_id ctx) cap_name in
           if negb allowed then
             mret (Raised (PermissionError
                     ("Not authorized to call capability '" +:+ cap_name +:+ "': " +:+ reason)))
           else body func context
       | _, _ => body func context
       end)
    (Some meta).

(** A capability declared with a list of peer patterns, one
    [@requires_peer] line per pattern under [@capability]:
    [[
      @capability(name)
      @requires_peer(p1)
      ...
      @requires_peer(pn)
      async def handler(self, ...): ...
    ]] *)
Definition declare (cap_name : string) (authz : option (string -> string -> bool * string))
    (patterns : list string) : Function :=
  capability cap_name None authz (fold_right requires_peer handler patterns).


End Decorators.

End Decorators.

(** ** agentweave/config.py *)
Module Config.
Import Py.

Inductive Environment : Type := DEVELOPMENT | STAGING | PRODUCTION.
Inductive IdentityProviderKind : Type := SPIFFE | MTLS_STATIC.
Inductive AuthorizationProvider : Type := OPA | ALLOW_ALL.
Inductive DefaultAction : Type := DENY | LOG_ONLY.
Inductive PeerVerification : Type := STRICT | PEER_LOG_ONLY.
(** [Literal["1.2", "1.3"]] *)
Inductive TlsMinVersion : Type := TLS_1_2 | TLS_1_3.

#[global] Instance Environment_eq_dec : EqDecision Environment.
Proof. solve_decision. Defined.
#[global] Instance AuthorizationProvider_eq_dec : EqDecision AuthorizationProvider.
Proof. solve_decision. Defined.
#[global] Instance DefaultAction_eq_dec : EqDecision DefaultAction.
Proof. solve_decision. Defined.
#[global] Instance PeerVerification_eq_dec : EqDecision PeerVerification.
Proof. solve_decision. Defined.

(** Members by value, as pydantic coerces a string into an enumeration. *)
Definition Environment_of (v : string) : option Environment :=
  if String.eqb v "development" then Some DEVELOPMENT
  else if String.eqb v "staging" then Some STAGING
  else if String.eqb v "production" then Some PRODUCTION
  else None.
Definition IdentityProviderKind_of (v : string) : option IdentityProviderKind :=
  if String.eqb v "spiffe" then Some SPIFFE
  else if String.eqb v "mtls-static" then Some MTLS_STATIC
  else None.
Definition AuthorizationProvider_of (v : string) : option AuthorizationProvider :=
  if String.eqb v "opa" then Some OPA
  else if String.eqb v "allow-all" then Some ALLOW_ALL
  else None.
Definition DefaultAction_of (v : string) : option DefaultAction :=
  if String.eqb v "deny" then Some DENY
  else if String.eqb v "log-only" then Some LOG_ONLY
  else None.
Definition PeerVerification_of (v : string) : option PeerVerification :=
  if String.eqb v "strict" then Some STRICT
  else if String.eqb v "log-only" then Some PEER_LOG_ONLY
  else None.
Definition TlsMinVersion_of (v : string) : option TlsMinVersion :=
  if String.eqb v "1.2" then Some TLS_1_2
  else if String.eqb v "1.3" then Some TLS_1_3
  else None.
Definition tls_value (v : TlsMinVersion) : string :=
  match v with TLS_1_2 => "1.2" | TLS_1_3 => "1.3" end.

Record AgentSettings : Type := mkAgent {
  agent_name : string;
  trust_domain : string;
  environment : Environment
}.

Record IdentityConfig : Type := mkIdentity {
  identity_provider : IdentityProviderKind;
  spiffe_endpoint : string;
  allowed_trust_domains : list string
}.

Record AuditConfig : Type := mkAudit { enabled : bool; destination : string }.

Record AuthorizationConfig : Type := mkAuthorization {
  provider : AuthorizationProvider;
  opa_endpoint : string;
  policy_path : string;
  default_action : DefaultAction;
  audit : AuditConfig
}.

Record TransportConfig : Type := mkTransport {
  tls_min_version : TlsMinVersion;
  peer_verification : PeerVerification
}.

Record AgentConfig : Type := mkConfig {
  agent : AgentSettings;
  identity : IdentityConfig;
  authorization : AuthorizationConfig;
  transport : TransportConfig
}.

Definition ConfigurationError (msg : string) : Exn :=
  mkExn ["ConfigurationError"; "AgentWeaveError"; "Exception"] msg.
Definition ValidationError (msg : string) : Exn :=
  mkExn ["ValidationError"; "ValueError"; "Exception"] msg.

(** [AgentConfig.is_production] *)
Definition is_production (c : AgentConfig) : bool :=
  bool_decide (environment (agent c) = PRODUCTION).

(** [AgentConfig.validate_security] *)
Definition validate_security (c : AgentConfig) : outcome AgentConfig :=
  if is_production c && bool_decide (default_action (authorization c) ≠ DENY) then
    Raised (ConfigurationError
      "authorization.default_action must be 'deny' in production environment")
  else if is_production c && bool_decide (provider (authorization c) = ALLOW_ALL) then
    Raised (ConfigurationError
      "authorization.provider cannot be 'allow-all' in production environment")
  else if is_production c && bool_decide (peer_verification (transport c) ≠ STRICT) then
    Raised (ConfigurationError
      "transport.peer_verification must be 'strict' in production environment")
  else if negb (bool_decide (tls_value (tls_min_version (transport c)) ∈ ["1.2"; "1.3"])) then
    Raised (ConfigurationError "transport.tls_min_version must be '1.2' or '1.3'")
  else if is_production c && negb (enabled (audit (authorization c))) then
    Raised (ConfigurationError
      "authorization.audit.enabled must be true in production environment")
  else Returned c.

(** The recognised options before validation, as a YAML file or the
    environment gives them. *)
Record RawConfig : Type := mkRaw {
  raw_name : string;
  raw_trust_domain : string;
  raw_environment : string;
  raw_identity_provider : string;
  raw_spiffe_endpoint : string;
  raw_allowed_trust_domains : list string;
  raw_provider : string;
  raw_opa_endpoint : string;
  raw_policy_path : string;
  raw_default_action : string;
  raw_audit_enabled : bool;
  raw_audit_destination : string;
  raw_tls_min_version : string;
  raw_peer_verification : string
}.

Section Build.
(** [re.match(pattern, v)] succeeds. *)
Variable re_match : string -> string -> bool.

Definition name_pattern : string := "^[a-z][a-z0-9-]*$".
Definition trust_domain_pattern : string :=
  "^[a-z0-9]([a-z0-9-]{0,61}[a-z0-9])?(\.[a-z0-9]([a-z0-9-]{0,61}[a-z0-9])?)*$".

(** Field validation of the nested models; [None] is pydantic's
    [ValidationError]. *)
Definition fields (r : RawConfig) : option AgentConfig :=
  env ← Environment_of (raw_environment r);
  idp ← IdentityProviderKind_of (raw_identity_provider r);
  prov ← AuthorizationProvider_of (raw_provider r);
  act ← DefaultAction_of (raw_default_action r);
  tls ← TlsMinVersion_of (raw_tls_min_version r);
  pv ← PeerVerification_of (raw_peer_verification r);
  if negb (re_match name_pattern (raw_name r)) then None
  else if negb (re_match trust_domain_pattern (raw_trust_domain r)) then None
  else if negb (startswith (raw_spiffe_endpoint r) "unix://"
                || startswith (raw_spiffe_endpoint r) "tcp://") then None
  else if negb (startswith (raw_opa_endpoint r) "http://"
                || startswith (raw_opa_endpoint r) "https://") then None
  else Some (mkConfig
    (mkAgent (raw_name r) (raw_trust_domain r) env)
    (mkIdentity idp (raw_spiffe_endpoint r) (raw_allowed_trust_domains r))
    (mkAuthorization prov (raw_opa_endpoint r) (raw_policy_path r) act
                     (mkAudit (raw_audit_enabled r) (raw_audit_destination r)))
    (mkTransport tls pv)).

(** Construction of an [AgentConfig]: the fields, then the model validator. *)
Definition build (r : RawConfig) : outcome AgentConfig :=
  match fields r with
  | None => Raised (ValidationError "validation error for AgentConfig")
  | Some c => validate_security c
  end.
End Build.

End Config.

(** ** Concrete inputs used by the examples of Part II *)
Module Scenario.
Import Py.

Definition isoformat (t : Z) : string :=
  match t with 0 => "1970-01-01T00:00:00+00:00" | _ => "later" end.

Definition py_str (v : JSON) : string :=
  match v with JStr s => s | _ => "?" end.

(** A task that completed with a result. *)
Definition done_task : Task.Task :=
  Task.mkTask "t1" "search" Task.COMPLETED [("query", JStr "rocq")] []
              (JStr "42") [] None 0 0 [].




(** A channel to [agent/search] and a peer that presents a certificate,
    valid under the trust bundle, for [agent/other]. *)
Definition search_id : string := "spiffe://example.com/agent/search".
Definition other_id : string := "spiffe://example.com/agent/other".
Definition search_channel : Channel.SecureChannel :=
  Channel.mkChannel search_id Channel.default_config None None.
Definition other_certificate : Channel.Certificate :=
  Channel.mkCert (Some [Channel.DNSName "other.example.com";
                        Channel.UniformResourceIdentifier other_id]) true.
Definition identity : Channel.IdentityProvider :=
  Channel.mkIdentity
    (Returned (Channel.mkContext Channel.TLSv1_2 Channel.TLSv1_3 Channel.CERT_NONE true))
    (fun _ => Returned ["-----BEGIN CERTIFICATE-----"]).
Definition ok_response : Channel.Response := Channel.mkResponse 200 "{}".

(** Configurations for the validator. *)
Definition production_config : Config.AgentConfig :=
  Config.mkConfig
    (Config.mkAgent "search-agent" "agentweave.io" Config.PRODUCTION)
    (Config.mkIdentity Config.SPIFFE "unix:///run/spire/sockets/agent.sock" [])
    (Config.mkAuthorization Config.OPA "http://localhost:8181" "agentweave/authz"
                            Config.DENY
                            (Config.mkAudit true "file:///var/log/agentweave/audit.log"))
    (Config.mkTransport Config.TLS_1_3 Config.STRICT).
Definition development_raw_none : Config.RawConfig :=
  Config.mkRaw "search-agent" "agentweave.io" "development" "spiffe"
               "unix:///run/spire/sockets/agent.sock" [] "opa" "http://localhost:8181"
               "agentweave/authz" "deny" true "file:///var/log/agentweave/audit.log"
               "1.3" "none".
Definition any_re_match (pattern v : string) : bool := true.


(** A retry policy without jitter and a peer that never answers. *)
Definition retry_config : Retry.RetryConfig :=
  Retry.mkRetryConfig 2 1%Q 30%Q 2%Q false
                      ["ConnectionError"; "TimeoutError"; "asyncio.TimeoutError"].
Definition connection_refused : Exn :=
  mkExn ["ConnectionRefusedError"; "ConnectionError"; "OSError"; "Exception"]
        "Connection refused".

(** A breaker that opens at the second failure, a clock that shows ten
    units more at each reading, and a peer that is down. *)
Definition breaker_config : Circuit.CircuitBreakerConfig := Circuit.mkConfig 2 1 30 [].
Definition outage : Env Z :=
  mkEnv (fun _ => Raised connection_refused) (fun k => Z.of_nat k * 10) (fun _ => 0%Q).
Definition open_message (name : string) (failures : Z) (last : option Z) : string :=
  "Circuit breaker is OPEN for " +:+ name.

(** The policy engine is down.  One provider has seen its breaker open
    at instant 0, the other has not counted a failure yet; every
    reading of the clock shows instant 1. *)
Definition toy_digest (s : string) : string := s.
Definition toy_items (d : list (string * JSON)) : string := "[...]".
Definition uuid_of (k : nat) : string :=
  match k with O => "audit-0" | _ => "audit-n" end.
Definition connect_error : Exn :=
  mkExn ["ConnectError"; "TransportError"; "HTTPError"; "Exception"]
        "All connection attempts failed".
Definition engine_down : Env Opa.AuthzDecision :=
  mkEnv (fun _ => Raised connect_error) (fun _ => 1) (fun _ => 0%Q).
Definition tripped_provider : Opa.OPAProvider :=
  Opa.mkProvider true (Opa.mkCache 1000 60 [])
                 (Opa.mkBreaker 5 30 2 5 0 (Some 0) Opa.OPEN) 0 [].
Definition untried_provider : Opa.OPAProvider :=
  Opa.mkProvider true (Opa.mkCache 1000 60 [])
                 (Opa.mkBreaker 5 30 2 0 0 None Opa.CLOSED) 0 [].
Definition caller_id : string := "spiffe://agentweave.io/agent/orchestrator".
Definition resource_id : string := "spiffe://agentweave.io/agent/search".

End Scenario.

(** ** More of task.py and server.py: deletion, the reaper, the status
    handler *)
Module TaskOps.
Import Py Task.

(** [TaskManager.delete_task] *)
Definition delete_task (m : TaskManager) (task_id : string) : bool * TaskManager :=
  match _tasks m !! task_id with
  | None => (false, m)
  | Some _ =>
      (true,
       mkManager (delete task_id (_tasks m))
                 (_task_locks m ∖ {[task_id]})
                 (delete task_id (_task_events m)))
  end.

(** The test of the reaper: terminal, and last updated more than
    [max_age_seconds] before [now]. *)
Definition reapable (max_age_seconds now : Z) (t : Task) : bool :=
  is_terminal t && (max_age_seconds <? now - updated_at t).

(** [TaskManager.cleanup_completed_tasks]; [now] is read once.  The
    source collects the identifiers in the order of the dict, the model
    in the order of the keys: the same identifiers, and deleting them
    in either order leaves the same table. *)
Definition cleanup_completed_tasks (m : TaskManager) (max_age_seconds now : Z)
    : nat * TaskManager :=
  let to_delete :=
    (filter (fun kt => reapable max_age_seconds now (snd kt) = true)
            (map_to_list (_tasks m))).*1 in
  (length to_delete, foldl (fun m k => snd (delete_task m k)) m to_delete).

End TaskOps.

Module ServerOps.
Import Py Task Server.

Section Handlers.
Variable isoformat : Z -> string.
Variable py_str : JSON -> string.

(** [A2AServer._handle_task_status] *)
Definition _handle_task_status (m : TaskManager) (params : gmap string JSON)
    (request_id : JSON) : outcome JSONResponse :=
  let task_id := params_get params "task_id" in
  if negb (truthy task_id) then
    Returned (jsonrpc_error request_id (-32602) "Missing required parameter: task_id")
  else
    match task_id with
    | JList _ | JDict _ => Raised (mkExn ["TypeError"; "Exception"] "unhashable type")
    | JStr k =>
        match get_task m k with
        | None =>
            Returned (jsonrpc_error request_id (-32000)
                        ("Task not found: " +:+ py_str task_id))
        | Some task => Returned (jsonrpc_success (to_dict isoformat task) request_id)
        end
    | _ =>
        Returned (jsonrpc_error request_id (-32000)
                    ("Task not found: " +:+ py_str task_id))
    end.
End Handlers.

End ServerOps.

(** ** More of circuit.py: manual reset and the registry *)
Module CircuitOps.
Import Py Circuit.

(** [CircuitBreakerRegistry]: the default configuration and the
    breakers by target. *)
Record CircuitBreakerRegistry : Type := mkRegistry {
  _default_config : CircuitBreakerConfig;
  _breakers : gmap string CircuitBreaker
}.

(** [CircuitBreakerRegistry.get_breaker]; [now] is the reading a new
    breaker's metrics take. *)
Definition get_breaker (r : CircuitBreakerRegistry) (target : string)
    (config : option CircuitBreakerConfig) (now : Z)
    : CircuitBreaker * CircuitBreakerRegistry :=
  match _breakers r !! target with
  | Some breaker => (breaker, r)
  | None =>
      let breaker_config := default (_default_config r) config in
      let breaker := new_breaker target breaker_config now in
      (breaker, mkRegistry (_default_config r) (<[target := breaker]> (_breakers r)))
  end.

(** The counters of a breaker agree: every call that went through was
    counted as a success or as a failure, and no counter is negative. *)
Definition counters_agree (m : CircuitBreakerMetrics) : Prop :=
  total_calls m = total_successes m + total_failures m /\
  0 <= total_successes m /\ 0 <= total_failures m /\ 0 <= total_rejected m /\
  0 <= failure_count m /\ 0 <= success_count m.

End CircuitOps.

(** ** More of channel.py: closing a channel *)
Module ChannelOps.
Import Py Channel.

(** [SecureChannel.close]: the client goes, the SSL context stays. *)
Definition close (ch : SecureChannel) : SecureChannel :=
  match _client ch with
  | Some _ => mkChannel (_peer_spiffe_id ch) (_config ch) None (_ssl_context ch)
  | None => ch
  end.

End ChannelOps.

(** ** pool.py: the connection pool

    A [PooledConnection] is an object shared between the pool's lists
    and the callers that hold it, and the pool mutates it in place.  The
    model keeps every connection ever created in [objects] and refers to
    a connection by its position there, its handle.  Each method runs to
    completion: the interleaving of coroutines at [await] is not
    modelled.  Times are readings of the clock of the environment. *)
Module Pool.
Import Py.

Record PoolConfig : Type := mkPoolConfig {
  max_connections_per_target : Z;
  max_total_connections : Z;
  idle_timeout : Z;
  health_check_interval : Z;
  cleanup_interval : Z
}.

(** [PoolConfig.__post_init__] *)
Definition post_init (c : PoolConfig) : outcome unit :=
  if max_connections_per_target c <=? 0
  then Raised (Retry.ValueError "max_connections_per_target must be positive")
  else if max_total_connections c <? max_connections_per_target c
  then Raised (Retry.ValueError "max_total_connections must be >= max_connections_per_target")
  else if idle_timeout c <=? 0
  then Raised (Retry.ValueError "idle_timeout must be positive")
  else if health_check_interval c <=? 0
  then Raised (Retry.ValueError "health_check_interval must be positive")
  else if cleanup_interval c <=? 0
  then Raised (Retry.ValueError "cleanup_interval must be positive")
  else Returned tt.

(** [PoolConfig()] *)
Definition default_config : PoolConfig := mkPoolConfig 10 100 60 30 10.

Record PooledConnection : Type := mkConn {
  channel : Channel.SecureChannel;
  target_id : string;
  created_at : Z;
  last_used : Z;
  in_use : bool;
  health_status : string;
  use_count : Z
}.

Definition set_in_use (b : bool) (c : PooledConnection) : PooledConnection :=
  mkConn (channel c) (target_id c) (created_at c) (last_used c) b
         (health_status c) (use_count c).
Definition set_health_status (s : string) (c : PooledConnection) : PooledConnection :=
  mkConn (channel c) (target_id c) (created_at c) (last_used c) (in_use c) s (use_count c).
Definition close_channel (c : PooledConnection) : PooledConnection :=
  mkConn (ChannelOps.close (channel c)) (target_id c) (created_at c) (last_used c)
         (in_use c) (health_status c) (use_count c).

(** What [mark_used] does to a connection when the clock shows [now]. *)
Definition used_at (now : Z) (c : PooledConnection) : PooledConnection :=
  mkConn (channel c) (target_id c) (created_at c) now (in_use c)
         (health_status c) (use_count c + 1).

Definition ConnectionPoolError_mro : list string := ["ConnectionPoolError"; "Exception"].

Record ConnectionPool : Type := mkPool {
  _config : PoolConfig;
  _transport_config : Channel.TransportConfig;
  objects : list PooledConnection;       (* every connection created, by handle *)
  _pools : list (string * list nat);     (* target to handles; a dict, keys in insertion order *)
  _total_connections : Z;
  _total_acquisitions : Z;
  _total_creations : Z;
  _total_cleanups : Z
}.

Definition set_objects (o : list PooledConnection) (p : ConnectionPool) : ConnectionPool :=
  mkPool (_config p) (_transport_config p) o (_pools p) (_total_connections p)
         (_total_acquisitions p) (_total_creations p) (_total_cleanups p).
Definition set_pools (d : list (string * list nat)) (p : ConnectionPool) : ConnectionPool :=
  mkPool (_config p) (_transport_config p) (objects p) d (_total_connections p)
         (_total_acquisitions p) (_total_creations p) (_total_cleanups p).

(** [ConnectionPool.__init__] *)
Definition new_pool (config : option PoolConfig)
    (transport_config : option Channel.TransportConfig) : ConnectionPool :=
  mkPool (default default_config config) (default Channel.default_config transport_config)
         [] [] 0 0 0 0.

(** [self._pools.get(target_id, [])] *)
Definition pool_of (p : ConnectionPool) (target : string) : list nat :=
  default [] (Opa.od_get target (_pools p)).

(** [self._pools[target_id]] on the [defaultdict]: a missing key is
    entered with an empty list. *)
Definition touch (target : string) (d : list (string * list nat)) : list (string * list nat) :=
  match Opa.od_get target d with
  | Some _ => d
  | None => d ++ [(target, [])]
  end.

(** The handles of all pooled connections. *)
Definition handles (p : ConnectionPool) : list nat := concat (map snd (_pools p)).

(** [list.remove(x)]: the first occurrence goes. *)
Fixpoint remove_first (h : nat) (l : list nat) : list nat :=
  match l with
  | [] => []
  | x :: l => if Nat.eqb h x then l else x :: remove_first h l
  end.

Section Pool.
Context {T : Type}.
Variable env : Env T.
(** [str] of an [int], for error messages. *)
Variable str_int : Z -> string.

Definition PoolExhaustedError (target : string) (max_connections : Z) : Exn :=
  mkExn ("PoolExhaustedError" :: ConnectionPoolError_mro)
        ("Connection pool exhausted for target " +:+ target
         +:+ ". Max connections: " +:+ str_int max_connections).

(** [PooledConnection.is_idle] *)
Definition is_idle (c : PooledConnection) (timeout : Z) : M World bool :=
  fun w =>
    if in_use c then (false, w)
    else let '(now, w) := read_clock env w in (timeout <? now - last_used c, w).

(** [ConnectionPool._create_connection]: the new connection's handle.
    The two default factories of the dataclass read the clock in turn. *)
Definition _create_connection (target : string)
    : M (ConnectionPool * World) (outcome nat) :=
  fun '(p, w) =>
    match Channel.new_channel target (Some (_transport_config p)) with
    | Raised e => (Raised e, (p, w))
    | Returned ch =>
        let '(created, w) := read_clock env w in
        let '(used, w) := read_clock env w in
        let connection := mkConn ch target created used false "unknown" 0 in
        (Returned (length (objects p)),
         (mkPool (_config p) (_transport_config p) (objects p ++ [connection]) (_pools p)
                 (_total_connections p + 1) (_total_acquisitions p)
                 (_total_creations p + 1) (_total_cleanups p),
          w))
    end.

(** The loop of [_get_available_connection]: the first connection of
    the list that is not in use. *)
Definition first_free (objs : list PooledConnection) (pool : list nat) : option nat :=
  List.find (fun h => match objs !! h with
                      | Some c => negb (in_use c)
                      | None => false
                      end) pool.

(** [ConnectionPool._get_available_connection] *)
Definition _get_available_connection (target : string)
    : M (ConnectionPool * World) (option nat) :=
  fun '(p, w) =>
    match first_free (objects p) (pool_of p target) with
    | Some h =>
        let '(now, w) := read_clock env w in
        (Some h,
         (set_objects (alter (fun c => used_at now (set_in_use true c)) h (objects p)) p, w))
    | None => (None, (p, w))
    end.

(** [ConnectionPool.acquire]: the handle of the connection inside the
    returned [PooledChannelContext]. *)
Definition acquire (target : string) : M (ConnectionPool * World) (outcome nat) :=
  fun '(p, w) =>
    if negb (startswith target "spiffe://")
    then (Raised (Retry.ValueError ("Invalid SPIFFE ID: " +:+ target)), (p, w))
    else
      let p := mkPool (_config p) (_transport_config p) (objects p) (_pools p)
                      (_total_connections p) (_total_acquisitions p + 1)
                      (_total_creations p) (_total_cleanups p) in
      match _get_available_connection target (p, w) with
      | (Some h, s) => (Returned h, s)
      | (None, (p, w)) =>
          let p := set_pools (touch target (_pools p)) p in
          let pool := pool_of p target in
          let pool_size := Z.of_nat (length pool) in
          if max_connections_per_target (_config p) <=? pool_size
          then (Raised (PoolExhaustedError target (max_connections_per_target (_config p))),
                (p, w))
          else if max_total_connections (_config p) <=? _total_connections p
          then (Raised (PoolExhaustedError target (max_total_connections (_config p))),
                (p, w))
          else
            match _create_connection target (p, w) with
            | (Raised e, s) => (Raised e, s)
            | (Returned h, (p, w)) =>
                let p := set_objects (alter (set_in_use true) h (objects p)) p in
                let p := set_pools (Opa.od_set target (pool ++ [h]) (_pools p)) p in
                (Returned h, (p, w))
            end
      end.

(** [ConnectionPool.release] *)
Definition release (h : nat) : M (ConnectionPool * World) unit :=
  fun '(p, w) => (tt, (set_objects (alter (set_in_use false) h (objects p)) p, w)).

(** The first inner loop of [_cleanup_idle_connections]: the connections
    of one list that are idle, each asked in turn. *)
Fixpoint idle_ones (timeout : Z) (objs : list PooledConnection) (pool : list nat)
    : M World (list nat) :=
  fun w =>
    match pool with
    | [] => ([], w)
    | h :: rest =>
        let '(idle, w) :=
          match objs !! h with
          | Some c => is_idle c timeout w
          | None => (false, w)
          end in
        let '(more, w) := idle_ones timeout objs rest w in
        (if idle then h :: more else more, w)
    end.

(** The outer loop of [_cleanup_idle_connections] over the items of the
    dict: what is left of the pools, and the connections removed. *)
Fixpoint sweep (timeout : Z) (objs : list PooledConnection) (pools : list (string * list nat))
    : M World (list (string * list nat) * list nat) :=
  fun w =>
    match pools with
    | [] => (([], []), w)
    | (target, pool) :: rest =>
        let '(to_remove, w) := idle_ones timeout objs pool w in
        let pool := foldl (fun l h => remove_first h l) pool to_remove in
        let '((rest, removed), w) := sweep timeout objs rest w in
        ((match pool with
          | [] => rest                        (* [del self._pools[target_id]] *)
          | _ :: _ => (target, pool) :: rest
          end,
          to_remove ++ removed), w)
    end.

(** [ConnectionPool._cleanup_idle_connections] *)
Definition _cleanup_idle_connections : M (ConnectionPool * World) unit :=
  fun '(p, w) =>
    let '((pools, removed), w) := sweep (idle_timeout (_config p)) (objects p) (_pools p) w in
    let cleaned := Z.of_nat (length removed) in
    (tt,
     (mkPool (_config p) (_transport_config p)
             (foldl (fun o h => alter close_channel h o) (objects p) removed)
             pools
             (_total_connections p - cleaned) (_total_acquisitions p) (_total_creations p)
             (if 0 <? cleaned then _total_cleanups p + cleaned else _total_cleanups p),
      w)).

(** [ConnectionPool._health_check_connection] *)
Definition _health_check_connection (h : nat) : M (ConnectionPool * World) bool :=
  fun '(p, w) =>
    match objects p !! h with
    | None => (false, (p, w))
    | Some c =>
        if in_use c then (true, (p, w))
        else
          let '(now, w) := read_clock env w in
          let age := now - created_at c in
          if health_check_interval (_config p) * 10 <? age
          then (false, (set_objects (alter (set_health_status "unhealthy") h (objects p)) p, w))
          else (true, (set_objects (alter (set_health_status "healthy") h (objects p)) p, w))
    end.

(** [ConnectionPool.close_all] *)
Definition close_all : M (ConnectionPool * World) unit :=
  fun '(p, w) =>
    (tt,
     (mkPool (_config p) (_transport_config p)
             (foldl (fun o h => alter close_channel h o) (objects p) (handles p))
             [] 0 (_total_acquisitions p) (_total_creations p) (_total_cleanups p),
      w)).

(** What callers do to a pool. *)
Inductive Op : Type :=
| Acquire (target : string)
| Release (h : nat)
| Cleanup
| HealthCheck (h : nat)
| CloseAll.

Definition run (op : Op) : M (ConnectionPool * World) unit :=
  fun s =>
    match op with
    | Acquire target => (tt, snd (acquire target s))
    | Release h => release h s
    | Cleanup => _cleanup_idle_connections s
    | HealthCheck h => (tt, snd (_health_check_connection h s))
    | CloseAll => close_all s
    end.

Definition run_all (ops : list Op) (s : ConnectionPool * World) : ConnectionPool * World :=
  foldl (fun s op => snd (run op s)) s ops.
End Pool.

(** [ConnectionPool.get_stats] *)
Record Stats : Type := mkStats {
  total_connections : Z;
  total_acquisitions : Z;
  total_creations : Z;
  total_cleanups : Z;
  pool_sizes : list (string * nat);
  target_count : nat
}.
Definition get_stats (p : ConnectionPool) : Stats :=
  mkStats (_total_connections p) (_total_acquisitions p) (_total_creations p)
          (_total_cleanups p)
          (map (fun kv => (fst kv, length (snd kv))) (_pools p))
          (length (_pools p)).

(** The bookkeeping of a pool is sound: the dict has no key twice, no
    connection sits in two places, every pooled connection exists and
    leads to the target it is filed under, and [_total_connections]
    counts the pooled connections. *)
Record consistent (p : ConnectionPool) : Prop := mkConsistent {
  keys_distinct : NoDup (_pools p).*1;
  handles_distinct : NoDup (handles p);
  handles_filed : forall t l h, (t, l) ∈ _pools p -> h ∈ l ->
    exists c, objects p !! h = Some c /\ target_id c = t /\
              Channel._peer_spiffe_id (channel c) = t;
  total_counts : _total_connections p = Z.of_nat (length (handles p))
}.

(** The limits of the configuration hold. *)
Definition within_limits (p : ConnectionPool) : Prop :=
  (forall t l, (t, l) ∈ _pools p ->
     Z.of_nat (length l) <= max_connections_per_target (_config p)) /\
  _total_connections p <= max_total_connections (_config p).

End Pool.

(** ** Further concrete inputs *)
Module Samples.
Import Py.

(** A task that is still running, in a table of its own. *)
Definition running_task : Task.Task :=
  Task.mkTask "t7" "index" Task.RUNNING [] [] JNull [] None 0 4 [].
Definition busy_manager : Task.TaskManager :=
  Task.mkManager {["t7" := running_task]} {["t7"]} {["t7" := false]}.
Definition t9_params : gmap string JSON := {["task_id" := JStr "t9"]}.

(** A breaker that lets [ValueError] pass uncounted and needs two
    successes to close, half-open and closed; peers that refuse the
    request, answer, or answer once and then fail. *)
Definition picky_config : Circuit.CircuitBreakerConfig :=
  Circuit.mkConfig 2 2 30 ["ValueError"].
Definition bad_request : Exn := mkExn ["ValueError"; "Exception"] "bad request".
Definition half_open_breaker : Circuit.CircuitBreaker :=
  Circuit.mkBreaker "search" picky_config
                    (Circuit.mkMetrics Circuit.HALF_OPEN 2 0 2 2 0 1 (Some 10) 50).
Definition closed_breaker : Circuit.CircuitBreaker :=
  Circuit.mkBreaker "search" picky_config
                    (Circuit.mkMetrics Circuit.CLOSED 1 0 1 1 0 0 (Some 10) 0).
Definition rejecting : Env Z :=
  mkEnv (fun _ => Raised bad_request) (fun k => Z.of_nat k * 10) (fun _ => 0%Q).
Definition recovered : Env Z :=
  mkEnv (fun _ => Returned 7) (fun k => Z.of_nat k * 10) (fun _ => 0%Q).
Definition flaky : Env Z :=
  mkEnv (fun k => match k with O => Returned 7 | _ => Raised Scenario.connection_refused end)
        (fun k => Z.of_nat k * 10) (fun _ => 0%Q).

(** A policy engine that answers, whose clock advances by one at each
    reading; a cache of two entries, empty and full. *)
Definition permit : Opa.AuthzDecision :=
  Opa.mkDecision true "policy allows" (Some "agentweave/authz") "audit-a".
Definition engine_up : Env Opa.AuthzDecision :=
  mkEnv (fun _ => Returned permit) (fun k => Z.of_nat k) (fun _ => 0%Q).
Definition small_cache : Opa.DecisionCache := Opa.mkCache 2 60 [].
Definition full_cache : Opa.DecisionCache :=
  Opa.mkCache 2 60
    [(Opa._make_key Scenario.toy_digest Scenario.toy_items "a" "b" "read" None, (permit, 0));
     ("k1", (permit, 0))].
Definition ready_provider : Opa.OPAProvider :=
  Opa.mkProvider true small_cache (Opa.mkBreaker 5 30 2 0 0 None Opa.CLOSED) 0 [].

(** A table with a finished and a running task. *)
Definition mixed_manager : Task.TaskManager :=
  Task.mkManager {["t1" := Scenario.done_task; "t7" := running_task]}
                 {["t1"; "t7"]} {["t1" := true; "t7" := false]}.


(** A pool of at most one connection per target and two in all, a clock
    that advances by a hundred at each reading, and the pool after one
    acquisition for [agent/search]. *)
Definition pool_config : Pool.PoolConfig := Pool.mkPoolConfig 1 2 60 30 10.
Definition ticking : Env unit :=
  mkEnv (fun _ => Returned tt) (fun k => Z.of_nat k * 100) (fun _ => 0%Q).
Definition str_int (z : Z) : string :=
  match z with 1 => "1" | 2 => "2" | _ => "n" end.
Definition busy_pool : Pool.ConnectionPool :=
  fst (Pool.run_all ticking str_int [Pool.Acquire Scenario.search_id]
                    (Pool.new_pool (Some pool_config) None, world0)).


(** A staging configuration that allows everything. *)
Definition staging_raw : Config.RawConfig :=
  Config.mkRaw "search-agent" "agentweave.io" "staging" "spiffe"
               "unix:///run/spire/sockets/agent.sock" [] "allow-all" "http://localhost:8181"
               "agentweave/authz" "log-only" false "stdout" "1.2" "log-only".
Definition staging_config : Config.AgentConfig :=
  Config.mkConfig
    (Config.mkAgent "search-agent" "agentweave.io" Config.STAGING)
    (Config.mkIdentity Config.SPIFFE "unix:///run/spire/sockets/agent.sock" [])
    (Config.mkAuthorization Config.ALLOW_ALL "http://localhost:8181" "agentweave/authz"
                            Config.LOG_ONLY (Config.mkAudit false "stdout"))
    (Config.mkTransport Config.TLS_1_2 Config.PEER_LOG_ONLY).
End Samples.

(* ===================================================================== *)
(** * Part II: properties                                                  *)
(* ===================================================================== *)

Import Py.

(** ** Task lifecycle *)





(** ** JSON-RPC [task.cancel] *)



(** ** Static credential provider *)





(** ** Secure channel *)

(** The callback itself is exact: it passes precisely the certificates
    whose first [spiffe://] SAN URI is the expected identifier. *)
Lemma verify_peer_callback_exact ch der :
  Channel._verify_peer_callback ch der = Returned tt <->
  Channel._extract_spiffe_id_from_cert der = Some (Channel._peer_spiffe_id ch).
Proof.
  unfold Channel._verify_peer_callback.
  case_bool_decide as H; split; intros H'; try congruence; try discriminate.
Qed.

(** Nothing in [request] depends on the identifier the peer presents:
    two peers whose chains verify alike get the same treatment. *)
Lemma request_ignores_san san1 san2 chain hm answers rnd identity method url ch w :
  Channel.request (Channel.mkCert san1 chain) hm answers rnd identity method url ch w
  = Channel.request (Channel.mkCert san2 chain) hm answers rnd identity method url ch w.
Proof. reflexivity. Qed.

(** C1 at the failing input.  The channel expects [agent/search]; the
    peer's certificate chains to the trust bundle but names
    [agent/other].  The callback would raise peer-verification-failed,
    yet [request] returns the peer's response: the callback is never
    called and never registered with the SSL context. *)
Theorem request_accepts_unexpected_peer :
  Channel._extract_spiffe_id_from_cert (Some Scenario.other_certificate)
    = Some Scenario.other_id /\
  Scenario.other_id <> Channel._peer_spiffe_id Scenario.search_channel /\
  Channel._verify_peer_callback Scenario.search_channel (Some Scenario.other_certificate)
    = Raised (Channel.PeerVerificationError Scenario.search_id (Some Scenario.other_id)) /\
  fst (Channel.request Scenario.other_certificate false
         (fun _ => Returned Scenario.ok_response) (fun _ => 0%Q)
         Scenario.identity "POST" "https://search.example.com/rpc"
         Scenario.search_channel world0)
    = Returned Scenario.ok_response.
Proof.
  split; [reflexivity|]. split; [discriminate|]. split; reflexivity.
Qed.

(** ** Configuration validation *)

Lemma validate_security_production c :
  Config.environment (Config.agent c) = Config.PRODUCTION ->
  Config.validate_security c =
    if bool_decide (Config.default_action (Config.authorization c) ≠ Config.DENY)
    then Raised (Config.ConfigurationError
           "authorization.default_action must be 'deny' in production environment")
    else if bool_decide (Config.provider (Config.authorization c) = Config.ALLOW_ALL)
    then Raised (Config.ConfigurationError
           "authorization.provider cannot be 'allow-all' in production environment")
    else if bool_decide (Config.peer_verification (Config.transport c) ≠ Config.STRICT)
    then Raised (Config.ConfigurationError
           "transport.peer_verification must be 'strict' in production environment")
    else if negb (Config.enabled (Config.audit (Config.authorization c)))
    then Raised (Config.ConfigurationError
           "authorization.audit.enabled must be true in production environment")
    else Returned c.
Proof.
  intros Hprod. unfold Config.validate_security, Config.is_production.
  rewrite Hprod. rewrite (bool_decide_eq_true_2 _ eq_refl). cbn [andb].
  repeat case_bool_decide; try reflexivity;
    destruct (Config.tls_min_version (Config.transport c)); cbn in *;
    exfalso; set_solver.
Qed.

Lemma peer_verification_none_unparsable :
  Config.PeerVerification_of "none" = None.
Proof. reflexivity. Qed.

(** C5.  In production the validator accepts a configuration exactly
    when the default action is deny, the provider is not allow-all, peer
    verification is strict and auditing is enabled, and raises a
    configuration error otherwise; and a configuration whose
    [peer_verification] is [none] cannot be built in any environment:
    the enumeration has no such member. *)
Theorem production_validation_enforced :
  (forall c,
     Config.environment (Config.agent c) = Config.PRODUCTION ->
     (Config.validate_security c = Returned c <->
        Config.default_action (Config.authorization c) = Config.DENY /\
        Config.provider (Config.authorization c) <> Config.ALLOW_ALL /\
        Config.peer_verification (Config.transport c) = Config.STRICT /\
        Config.enabled (Config.audit (Config.authorization c)) = true) /\
     (Config.validate_security c = Returned c \/
      exists msg, Config.validate_security c = Raised (Config.ConfigurationError msg))) /\
  (forall re_match r,
     Config.raw_peer_verification r = "none" ->
     Config.fields re_match r = None /\
     exists e, Config.build re_match r = Raised e).
Proof.
  split.
  - intros c Hprod. rewrite (validate_security_production c Hprod).
    destruct (Config.default_action (Config.authorization c)),
             (Config.provider (Config.authorization c)),
             (Config.peer_verification (Config.transport c)),
             (Config.enabled (Config.audit (Config.authorization c)));
      cbn;
      (split;
       [split; [intros Hok; try discriminate Hok; repeat split; first [reflexivity | discriminate]
               |intros (H1 & H2 & H3 & H4);
                first [reflexivity | discriminate | contradiction]]
       |first [left; reflexivity | right; eexists; reflexivity]]).
  - intros re_match r Hnone.
    assert (Hf : Config.fields re_match r = None).
    { unfold Config.fields. rewrite Hnone, peer_verification_none_unparsable.
      destruct (Config.Environment_of _); [|reflexivity].
      destruct (Config.IdentityProviderKind_of _); [|reflexivity].
      destruct (Config.AuthorizationProvider_of _); [|reflexivity].
      destruct (Config.DefaultAction_of _); [|reflexivity].
      destruct (Config.TlsMinVersion_of _); reflexivity. }
    split; [exact Hf|]. unfold Config.build. rewrite Hf. eexists. reflexivity.
Qed.

Lemma production_validation_enforced_witness :
  Config.validate_security Scenario.production_config = Returned Scenario.production_config /\
  exists e, Config.build Scenario.any_re_match Scenario.development_raw_none = Raised e.
Proof.
  split.
  - apply (proj1 (proj1 production_validation_enforced Scenario.production_config eq_refl)).
    repeat split; [discriminate].
  - apply (proj2 production_validation_enforced Scenario.any_re_match
             Scenario.development_raw_none eq_refl).
Defined.

(** ** Peer patterns *)

Section PeerPatterns.
Context {T : Type} (env : Env T) (fnmatch : string -> string -> bool).



End PeerPatterns.



(** ** Retry policy *)

Section RetryFacts.
Context {T : Type} (c : Retry.RetryConfig).
Hypothesis Hvalid : Retry.post_init c = Returned tt.








End RetryFacts.

Section RetryLoop.
Context {T : Type} (env : Env T) (c : Retry.RetryConfig).



End RetryLoop.

Section RetryExecute.
Context {T : Type}.



End RetryExecute.


(** ** Circuit breaker *)

Ltac run_breaker :=
  unfold Circuit.call, Circuit.try_half_open, Circuit._should_attempt_reset,
    Circuit._transition_state, Circuit._record_failure, Circuit._record_success,
    Circuit.with_metrics, on_fst, on_snd, get, modify, read_clock, call_func,
    mbind, M_bind, bind, mret, M_ret, ret;
  cbn.

Section BreakerFacts.
Context {T : Type} (env : Env T) (open_message : string -> Z -> option Z -> string).


(** While the timeout has not elapsed an open breaker rejects the call:
    the wrapped function is not called and the breaker stays open with
    the same last failure time. *)
Lemma call_open_rejects b w t :
  Circuit.state (Circuit._metrics b) = Circuit.OPEN ->
  Circuit.last_failure_time (Circuit._metrics b) = Some t ->
  clock env (clock_reads w) - t < Circuit.timeout (Circuit._config b) ->
  let b' := Circuit.mkBreaker (Circuit._name b) (Circuit._config b)
                              (Circuit.count_rejected (Circuit._metrics b)) in
  Circuit.call env open_message (b, w) =
  (Raised (Circuit.CircuitOpenError open_message b'),
   (b', mkWorld (invoked w) (Datatypes.S (clock_reads w)) (draws w) (slept w))).
Proof.
  destruct b as [name cfg m]. destruct m. cbn. intros -> -> Hlt.
  run_breaker.
  destruct (Z.leb_spec (Circuit.timeout cfg) (clock env (clock_reads w) - t)); [lia|].
  reflexivity.
Qed.




Lemma calls_step n s :
  Circuit.calls env open_message (Datatypes.S n) s =
  let '(r, s1) := Circuit.call env open_message s in
  let '(rs, s2) := Circuit.calls env open_message n s1 in
  (r :: rs, s2).
Proof.
  cbn [Circuit.calls]. unfold mbind, M_bind, bind.
  destruct (Circuit.call env open_message s) as [r s1].
  destruct (Circuit.calls env open_message n s1) as [rs s2]. reflexivity.
Qed.

End BreakerFacts.



(** ** Authorization through the policy engine *)

Ltac run_opa :=
  unfold Opa.check, Opa._default_decision, Opa.new_decision, Opa._audit_log, Opa.emit,
    Opa.with_cache, Opa.with_breaker, Opa._build_input,
    on_fst, on_snd, get, put, modify, read_clock, call_func,
    mbind, M_bind, bind, mret, M_ret, ret in *;
  cbn in *.

Section OpaFacts.
Variable env : Env Opa.AuthzDecision.
Variable uuid4 : nat -> string.
Variable sha256_hexdigest : string -> string.
Variable str_sorted_items : list (string * JSON) -> string.

Abbreviation key := (Opa._make_key sha256_hexdigest str_sorted_items).
Abbreviation lookup := (Opa.cache_get env sha256_hexdigest str_sorted_items).
Abbreviation check := (Opa.check env uuid4 sha256_hexdigest str_sorted_items).

(** The world as [_build_input] leaves it: the clock was read once. *)
Abbreviation after_input w :=
  (mkWorld (invoked w) (Datatypes.S (clock_reads w)) (draws w) (slept w)).

Lemma od_get_del {V} k (d : list (string * V)) : Opa.od_get k (Opa.od_del k d) = None.
Proof.
  unfold Opa.od_get, Opa.od_del.
  induction d as [|[k' v] d IH]; cbn; [reflexivity|].
  destruct (String.eqb k k') eqn:Hk; cbn; [exact IH|]. rewrite Hk. exact IH.
Qed.

(** A lookup that misses leaves no entry under the key. *)
Lemma cache_get_miss caller res act ctx c w c1 w1 :
  lookup caller res act ctx (c, w) = (None, (c1, w1)) ->
  Opa.od_get (key caller res act ctx) (Opa._cache c1) = None /\
  invoked w1 = invoked w.
Proof.
  unfold Opa.cache_get, Opa.set_cache.
  unfold on_fst, on_snd, get, modify, read_clock, mbind, M_bind, bind, mret, M_ret, ret.
  cbn.
  destruct (Opa.od_get (key caller res act ctx) (Opa._cache c)) as [[d stamp]|] eqn:Hget.
  - cbn. destruct (Opa.ttl_seconds c <? clock env (clock_reads w) - stamp); cbn;
      [|discriminate].
    intros [= <- <-]. cbn. split; [apply od_get_del|reflexivity].
  - cbn. intros [= <- <-]. auto.
Qed.

Lemma with_cache_frame {A} (c : M (Opa.DecisionCache * World) A) p w a p1 w1 :
  Opa.with_cache c (p, w) = (a, (p1, w1)) ->
  c (Opa.cache p, w) = (a, (Opa.cache p1, w1)) /\
  p1 = Opa.mkProvider (Opa.default_deny p) (Opa.cache p1) (Opa._circuit_breaker p)
                      (Opa.uuids p) (Opa.logged p).
Proof.
  unfold Opa.with_cache. cbn. destruct (c (Opa.cache p, w)) as [a' [c' w']].
  intros [= <- <- <-]. split; reflexivity.
Qed.

Lemma with_breaker_frame {A} (c : M (Opa.CircuitBreaker * World) A) p w a p1 w1 :
  Opa.with_breaker c (p, w) = (a, (p1, w1)) ->
  c (Opa._circuit_breaker p, w) = (a, (Opa._circuit_breaker p1, w1)) /\
  p1 = Opa.mkProvider (Opa.default_deny p) (Opa.cache p) (Opa._circuit_breaker p1)
                      (Opa.uuids p) (Opa.logged p).
Proof.
  unfold Opa.with_breaker. cbn. destruct (c (Opa._circuit_breaker p, w)) as [a' [c' w']].
  intros [= <- <- <-]. split; reflexivity.
Qed.

(** The default path: what [check] does when the lookup misses and the
    call through the breaker raises. *)
Lemma check_default_path caller res act ctx p w p1 w1 e p2 w2 :
  Opa.with_cache (lookup caller res act ctx) (p, w) = (None, (p1, w1)) ->
  Opa.with_breaker (Opa.call env) (p1, after_input w1) = (Raised e, (p2, w2)) ->
  exists line warning,
    check caller res act ctx (p, w) =
    (Opa.mkDecision (negb (Opa.default_deny p))
       ((if Opa.default_deny p
         then "OPA unavailable, default deny policy applied: "
         else "OPA unavailable, default allow policy applied: ") +:+ exn_str e)
       (Some (if Opa.default_deny p then "default-deny" else "default-allow"))
       (uuid4 (Opa.uuids p)),
     (Opa.mkProvider (Opa.default_deny p) (Opa.cache p1) (Opa._circuit_breaker p2)
        (Datatypes.S (Opa.uuids p))
        (Opa.logged p ++ [Opa.log_error line; Opa.log_warning warning]),
      w2)).
Proof.
  intros Hget Hcall.
  destruct (with_cache_frame _ _ _ _ _ _ Hget) as [_ Hp1].
  destruct (with_breaker_frame _ _ _ _ _ _ Hcall) as [_ Hp2].
  unfold Opa.check.
  unfold mbind at 1, M_bind at 1, bind at 1. rewrite Hget.
  unfold mbind at 1, M_bind at 1, bind at 1.
  unfold on_snd at 1, Opa._build_input, read_clock, mbind at 1, M_bind at 1, bind at 1.
  cbn [fst snd mret M_ret ret].
  unfold mbind at 1, M_bind at 1, bind at 1. rewrite Hcall.
  rewrite Hp2, Hp1. cbn [Opa.default_deny Opa.cache Opa.uuids Opa.logged].
  destruct (isinstance e ["CircuitBreakerError"]);
    unfold Opa._default_decision, Opa.new_decision, Opa.emit,
      on_fst, get, put, modify, mbind, M_bind, bind, mret, M_ret, ret; cbn;
    destruct (Opa.default_deny p); cbn; rewrite <- app_assoc; cbn;
    eexists _, _; reflexivity.
Qed.

Lemma check_hit caller res act ctx p w d p1 w1 :
  Opa.with_cache (lookup caller res act ctx) (p, w) = (Some d, (p1, w1)) ->
  exists line,
    check caller res act ctx (p, w) =
    (d, (Opa.mkProvider (Opa.default_deny p) (Opa.cache p1) (Opa._circuit_breaker p)
           (Opa.uuids p) (Opa.logged p ++ [Opa.log_debug line]),
         w1)).
Proof.
  intros Hget. destruct (with_cache_frame _ _ _ _ _ _ Hget) as [_ Hp1].
  unfold Opa.check. unfold mbind at 1, M_bind at 1, bind at 1. rewrite Hget.
  rewrite Hp1. unfold Opa.emit, on_fst, modify, mbind, M_bind, bind, mret, M_ret, ret. cbn.
  eexists. reflexivity.
Qed.

Lemma check_success_path caller res act ctx p w p1 w1 d p2 w2 :
  Opa.with_cache (lookup caller res act ctx) (p, w) = (None, (p1, w1)) ->
  Opa.with_breaker (Opa.call env) (p1, after_input w1) = (Returned d, (p2, w2)) ->
  exists c3 w3,
    Opa.cache_put env sha256_hexdigest str_sorted_items caller res act ctx d
                  (Opa.cache p1, w2) = (tt, (c3, w3)) /\
    check caller res act ctx (p, w) =
    (d, (Opa.mkProvider (Opa.default_deny p) c3 (Opa._circuit_breaker p2) (Opa.uuids p)
           (Opa.logged p ++ [Opa.AUTHZ caller res act d]),
         w3)).
Proof.
  intros Hget Hcall.
  destruct (with_cache_frame _ _ _ _ _ _ Hget) as [_ Hp1].
  destruct (with_breaker_frame _ _ _ _ _ _ Hcall) as [_ Hp2].
  unfold Opa.check.
  unfold mbind at 1, M_bind at 1, bind at 1. rewrite Hget.
  unfold mbind at 1, M_bind at 1, bind at 1.
  unfold on_snd at 1, Opa._build_input, read_clock, mbind at 1, M_bind at 1, bind at 1.
  cbn [fst snd mret M_ret ret].
  unfold mbind at 1, M_bind at 1, bind at 1. rewrite Hcall.
  unfold mbind at 1, M_bind at 1, bind at 1.
  unfold Opa.with_cache at 1. cbn [fst snd].
  destruct (Opa.cache_put env sha256_hexdigest str_sorted_items caller res act ctx d
              (Opa.cache p2, w2)) as [[] [c3 w3]] eqn:Hput.
  exists c3, w3. rewrite Hp2 in Hput. cbn [Opa.cache] in Hput. split; [exact Hput|].
  rewrite Hp2, Hp1. cbn.
  unfold Opa._audit_log, Opa.emit, on_fst, modify, mbind, M_bind, bind, mret, M_ret, ret.
  cbn. reflexivity.
Qed.

(** The guard of the breaker and what a call through it does. *)
Lemma call_rejected b w t :
  Opa.state b = Opa.OPEN ->
  Opa.last_failure_time b = Some t ->
  clock env (clock_reads w) - t <= Opa.recovery_timeout b ->
  Opa.call env (b, w) =
  (Raised (Opa.CircuitBreakerError "Circuit breaker is OPEN"), (b, after_input w)).
Proof.
  destruct b; cbn. intros -> -> Hle.
  unfold Opa.call, Opa.guard_call, on_fst, on_snd, get, modify, read_clock,
    mbind, M_bind, bind, mret, M_ret, ret. cbn.
  destruct (Z.ltb_spec recovery_timeout (clock env (clock_reads w) - t)); [lia|].
  reflexivity.
Qed.

Lemma call_outcome b w r b' w' :
  Opa.call env (b, w) = (r, (b', w')) ->
  (exists e, r = Raised e /\ invoked w' = invoked w /\ Opa.state b = Opa.OPEN) \/
  (r = func env (invoked w) /\ invoked w' = Datatypes.S (invoked w)).
Proof.
  destruct b; cbn.
  unfold Opa.call, Opa.guard_call, Opa._on_success, Opa._on_failure,
    on_fst, on_snd, get, modify, read_clock, call_func,
    mbind, M_bind, bind, mret, M_ret, ret. cbn.
  destruct state; cbn.
  - destruct (func env (invoked w)); cbn; intros [= <- <- <-]; right; auto.
  - destruct last_failure_time as [t|]; cbn.
    + destruct (recovery_timeout <? clock env (clock_reads w) - t); cbn.
      * destruct (func env (invoked w)); cbn; intros [= <- <- <-]; right; auto.
      * intros [= <- <- <-]. left. eauto.
    + intros [= <- <- <-]. left. eauto.
  - destruct (func env (invoked w)); cbn; intros [= <- <- <-]; right; auto.
Qed.

Lemma call_if_not_open b w :
  Opa.state b <> Opa.OPEN ->
  exists b' w',
    Opa.call env (b, w) = (func env (invoked w), (b', w')) /\
    invoked w' = Datatypes.S (invoked w).
Proof.
  intros Hst. destruct (Opa.call env (b, w)) as [r [b' w']] eqn:Hcall.
  destruct (call_outcome _ _ _ _ _ Hcall) as [(e & _ & _ & Hopen)|[-> Hinv]];
    [contradiction|eauto].
Qed.

Lemma call_when_let_through b w :
  Opa.lets_through env b w ->
  exists b' w',
    Opa.call env (b, w) = (func env (invoked w), (b', w')) /\
    invoked w' = Datatypes.S (invoked w).
Proof.
  unfold Opa.lets_through. destruct b; cbn.
  unfold Opa.call, Opa.guard_call, Opa._on_success, Opa._on_failure,
    on_fst, on_snd, get, modify, read_clock, call_func,
    mbind, M_bind, bind, mret, M_ret, ret. cbn.
  destruct state; cbn.
  - intros _. destruct (func env (invoked w)); cbn; eexists _, _; split; reflexivity.
  - destruct last_failure_time as [t|]; cbn; [|discriminate].
    destruct (recovery_timeout <? clock env (clock_reads w) - t); cbn; [|discriminate].
    intros _. destruct (func env (invoked w)); cbn; eexists _, _; split; reflexivity.
  - intros _. destruct (func env (invoked w)); cbn; eexists _, _; split; reflexivity.
Qed.

Lemma lets_through_not_open b w : Opa.state b <> Opa.OPEN -> Opa.lets_through env b w.
Proof.
  unfold Opa.lets_through. destruct b; cbn.
  unfold Opa.guard_call, on_fst, on_snd, get, modify, read_clock,
    mbind, M_bind, bind, mret, M_ret, ret. cbn.
  destruct state; cbn; congruence.
Qed.

Lemma lets_through_after_recovery b w t :
  Opa.state b = Opa.OPEN ->
  Opa.last_failure_time b = Some t ->
  Opa.recovery_timeout b < clock env (clock_reads w) - t ->
  Opa.lets_through env b w.
Proof.
  unfold Opa.lets_through. destruct b; cbn. intros -> -> Hlt.
  unfold Opa.guard_call, on_fst, on_snd, get, modify, read_clock,
    mbind, M_bind, bind, mret, M_ret, ret. cbn.
  destruct (Z.ltb_spec recovery_timeout (clock env (clock_reads w) - t)); [reflexivity|lia].
Qed.

Lemma cache_get_absent caller res act ctx c w :
  Opa.od_get (key caller res act ctx) (Opa._cache c) = None ->
  lookup caller res act ctx (c, w) = (None, (c, w)).
Proof.
  intros Hget. unfold Opa.cache_get.
  unfold on_fst, on_snd, get, mbind, M_bind, bind, mret, M_ret, ret. cbn.
  rewrite Hget. destruct w; reflexivity.
Qed.

Lemma cache_put_world caller res act ctx d c w c3 w3 :
  Opa.cache_put env sha256_hexdigest str_sorted_items caller res act ctx d (c, w)
    = (tt, (c3, w3)) ->
  invoked w3 = invoked w.
Proof.
  unfold Opa.cache_put, Opa.set_cache.
  unfold on_fst, on_snd, get, modify, read_clock, mbind, M_bind, bind, mret, M_ret, ret.
  cbn. intros [= <- <-]. reflexivity.
Qed.

Lemma no_AUTHZ_added (l : list Opa.LogRecord) line warning :
  List.filter Opa.is_AUTHZ (l ++ [Opa.log_error line; Opa.log_warning warning])
  = List.filter Opa.is_AUTHZ l.
Proof. rewrite List.filter_app. cbn. apply app_nil_r. Qed.

(** C4, as amended.  When the cache lookup of a check misses and the
    call through the breaker raises -- the breaker's own circuit-open
    error or whatever the query raised -- and the provider is
    configured with default deny, [check] returns a decision with
    [allowed = false] and policy id "default-deny" whose reason is the
    text "OPA unavailable, default deny policy applied: " followed by
    the text of the exception; it contains "OPA unavailable". *)
Theorem default_deny_when_engine_unavailable
    caller res act ctx p w p1 w1 e p2 w2 :
  Opa.default_deny p = true ->
  Opa.with_cache (lookup caller res act ctx) (p, w) = (None, (p1, w1)) ->
  Opa.with_breaker (Opa.call env) (p1, after_input w1) = (Raised e, (p2, w2)) ->
  let d := fst (check caller res act ctx (p, w)) in
  Opa.allowed d = false /\
  Opa.reason d = "OPA unavailable, default deny policy applied: " +:+ exn_str e /\
  contains "OPA unavailable" (Opa.reason d) = true /\
  Opa.policy_id d = Some "default-deny".
Proof.
  intros Hdeny Hget Hcall.
  destruct (check_default_path _ _ _ _ _ _ _ _ _ _ _ Hget Hcall) as (line & warning & ->).
  cbn. rewrite Hdeny. auto.
Qed.

(** C9.  On the default path -- the lookup missed and the call through
    the breaker raised -- the decision returned is not written to the
    cache, which is left as the lookup left it and holds nothing under
    the key, and no AUTHZ audit line is logged.  The lookup of every
    later identical check therefore misses, and when the breaker lets
    that check through the policy engine is queried, once; its answer,
    if it gives one, is the decision returned and is audited.  In any
    check, either the decision returned is the engine's answer to a
    query made in that check, or the check caches and audits nothing. *)
Theorem default_decision_neither_cached_nor_audited caller res act ctx :
  (forall p w p1 w1 e p2 w2,
     Opa.with_cache (lookup caller res act ctx) (p, w) = (None, (p1, w1)) ->
     Opa.with_breaker (Opa.call env) (p1, after_input w1) = (Raised e, (p2, w2)) ->
     exists d p',
       check caller res act ctx (p, w) = (d, (p', w2)) /\
       Opa.cache p' = Opa.cache p1 /\
       Opa.od_get (key caller res act ctx) (Opa._cache (Opa.cache p')) = None /\
       List.filter Opa.is_AUTHZ (Opa.logged p') = List.filter Opa.is_AUTHZ (Opa.logged p) /\
       (forall w3,
          Opa.with_cache (lookup caller res act ctx) (p', w3) = (None, (p', w3))) /\
       (forall w3,
          Opa.lets_through env (Opa._circuit_breaker p') (after_input w3) ->
          exists d3 p3 w4,
            check caller res act ctx (p', w3) = (d3, (p3, w4)) /\
            invoked w4 = Datatypes.S (invoked w3) /\
            (forall d2, func env (invoked w3) = Returned d2 ->
               d3 = d2 /\
               Opa.logged p3 = Opa.logged p' ++ [Opa.AUTHZ caller res act d2]))) /\
  (forall p w,
     exists r p1 w1 d p' w',
       Opa.with_cache (lookup caller res act ctx) (p, w) = (r, (p1, w1)) /\
       check caller res act ctx (p, w) = (d, (p', w')) /\
       ((func env (invoked w) = Returned d /\ invoked w' = Datatypes.S (invoked w)) \/
        (Opa.cache p' = Opa.cache p1 /\
         List.filter Opa.is_AUTHZ (Opa.logged p') = List.filter Opa.is_AUTHZ (Opa.logged p)))).
Proof.
  split.
  - intros p w p1 w1 e p2 w2 Hget Hcall.
    destruct (check_default_path _ _ _ _ _ _ _ _ _ _ _ Hget Hcall)
      as (line & warning & Hcheck).
    destruct (with_cache_frame _ _ _ _ _ _ Hget) as [Hlookup _].
    destruct (cache_get_miss _ _ _ _ _ _ _ _ Hlookup) as [Habsent _].
    eexists _, _. split; [exact Hcheck|]. cbn [Opa.cache Opa.logged Opa._circuit_breaker].
    split; [reflexivity|]. split; [exact Habsent|]. split; [apply no_AUTHZ_added|].
    assert (Hmiss : forall w3,
      Opa.with_cache (lookup caller res act ctx)
        (Opa.mkProvider (Opa.default_deny p) (Opa.cache p1) (Opa._circuit_breaker p2)
           (Datatypes.S (Opa.uuids p))
           (Opa.logged p ++ [Opa.log_error line; Opa.log_warning warning]), w3)
      = (None,
         (Opa.mkProvider (Opa.default_deny p) (Opa.cache p1) (Opa._circuit_breaker p2)
            (Datatypes.S (Opa.uuids p))
            (Opa.logged p ++ [Opa.log_error line; Opa.log_warning warning]), w3))).
    { intros w3. unfold Opa.with_cache. cbn [fst snd Opa.cache].
      rewrite (cache_get_absent _ _ _ _ _ _ Habsent). reflexivity. }
    split; [exact Hmiss|].
    intros w3 Hthrough. cbn [Opa._circuit_breaker] in Hthrough.
    destruct (call_when_let_through _ _ Hthrough) as (b' & w' & Hrun & Hinv).
    cbn [invoked] in Hinv.
    specialize (Hmiss w3).
    match type of Hmiss with
    | Opa.with_cache _ (?q, _) = _ => set (p' := q) in *
    end.
    assert (Hb : Opa.with_breaker (Opa.call env) (p', after_input w3)
                 = (func env (invoked w3),
                    (Opa.mkProvider (Opa.default_deny p') (Opa.cache p') b'
                                    (Opa.uuids p') (Opa.logged p'), w'))).
    { unfold Opa.with_breaker. cbn [fst snd]. subst p'. cbn [Opa._circuit_breaker].
      rewrite Hrun. reflexivity. }
    destruct (func env (invoked w3)) as [d2|e2] eqn:Hfunc.
    + destruct (check_success_path _ _ _ _ _ _ _ _ _ _ _ Hmiss Hb)
        as (c3 & w4 & Hput & Hcheck2).
      eexists _, _, _. split; [exact Hcheck2|].
      apply cache_put_world in Hput. split; [lia|].
      intros d2' [= <-]. cbn. auto.
    + destruct (check_default_path _ _ _ _ _ _ _ _ _ _ _ Hmiss Hb)
        as (l2 & wn2 & Hcheck2).
      eexists _, _, _. split; [exact Hcheck2|].
      split; [exact Hinv|]. intros d2 [=].
  - intros p w.
    destruct (Opa.with_cache (lookup caller res act ctx) (p, w)) as [r [p1 w1]] eqn:Hget.
    destruct (with_cache_frame _ _ _ _ _ _ Hget) as [Hlookup _].
    destruct r as [d|].
    + destruct (check_hit _ _ _ _ _ _ _ _ _ Hget) as (line & Hcheck).
      eexists _, _, _, _, _, _. split; [reflexivity|]. split; [exact Hcheck|].
      right. cbn. split; [reflexivity|].
      rewrite List.filter_app. cbn. apply app_nil_r.
    + destruct (cache_get_miss _ _ _ _ _ _ _ _ Hlookup) as [_ Hinv1].
      destruct (Opa.with_breaker (Opa.call env) (p1, after_input w1))
        as [r [p2 w2]] eqn:Hcall.
      destruct (with_breaker_frame _ _ _ _ _ _ Hcall) as [Hbreaker _].
      destruct r as [d|e].
      * destruct (check_success_path _ _ _ _ _ _ _ _ _ _ _ Hget Hcall)
          as (c3 & w3 & Hput & Hcheck).
        eexists _, _, _, _, _, _. split; [reflexivity|]. split; [exact Hcheck|].
        left. apply cache_put_world in Hput.
        destruct (call_outcome _ _ _ _ _ Hbreaker) as [(e & [=] & _)|[Hr Hinv]].
        cbn in Hr, Hinv. rewrite Hinv1 in Hr, Hinv. split; [congruence|lia].
      * destruct (check_default_path _ _ _ _ _ _ _ _ _ _ _ Hget Hcall)
          as (line & warning & Hcheck).
        eexists _, _, _, _, _, _. split; [reflexivity|]. split; [exact Hcheck|].
        right. cbn. split; [reflexivity|apply no_AUTHZ_added].
Qed.
End OpaFacts.

Lemma default_deny_when_engine_unavailable_witness :
  let d := fst (Opa.check Scenario.engine_down Scenario.uuid_of Scenario.toy_digest
                          Scenario.toy_items Scenario.caller_id Scenario.resource_id
                          "search" None (Scenario.tripped_provider, world0)) in
  Opa.allowed d = false /\
  Opa.reason d = "OPA unavailable, default deny policy applied: " +:+ "Circuit breaker is OPEN" /\
  contains "OPA unavailable" (Opa.reason d) = true /\
  Opa.policy_id d = Some "default-deny".
Proof.
  apply (default_deny_when_engine_unavailable Scenario.engine_down Scenario.uuid_of
           Scenario.toy_digest Scenario.toy_items Scenario.caller_id Scenario.resource_id
           "search" None Scenario.tripped_provider world0 Scenario.tripped_provider world0
           (Opa.CircuitBreakerError "Circuit breaker is OPEN")
           Scenario.tripped_provider (mkWorld 0 2 0 [])).
  - reflexivity.
  - reflexivity.
  - reflexivity.
Defined.

(** C4, as stated, fails.  With default deny, both when the breaker is
    open and when the query itself fails, the decision denies, but its
    reason does not contain "policy engine unavailable". *)
Lemma default_deny_reason_lacks_the_phrase :
  let tripped := fst (Opa.check Scenario.engine_down Scenario.uuid_of Scenario.toy_digest
                        Scenario.toy_items Scenario.caller_id Scenario.resource_id
                        "search" None (Scenario.tripped_provider, world0)) in
  let failed := fst (Opa.check Scenario.engine_down Scenario.uuid_of Scenario.toy_digest
                       Scenario.toy_items Scenario.caller_id Scenario.resource_id
                       "search" None (Scenario.untried_provider, world0)) in
  Opa.default_deny Scenario.tripped_provider = true /\
  Opa.state (Opa._circuit_breaker Scenario.tripped_provider) = Opa.OPEN /\
  Opa.allowed tripped = false /\
  Opa.reason tripped
    = "OPA unavailable, default deny policy applied: Circuit breaker is OPEN" /\
  contains "policy engine unavailable" (Opa.reason tripped) = false /\
  Opa.default_deny Scenario.untried_provider = true /\
  func Scenario.engine_down 0 = Raised Scenario.connect_error /\
  Opa.allowed failed = false /\
  Opa.reason failed
    = "OPA unavailable, default deny policy applied: All connection attempts failed" /\
  contains "policy engine unavailable" (Opa.reason failed) = false.
Proof. vm_compute. repeat split. Qed.

Lemma default_decision_neither_cached_nor_audited_witness :
  exists d p',
    Opa.check Scenario.engine_down Scenario.uuid_of Scenario.toy_digest
              Scenario.toy_items Scenario.caller_id Scenario.resource_id
              "search" None (Scenario.untried_provider, world0)
      = (d, (p', mkWorld 1 2 0 [])) /\
    Opa.od_get (Opa._make_key Scenario.toy_digest Scenario.toy_items Scenario.caller_id
                              Scenario.resource_id "search" None)
               (Opa._cache (Opa.cache p')) = None /\
    List.filter Opa.is_AUTHZ (Opa.logged p') = [].
Proof.
  destruct (proj1 (default_decision_neither_cached_nor_audited Scenario.engine_down
              Scenario.uuid_of Scenario.toy_digest Scenario.toy_items Scenario.caller_id
              Scenario.resource_id "search" None)
              Scenario.untried_provider world0 Scenario.untried_provider world0
              Scenario.connect_error
              (Opa.mkProvider true (Opa.mkCache 1000 60 [])
                              (Opa.mkBreaker 5 30 2 1 0 (Some 1) Opa.CLOSED) 0 [])
              (mkWorld 1 2 0 []))
    as (d & p' & Hcheck & _ & Habsent & Haudit & _).
  - reflexivity.
  - reflexivity.
  - exists d, p'. split; [exact Hcheck|]. split; [exact Habsent|exact Haudit].
Defined.

(* ===================================================================== *)
(** * Part III: further properties of the modelled code                    *)
(* ===================================================================== *)

(** ** Task table *)

(** X1.  The completion event of a task is set by [update_task] exactly when
    it was set before or the task is terminal after the update; it is
    never cleared. *)
Theorem update_task_signals_completion m k t ev st res err now :
  Task.get_task m k = Some t ->
  Task._task_events m !! k = Some ev ->
  exists t' m',
    Task.update_task m k st res err now = (Some t', m') /\
    Task._task_events m' !! k = Some (ev || Task.is_terminal t').
Proof.
  unfold Task.get_task, Task.update_task. intros -> Hev. eexists _, _.
  split; [reflexivity|]. cbn. rewrite Hev.
  rewrite (bool_decide_eq_true_2 (is_Some (Some ev))) by eauto.
  rewrite andb_true_r.
  match goal with |- context [Task.is_terminal ?x] => destruct (Task.is_terminal x) end.
  - rewrite lookup_insert_eq, orb_true_r. reflexivity.
  - rewrite Hev, orb_false_r. reflexivity.
Qed.

Lemma delete_task_tasks m k :
  Task._tasks (snd (TaskOps.delete_task m k)) = delete k (Task._tasks m).
Proof.
  unfold TaskOps.delete_task.
  destruct (Task._tasks m !! k) eqn:Hk; cbn; [reflexivity|].
  symmetry. apply delete_id. exact Hk.
Qed.

(** X2.  [delete_task] reports whether the task was there; afterwards the
    task, its event and its lock are gone and every other task is as
    before. *)
Theorem delete_task_removes m k :
  let '(found, m') := TaskOps.delete_task m k in
  found = bool_decide (is_Some (Task.get_task m k)) /\
  Task.get_task m' k = None /\
  (found = true -> Task._task_events m' !! k = None /\ k ∉ Task._task_locks m') /\
  (forall k', k' <> k -> Task.get_task m' k' = Task.get_task m k').
Proof.
  unfold TaskOps.delete_task, Task.get_task.
  destruct (Task._tasks m !! k) as [t|] eqn:Hk; cbn.
  - split; [reflexivity|].
    split; [apply lookup_delete_eq|].
    split.
    { intros _. split; [apply lookup_delete_eq|].
      intros [_ Hn]%elem_of_difference. apply Hn, elem_of_singleton. reflexivity. }
    intros k' Hne. apply lookup_delete_ne. congruence.
  - split; [reflexivity|].
    split; [exact Hk|]. split; [discriminate|]. reflexivity.
Qed.

Lemma delete_tasks_lookup l : forall m k,
  Task._tasks (foldl (fun m k => snd (TaskOps.delete_task m k)) m l) !! k
  = if bool_decide (k ∈ l) then None else Task._tasks m !! k.
Proof.
  induction l as [|x l IH]; intros m k; cbn.
  - rewrite bool_decide_eq_false_2 by apply not_elem_of_nil. reflexivity.
  - rewrite IH, delete_task_tasks.
    destruct (decide (k ∈ l)) as [Hin|Hnin].
    + rewrite (bool_decide_eq_true_2 (k ∈ l)) by exact Hin.
      rewrite bool_decide_eq_true_2 by (right; exact Hin). reflexivity.
    + rewrite (bool_decide_eq_false_2 (k ∈ l)) by exact Hnin.
      destruct (decide (k = x)) as [->|Hne].
      * rewrite bool_decide_eq_true_2 by left. apply lookup_delete_eq.
      * rewrite bool_decide_eq_false_2; [apply lookup_delete_ne; congruence|].
        apply not_elem_of_cons. split; assumption.
Qed.

Lemma delete_tasks_size l : forall m,
  NoDup l ->
  (forall k, k ∈ l -> is_Some (Task._tasks m !! k)) ->
  (size (Task._tasks (foldl (fun m k => snd (TaskOps.delete_task m k)) m l)) + length l
   = size (Task._tasks m))%nat.
Proof.
  induction l as [|x l IH]; intros m Hnd Hin; cbn; [lia|].
  apply NoDup_cons in Hnd as [Hx Hnd].
  destruct (Hin x) as [t Ht]; [left|].
  assert (Hrest : forall k, k ∈ l ->
            is_Some (Task._tasks (snd (TaskOps.delete_task m x)) !! k)).
  { intros k Hk. rewrite delete_task_tasks, lookup_delete_ne.
    - apply Hin. right. exact Hk.
    - intros ->. contradiction. }
  pose proof (IH _ Hnd Hrest) as Hsize.
  rewrite delete_task_tasks, map_size_delete, Ht in Hsize.
  assert (size (Task._tasks m) <> 0)%nat; [|lia].
  intros Hz. apply map_size_empty_inv in Hz. rewrite Hz in Ht. discriminate.
Qed.

(** X3.  The reaper removes exactly the terminal tasks last updated more than
    [max_age_seconds] ago, keeps every other task as it is (a task that
    is not terminal is never removed), and returns the number of tasks
    it removed. *)
Theorem cleanup_removes_old_terminal_tasks m max_age now :
  let '(n, m') := TaskOps.cleanup_completed_tasks m max_age now in
  (forall k,
     Task.get_task m' k =
     match Task.get_task m k with
     | Some t => if TaskOps.reapable max_age now t then None else Some t
     | None => None
     end) /\
  (forall k t, Task.get_task m k = Some t -> Task.is_terminal t = false ->
     Task.get_task m' k = Some t) /\
  (size (Task._tasks m') + n = size (Task._tasks m))%nat.
Proof.
  unfold TaskOps.cleanup_completed_tasks, Task.get_task.
  set (l := (filter _ (map_to_list (Task._tasks m))).*1).
  assert (Hl : forall k, k ∈ l <->
            exists t, Task._tasks m !! k = Some t /\ TaskOps.reapable max_age now t = true).
  { intros k. subst l. rewrite list_elem_of_fmap. split.
    - intros ([k' t] & -> & Hin). apply list_elem_of_filter in Hin as [Hr Hin].
      apply elem_of_map_to_list in Hin. eauto.
    - intros (t & Ht & Hr). exists (k, t). split; [reflexivity|].
      apply list_elem_of_filter. split; [exact Hr|]. apply elem_of_map_to_list. exact Ht. }
  assert (Hlookup : forall k,
    Task._tasks (foldl (fun m k => snd (TaskOps.delete_task m k)) m l) !! k =
    match Task._tasks m !! k with
    | Some t => if TaskOps.reapable max_age now t then None else Some t
    | None => None
    end).
  { intros k. rewrite delete_tasks_lookup.
    destruct (Task._tasks m !! k) as [t|] eqn:Ht.
    - destruct (TaskOps.reapable max_age now t) eqn:Hr.
      + rewrite bool_decide_eq_true_2; [reflexivity|]. apply Hl. eauto.
      + rewrite bool_decide_eq_false_2; [reflexivity|].
        intros (t' & Ht' & Hr')%Hl. congruence.
    - rewrite bool_decide_eq_false_2; [reflexivity|].
      intros (t' & Ht' & _)%Hl. congruence. }
  split; [exact Hlookup|]. split.
  - intros k t Ht Hterm. rewrite Hlookup, Ht.
    unfold TaskOps.reapable. rewrite Hterm. reflexivity.
  - apply delete_tasks_size.
    + subst l.
      apply (sublist_NoDup _ _ (NoDup_fst_map_to_list (Task._tasks m))).
      apply fmap_sublist, sublist_filter.
    + intros k (t & Ht & _)%Hl. eauto.
Qed.

Lemma update_task_signals_completion_witness :
  exists t' m',
    Task.update_task Samples.busy_manager "t7" (Some Task.COMPLETED) (JStr "done") None 9
      = (Some t', m') /\
    Task._task_events m' !! "t7" = Some (false || Task.is_terminal t').
Proof.
  apply (update_task_signals_completion Samples.busy_manager "t7" Samples.running_task false).
  - vm_compute. reflexivity.
  - vm_compute. reflexivity.
Defined.

(** ** JSON-RPC handlers *)



(** X5.  Bad identifiers: without a usable [task_id] (absent, null, empty)
    both handlers answer with error -32602, for a string that names no
    task with error -32000, and [task.cancel] leaves the manager as it
    is in both cases. *)
Theorem handlers_reject_bad_task_ids
    isoformat py_str m (params : gmap string JSON) request_id now :
  (truthy (Server.params_get params "task_id") = false ->
   Server._handle_task_cancel isoformat py_str m params request_id now
     = (Returned (Server.jsonrpc_error request_id (-32602)
                    "Missing required parameter: task_id"), m) /\
   ServerOps._handle_task_status isoformat py_str m params request_id
     = Returned (Server.jsonrpc_error request_id (-32602)
                   "Missing required parameter: task_id")) /\
  (forall k,
     params !! "task_id" = Some (JStr k) -> k <> "" ->
     Task.get_task m k = None ->
     Server._handle_task_cancel isoformat py_str m params request_id now
       = (Returned (Server.jsonrpc_error request_id (-32000)
                      ("Task not found: " +:+ py_str (JStr k))), m) /\
     ServerOps._handle_task_status isoformat py_str m params request_id
       = Returned (Server.jsonrpc_error request_id (-32000)
                     ("Task not found: " +:+ py_str (JStr k)))).
Proof.
  unfold Server._handle_task_cancel, ServerOps._handle_task_status. split.
  - intros ->. cbn. auto.
  - intros k Hp Hk Hget. unfold Server.params_get. rewrite Hp. cbn.
    destruct (String.eqb_spec k "") as [->|_]; [congruence|]. cbn.
    rewrite Hget. auto.
Qed.

Lemma handlers_reject_bad_task_ids_witness :
  Server._handle_task_cancel Scenario.isoformat Scenario.py_str Samples.busy_manager
                             Samples.t9_params (JNum 1) 9
    = (Returned (Server.jsonrpc_error (JNum 1) (-32000) "Task not found: t9"),
       Samples.busy_manager) /\
  Server._handle_task_cancel Scenario.isoformat Scenario.py_str Samples.busy_manager
                             ∅ (JNum 1) 9
    = (Returned (Server.jsonrpc_error (JNum 1) (-32602)
                   "Missing required parameter: task_id"), Samples.busy_manager).
Proof.
  split.
  - apply (proj2 (handlers_reject_bad_task_ids Scenario.isoformat Scenario.py_str
                    Samples.busy_manager Samples.t9_params (JNum 1) 9) "t9").
    + vm_compute. reflexivity.
    + discriminate.
    + vm_compute. reflexivity.
  - apply (proj1 (handlers_reject_bad_task_ids Scenario.isoformat Scenario.py_str
                    Samples.busy_manager ∅ (JNum 1) 9)).
    vm_compute. reflexivity.
Defined.

(** ** More on the transport circuit breaker *)

Section BreakerMore.
Context {T : Type} (env : Env T) (open_message : string -> Z -> option Z -> string).

(** X6.  An exception of an excluded kind passes through a breaker that is
    not open and leaves it exactly as it was: no counter moves and the
    state stays; only the call itself happened. *)
Theorem excluded_exception_leaves_breaker b w e :
  Circuit.state_eqb (Circuit.state (Circuit._metrics b)) Circuit.OPEN = false ->
  func env (invoked w) = Raised e ->
  isinstance e (Circuit.excluded_exceptions (Circuit._config b)) = true ->
  Circuit.call env open_message (b, w)
  = (Raised e, (b, mkWorld (Datatypes.S (invoked w)) (clock_reads w) (draws w) (slept w))).
Proof.
  destruct b as [name cfg m]. destruct m. cbn. intros Hst He Hex.
  destruct state; [|discriminate|]; run_breaker; rewrite He; cbn; rewrite Hex; reflexivity.
Qed.

(** X7.  The failure threshold counts consecutive failures: a success in the
    closed state clears the count, so a failure after it is the first
    again and the breaker stays closed, however many failures had been
    counted before the success. *)
Theorem closed_failures_must_be_consecutive b w v e :
  Circuit.state (Circuit._metrics b) = Circuit.CLOSED ->
  1 < Circuit.failure_threshold (Circuit._config b) ->
  func env (invoked w) = Returned v ->
  func env (Datatypes.S (invoked w)) = Raised e ->
  isinstance e (Circuit.excluded_exceptions (Circuit._config b)) = false ->
  exists b' w',
    Circuit.calls env open_message 2 (b, w) = ([Returned v; Raised e], (b', w')) /\
    Circuit.state (Circuit._metrics b') = Circuit.CLOSED /\
    Circuit.failure_count (Circuit._metrics b') = 1.
Proof.
  destruct b as [name cfg m]. destruct m. cbn. intros -> Hth Hv He Hex.
  unfold Circuit.calls. run_breaker. rewrite Hv. cbn. rewrite He. cbn. rewrite Hex. cbn.
  destruct (Z.leb_spec (Circuit.failure_threshold cfg) (0 + 1)); [lia|].
  cbn. eexists _, _. split; [reflexivity|]. split; reflexivity.
Qed.

(** X8.  A counted failure in the half-open state re-opens the breaker at
    once, with the failure's time as the last failure time; a call made
    before the timeout has passed since then is rejected with the
    circuit-open error and the wrapped function is not called. *)
Theorem half_open_failure_reopens b w e :
  Circuit.state (Circuit._metrics b) = Circuit.HALF_OPEN ->
  func env (invoked w) = Raised e ->
  isinstance e (Circuit.excluded_exceptions (Circuit._config b)) = false ->
  exists b' w',
    Circuit.call env open_message (b, w) = (Raised e, (b', w')) /\
    Circuit.state (Circuit._metrics b') = Circuit.OPEN /\
    Circuit.last_failure_time (Circuit._metrics b') = Some (clock env (clock_reads w)) /\
    Circuit.success_count (Circuit._metrics b') = Circuit.success_count (Circuit._metrics b) /\
    forall w2,
      clock env (clock_reads w2) - clock env (clock_reads w)
        < Circuit.timeout (Circuit._config b) ->
      exists b2,
        Circuit.call env open_message (b', w2)
        = (Raised (Circuit.CircuitOpenError open_message b2),
           (b2, mkWorld (invoked w2) (Datatypes.S (clock_reads w2)) (draws w2) (slept w2))) /\
        Circuit.state (Circuit._metrics b2) = Circuit.OPEN.
Proof.
  intros Hst He Hex.
  assert (Hfirst : exists b' w',
    Circuit.call env open_message (b, w) = (Raised e, (b', w')) /\
    Circuit.state (Circuit._metrics b') = Circuit.OPEN /\
    Circuit.last_failure_time (Circuit._metrics b') = Some (clock env (clock_reads w)) /\
    Circuit.success_count (Circuit._metrics b') = Circuit.success_count (Circuit._metrics b) /\
    Circuit._config b' = Circuit._config b).
  { destruct b as [name cfg m]. destruct m. cbn in *. subst state.
    run_breaker. rewrite He. cbn. rewrite Hex. cbn. eexists _, _. repeat split. }
  destruct Hfirst as (b' & w' & Hcall & Hopen & Hlft & Hsc & Hcfg).
  exists b', w'. split; [exact Hcall|]. split; [exact Hopen|]. split; [exact Hlft|].
  split; [exact Hsc|]. intros w2 Hearly. rewrite <- Hcfg in Hearly.
  eexists. split.
  - apply (call_open_rejects env open_message b' w2 _ Hopen Hlft Hearly).
  - cbn. exact Hopen.
Qed.

(** One success in the half-open state. *)
Lemma call_half_open_success b w v :
  Circuit.state (Circuit._metrics b) = Circuit.HALF_OPEN ->
  func env (invoked w) = Returned v ->
  let m1 := Circuit.set_counts (Circuit.failure_count (Circuit._metrics b))
              (Circuit.success_count (Circuit._metrics b) + 1)
              (Circuit.count_success (Circuit._metrics b)) in
  Circuit.call env open_message (b, w) =
  (Returned v,
   if Circuit.success_threshold (Circuit._config b) <=? Circuit.success_count m1
   then (Circuit.mkBreaker (Circuit._name b) (Circuit._config b)
           (Circuit.set_counts 0 0
              (Circuit.set_state_change Circuit.CLOSED (clock env (clock_reads w)) m1)),
         mkWorld (Datatypes.S (invoked w)) (Datatypes.S (clock_reads w)) (draws w) (slept w))
   else (Circuit.mkBreaker (Circuit._name b) (Circuit._config b) m1,
         mkWorld (Datatypes.S (invoked w)) (clock_reads w) (draws w) (slept w))).
Proof.
  destruct b as [name cfg m]. destruct m. cbn. intros -> Hv.
  run_breaker. rewrite Hv. cbn.
  destruct (Circuit.success_threshold cfg <=? success_count + 1); reflexivity.
Qed.

(** X9.  In the half-open state the breaker closes with the success that
    brings the count of successes to [success_threshold], and not
    before; closing clears both counts. *)
Theorem half_open_closes_at_threshold n : forall b w,
  Circuit.state (Circuit._metrics b) = Circuit.HALF_OPEN ->
  Circuit.success_count (Circuit._metrics b) + Z.of_nat (Datatypes.S n)
    = Circuit.success_threshold (Circuit._config b) ->
  (forall k, (invoked w <= k < invoked w + Datatypes.S n)%nat ->
     exists v, func env k = Returned v) ->
  (forall j, (j <= n)%nat ->
     Circuit.state (Circuit._metrics (fst (snd (Circuit.calls env open_message j (b, w)))))
     = Circuit.HALF_OPEN) /\
  exists b1 w1,
    Circuit.calls env open_message (Datatypes.S n) (b, w)
      = (map (func env) (seq (invoked w) (Datatypes.S n)), (b1, w1)) /\
    Circuit.state (Circuit._metrics b1) = Circuit.CLOSED /\
    Circuit.failure_count (Circuit._metrics b1) = 0 /\
    Circuit.success_count (Circuit._metrics b1) = 0.
Proof.
  induction n as [|n IH]; intros b w Hst Hsc Hok.
  - split.
    + intros j Hj. replace j with O by lia. exact Hst.
    + destruct (Hok (invoked w)) as [v Hv]; [lia|].
      rewrite calls_step, (call_half_open_success b w v Hst Hv).
      cbn [Circuit.set_counts Circuit.success_count].
      destruct (Z.leb_spec (Circuit.success_threshold (Circuit._config b))
                  (Circuit.success_count (Circuit._metrics b) + 1)); [|lia].
      cbn. rewrite Hv. eexists _, _. repeat split.
  - destruct (Hok (invoked w)) as [v Hv]; [lia|].
    pose proof (call_half_open_success b w v Hst Hv) as Hcall.
    cbn [Circuit.set_counts Circuit.success_count] in Hcall.
    destruct (Z.leb_spec (Circuit.success_threshold (Circuit._config b))
                (Circuit.success_count (Circuit._metrics b) + 1)); [lia|].
    cbn zeta in Hcall.
    match type of Hcall with _ = (_, (?b2, ?w2)) =>
      destruct (IH b2 w2) as (Hbefore & b1 & w1 & Hrun & Hclosed & Hfc & Hsc')
    end.
    + cbn. exact Hst.
    + cbn. lia.
    + cbn. intros k Hk. apply Hok. lia.
    + split.
      * intros [|j] Hj; [exact Hst|].
        rewrite calls_step, Hcall.
        match goal with |- context [Circuit.calls env open_message j ?s] =>
          specialize (Hbefore j ltac:(lia));
          destruct (Circuit.calls env open_message j s) as [rs s2] end.
        exact Hbefore.
      * rewrite calls_step, Hcall, Hrun. exists b1, w1. cbn in *.
        rewrite Hv. repeat split; assumption.
Qed.

(** X10.  Every call keeps the breaker's counters in agreement: calls that
    went through are the successes plus the failures. *)
Theorem call_keeps_counters_in_agreement b w :
  CircuitOps.counters_agree (Circuit._metrics b) ->
  CircuitOps.counters_agree
    (Circuit._metrics (fst (snd (Circuit.call env open_message (b, w))))).
Proof.
  destruct b as [name cfg m]. destruct m. unfold CircuitOps.counters_agree. cbn.
  intros (Hc & Hs & Hf & Hr & Hfc & Hsc).
  destruct state; run_breaker;
    repeat match goal with
           | |- context [func env ?k] => destruct (func env k); run_breaker
           | |- context [match last_failure_time with _ => _ end] =>
               destruct last_failure_time; run_breaker
           | |- context [if ?x then _ else _] => destruct x; run_breaker
           end; lia.
Qed.

End BreakerMore.

(** X11.  The registry creates a breaker for a target once: a second request
    for the same target gives the breaker made by the first, whatever
    configuration is passed, and changes nothing; other targets are not
    affected. *)
Theorem get_breaker_creates_once r target cfg1 cfg2 now1 now2 :
  let '(b1, r1) := CircuitOps.get_breaker r target cfg1 now1 in
  CircuitOps.get_breaker r1 target cfg2 now2 = (b1, r1) /\
  CircuitOps._breakers r1 !! target = Some b1 /\
  (forall other, other <> target ->
     CircuitOps._breakers r1 !! other = CircuitOps._breakers r !! other).
Proof.
  unfold CircuitOps.get_breaker.
  destruct (CircuitOps._breakers r !! target) as [b|] eqn:Hb; cbn.
  - rewrite Hb. auto.
  - rewrite lookup_insert_eq. repeat split.
    intros other Hne. apply lookup_insert_ne. congruence.
Qed.

Lemma excluded_exception_leaves_breaker_witness :
  Circuit.call Samples.rejecting Scenario.open_message (Samples.half_open_breaker, world0)
  = (Raised Samples.bad_request, (Samples.half_open_breaker, mkWorld 1 0 0 [])).
Proof.
  apply (excluded_exception_leaves_breaker Samples.rejecting Scenario.open_message
           Samples.half_open_breaker world0 Samples.bad_request); reflexivity.
Defined.

Lemma closed_failures_must_be_consecutive_witness :
  exists b' w',
    Circuit.calls Samples.flaky Scenario.open_message 2 (Samples.closed_breaker, world0)
      = ([Returned 7; Raised Scenario.connection_refused], (b', w')) /\
    Circuit.state (Circuit._metrics b') = Circuit.CLOSED /\
    Circuit.failure_count (Circuit._metrics b') = 1.
Proof.
  apply (closed_failures_must_be_consecutive Samples.flaky Scenario.open_message
           Samples.closed_breaker world0 7 Scenario.connection_refused);
    [reflexivity | simpl; lia | reflexivity | reflexivity | reflexivity].
Defined.

Lemma half_open_failure_reopens_witness :
  exists b' w',
    Circuit.call Scenario.outage Scenario.open_message (Samples.half_open_breaker, world0)
      = (Raised Scenario.connection_refused, (b', w')) /\
    Circuit.state (Circuit._metrics b') = Circuit.OPEN.
Proof.
  destruct (half_open_failure_reopens Scenario.outage Scenario.open_message
              Samples.half_open_breaker world0 Scenario.connection_refused)
    as (b' & w' & Hcall & Hopen & _); [reflexivity..|].
  exists b', w'. split; assumption.
Defined.

Lemma half_open_closes_at_threshold_witness :
  (forall j, (j <= 1)%nat ->
     Circuit.state (Circuit._metrics (fst (snd
       (Circuit.calls Samples.recovered Scenario.open_message j
          (Samples.half_open_breaker, world0)))))
     = Circuit.HALF_OPEN) /\
  exists b1 w1,
    Circuit.calls Samples.recovered Scenario.open_message 2 (Samples.half_open_breaker, world0)
      = ([Returned 7; Returned 7], (b1, w1)) /\
    Circuit.state (Circuit._metrics b1) = Circuit.CLOSED /\
    Circuit.failure_count (Circuit._metrics b1) = 0 /\
    Circuit.success_count (Circuit._metrics b1) = 0.
Proof.
  apply (half_open_closes_at_threshold Samples.recovered Scenario.open_message 1
           Samples.half_open_breaker world0);
    [reflexivity | reflexivity | intros k _; exists 7; reflexivity].
Defined.

Lemma call_keeps_counters_in_agreement_witness :
  CircuitOps.counters_agree
    (Circuit._metrics (fst (snd
       (Circuit.call Scenario.outage Scenario.open_message
          (Samples.half_open_breaker, world0))))).
Proof.
  apply (call_keeps_counters_in_agreement Scenario.outage Scenario.open_message
           Samples.half_open_breaker world0).
  unfold CircuitOps.counters_agree. simpl. lia.
Defined.

(** ** The decision cache of the OPA provider *)

Section OrderedDictFacts.
Context {V : Type}.
Implicit Types (k : string) (d : list (string * V)).

Lemma od_get_cons k k' (v : V) d :
  Opa.od_get k ((k', v) :: d) = if String.eqb k k' then Some v else Opa.od_get k d.
Proof. unfold Opa.od_get. cbn. destruct (String.eqb k k'); reflexivity. Qed.

Lemma od_get_app k d1 d2 :
  Opa.od_get k (d1 ++ d2)
  = match Opa.od_get k d1 with Some v => Some v | None => Opa.od_get k d2 end.
Proof.
  induction d1 as [|[k' v] d1 IH]; [reflexivity|].
  cbn [app]. rewrite !od_get_cons. destruct (String.eqb k k'); [reflexivity|exact IH].
Qed.

Lemma od_get_None k d : Opa.od_get k d = None <-> k ∉ d.*1.
Proof.
  induction d as [|[k' v] d IH].
  - split; [intros _; apply not_elem_of_nil|reflexivity].
  - rewrite od_get_cons. cbn [fmap list_fmap fst]. rewrite not_elem_of_cons.
    destruct (String.eqb_spec k k') as [->|Hne].
    + split; [discriminate|]. intros [Hk _]. contradiction.
    + rewrite IH. tauto.
Qed.

Lemma od_del_cons k k' (v : V) d :
  Opa.od_del k ((k', v) :: d)
  = if String.eqb k k' then Opa.od_del k d else (k', v) :: Opa.od_del k d.
Proof. unfold Opa.od_del. cbn. destruct (String.eqb k k'); reflexivity. Qed.

Lemma od_get_del_ne k k' d : k' <> k -> Opa.od_get k' (Opa.od_del k d) = Opa.od_get k' d.
Proof.
  intros Hne. induction d as [|[k0 v] d IH]; [reflexivity|].
  rewrite od_del_cons. destruct (String.eqb_spec k k0) as [->|Hk].
  - rewrite od_get_cons. destruct (String.eqb_spec k' k0); [contradiction|exact IH].
  - rewrite !od_get_cons. rewrite IH. reflexivity.
Qed.

Lemma od_del_NoDup k d : NoDup d.*1 -> NoDup (Opa.od_del k d).*1.
Proof.
  intros Hnd. apply (sublist_NoDup _ _ Hnd). apply fmap_sublist.
  induction d as [|[k0 v] d IH]; [constructor|].
  rewrite od_del_cons. destruct (String.eqb k k0).
  - apply sublist_cons. apply IH. apply NoDup_cons in Hnd as [_ Hnd]. exact Hnd.
  - apply sublist_skip. apply IH. apply NoDup_cons in Hnd as [_ Hnd]. exact Hnd.
Qed.

Lemma od_del_length k d : (length (Opa.od_del k d) <= length d)%nat.
Proof.
  induction d as [|[k0 v] d IH]; [reflexivity|].
  rewrite od_del_cons. destruct (String.eqb k k0); cbn [length]; lia.
Qed.

Lemma od_del_length_present k d v :
  Opa.od_get k d = Some v -> (length (Opa.od_del k d) < length d)%nat.
Proof.
  induction d as [|[k0 v0] d IH]; [discriminate|].
  rewrite od_get_cons, od_del_cons. destruct (String.eqb k k0); cbn [length].
  - intros _. pose proof (od_del_length k d). lia.
  - intros H. apply IH in H. lia.
Qed.

Lemma od_del_absent k d : Opa.od_get k d = None -> Opa.od_del k d = d.
Proof.
  induction d as [|[k0 v0] d IH]; [reflexivity|].
  rewrite od_get_cons, od_del_cons. destruct (String.eqb k k0); [discriminate|].
  intros H. rewrite IH by exact H. reflexivity.
Qed.

Lemma od_del_app k d1 d2 : Opa.od_del k (d1 ++ d2) = Opa.od_del k d1 ++ Opa.od_del k d2.
Proof. unfold Opa.od_del. apply List.filter_app. Qed.

Lemma od_set_get k (v : V) d : Opa.od_get k (Opa.od_set k v d) = Some v.
Proof.
  unfold Opa.od_set. destruct (Opa.od_get k d) as [v0|] eqn:Hget.
  - induction d as [|[k0 v1] d IH]; [discriminate|].
    rewrite od_get_cons in Hget. cbn [List.map fst].
    destruct (String.eqb k k0) eqn:Hk.
    + rewrite od_get_cons, String.eqb_refl. reflexivity.
    + rewrite od_get_cons, Hk. auto.
  - rewrite od_get_app, Hget, od_get_cons, String.eqb_refl. reflexivity.
Qed.

Lemma od_set_get_ne k k' (v : V) d :
  k' <> k -> Opa.od_get k' (Opa.od_set k v d) = Opa.od_get k' d.
Proof.
  intros Hne. unfold Opa.od_set. destruct (Opa.od_get k d) as [v0|] eqn:Hget.
  - clear Hget. induction d as [|[k0 v1] d IH]; [reflexivity|].
    cbn [List.map fst]. destruct (String.eqb_spec k k0) as [->|Hk].
    + rewrite !od_get_cons. destruct (String.eqb_spec k' k0); [contradiction|exact IH].
    + rewrite !od_get_cons, IH. reflexivity.
  - rewrite od_get_app, od_get_cons.
    destruct (String.eqb_spec k' k); [contradiction|].
    destruct (Opa.od_get k' d); reflexivity.
Qed.

Lemma od_set_keys k (v : V) d :
  (Opa.od_set k v d).*1 = match Opa.od_get k d with Some _ => d.*1 | None => d.*1 ++ [k] end.
Proof.
  unfold Opa.od_set. destruct (Opa.od_get k d) as [v0|].
  - induction d as [|[k0 v1] d IH]; [reflexivity|]. cbn.
    rewrite IH. destruct (String.eqb_spec k k0) as [->|]; reflexivity.
  - rewrite fmap_app. reflexivity.
Qed.

Lemma od_set_NoDup k (v : V) d : NoDup d.*1 -> NoDup (Opa.od_set k v d).*1.
Proof.
  intros Hnd. rewrite od_set_keys. destruct (Opa.od_get k d) eqn:Hget; [exact Hnd|].
  apply NoDup_app. split; [exact Hnd|]. split.
  - intros x Hx [->|[]%not_elem_of_nil]%elem_of_cons. apply od_get_None in Hget. auto.
  - apply NoDup_singleton.
Qed.

Lemma od_set_length k (v : V) d :
  length (Opa.od_set k v d)
  = match Opa.od_get k d with Some _ => length d | None => Datatypes.S (length d) end.
Proof.
  unfold Opa.od_set. destruct (Opa.od_get k d).
  - apply length_map.
  - rewrite length_app. cbn. lia.
Qed.

Lemma od_move_to_end_NoDup k d : NoDup d.*1 -> NoDup (Opa.od_move_to_end k d).*1.
Proof.
  intros Hnd. unfold Opa.od_move_to_end. destruct (Opa.od_get k d) as [v|]; [|exact Hnd].
  rewrite fmap_app. apply NoDup_app. split; [apply od_del_NoDup, Hnd|]. split.
  - intros x Hx [->|[]%not_elem_of_nil]%elem_of_cons.
    revert Hx. apply od_get_None. apply od_get_del.
  - apply NoDup_singleton.
Qed.

Lemma od_move_to_end_length k d :
  (length (Opa.od_move_to_end k d) <= length d)%nat.
Proof.
  unfold Opa.od_move_to_end. destruct (Opa.od_get k d) as [v|] eqn:Hget; [|lia].
  rewrite length_app. cbn. pose proof (od_del_length_present k d v Hget). lia.
Qed.

Lemma od_move_to_end_get k k' d :
  Opa.od_get k' (Opa.od_move_to_end k d) = Opa.od_get k' d.
Proof.
  unfold Opa.od_move_to_end. destruct (Opa.od_get k d) as [v|] eqn:Hget; [|reflexivity].
  rewrite od_get_app. destruct (String.eqb_spec k' k) as [->|Hne].
  - rewrite od_get_del, od_get_cons, String.eqb_refl. auto.
  - rewrite od_get_del_ne by exact Hne.
    destruct (Opa.od_get k' d); [reflexivity|].
    rewrite od_get_cons. destruct (String.eqb_spec k' k); [contradiction|reflexivity].
Qed.

(** The entry just moved to the end survives the eviction of the first
    entry unless it is the only one. *)
Lemma od_popfirst_keeps_last k (v : V) d :
  Opa.od_get k d = None -> d <> [] ->
  Opa.od_get k (Opa.od_popfirst (d ++ [(k, v)])) = Some v.
Proof.
  destruct d as [|[k0 v0] d]; [congruence|]. intros Hget _.
  unfold Opa.od_popfirst. cbn [app tl].
  rewrite od_get_cons in Hget. destruct (String.eqb k k0); [discriminate|].
  rewrite od_get_app, Hget, od_get_cons, String.eqb_refl. reflexivity.
Qed.
End OrderedDictFacts.

Ltac run_cache :=
  unfold Opa.cache_get, Opa.cache_put, Opa.set_cache,
    on_fst, on_snd, get, modify, read_clock, mbind, M_bind, bind, mret, M_ret, ret;
  cbn.

Section CacheFacts.
Variable env : Env Opa.AuthzDecision.
Variable uuid4 : nat -> string.
Variable sha256_hexdigest : string -> string.
Variable str_sorted_items : list (string * JSON) -> string.

Abbreviation cache_key := (Opa._make_key sha256_hexdigest str_sorted_items).
Abbreviation cache_get := (Opa.cache_get env sha256_hexdigest str_sorted_items).
Abbreviation cache_put := (Opa.cache_put env sha256_hexdigest str_sorted_items).
Abbreviation opa_check := (Opa.check env uuid4 sha256_hexdigest str_sorted_items).

(** What [put] leaves in the cache. *)
Lemma cache_put_result caller res act ctx d c w :
  cache_put caller res act ctx d (c, w) =
  (tt,
   (Opa.mkCache (Opa.max_size c) (Opa.ttl_seconds c)
      (let l := Opa.od_move_to_end (cache_key caller res act ctx)
                  (Opa.od_set (cache_key caller res act ctx)
                              (d, clock env (clock_reads w)) (Opa._cache c)) in
       if Opa.max_size c <? Z.of_nat (length l) then Opa.od_popfirst l else l),
    mkWorld (invoked w) (Datatypes.S (clock_reads w)) (draws w) (slept w))).
Proof. run_cache. reflexivity. Qed.

Lemma cache_put_entry caller res act ctx d c w :
  1 <= Opa.max_size c ->
  Opa.od_get (cache_key caller res act ctx)
             (Opa._cache (fst (snd (cache_put caller res act ctx d (c, w)))))
  = Some (d, clock env (clock_reads w)).
Proof.
  intros Hmax. rewrite cache_put_result. cbn [fst snd Opa._cache].
  set (k := cache_key caller res act ctx).
  set (e := (d, clock env (clock_reads w))).
  pose proof (od_set_get k e (Opa._cache c)) as Hset.
  destruct (Opa.max_size c <? Z.of_nat _) eqn:Hfull.
  - unfold Opa.od_move_to_end in *. rewrite Hset in *.
    apply od_popfirst_keeps_last; [apply od_get_del|].
    intros Hnil. rewrite Hnil in Hfull. cbn in Hfull.
    apply Z.ltb_lt in Hfull. lia.
  - rewrite od_move_to_end_get. exact Hset.
Qed.

(** A lookup that finds a fresh entry returns it and moves it to the end. *)
Lemma cache_get_fresh caller res act ctx c w d stamp :
  Opa.od_get (cache_key caller res act ctx) (Opa._cache c) = Some (d, stamp) ->
  clock env (clock_reads w) - stamp <= Opa.ttl_seconds c ->
  cache_get caller res act ctx (c, w) =
  (Some d,
   (Opa.mkCache (Opa.max_size c) (Opa.ttl_seconds c)
      (Opa.od_move_to_end (cache_key caller res act ctx) (Opa._cache c)),
    mkWorld (invoked w) (Datatypes.S (clock_reads w)) (draws w) (slept w))).
Proof.
  intros Hget Hfresh. run_cache. rewrite Hget. cbn.
  destruct (Z.ltb_spec (Opa.ttl_seconds c) (clock env (clock_reads w) - stamp)); [lia|].
  reflexivity.
Qed.

(** X12.  A decision put into the cache is what [get] returns for the same
    caller, resource, action and context as long as no more than
    [ttl_seconds] have passed, provided the cache holds at least one
    entry; the lookup reads the clock once and calls nothing. *)
Theorem cache_put_then_get caller res act ctx d c w w2 :
  1 <= Opa.max_size c ->
  clock env (clock_reads w2) - clock env (clock_reads w) <= Opa.ttl_seconds c ->
  exists c2,
    cache_get caller res act ctx
      (fst (snd (cache_put caller res act ctx d (c, w))), w2)
    = (Some d, (c2, mkWorld (invoked w2) (Datatypes.S (clock_reads w2)) (draws w2) (slept w2))).
Proof.
  intros Hmax Hfresh.
  pose proof (cache_put_entry caller res act ctx d c w Hmax) as Hentry.
  eexists. apply (cache_get_fresh _ _ _ _ _ _ _ _ Hentry).
  rewrite cache_put_result. exact Hfresh.
Qed.

(** X13.  An entry older than [ttl_seconds] is not returned: the lookup
    deletes it and misses, and the entries under other keys stay. *)
Theorem cache_get_drops_expired caller res act ctx c w d stamp :
  Opa.od_get (cache_key caller res act ctx) (Opa._cache c) = Some (d, stamp) ->
  Opa.ttl_seconds c < clock env (clock_reads w) - stamp ->
  exists c1 w1,
    cache_get caller res act ctx (c, w) = (None, (c1, w1)) /\
    Opa.od_get (cache_key caller res act ctx) (Opa._cache c1) = None /\
    (forall k, k <> cache_key caller res act ctx ->
       Opa.od_get k (Opa._cache c1) = Opa.od_get k (Opa._cache c)).
Proof.
  intros Hget Hold. run_cache. rewrite Hget. cbn.
  destruct (Z.ltb_spec (Opa.ttl_seconds c) (clock env (clock_reads w) - stamp)); [|lia].
  cbn. eexists _, _. split; [reflexivity|]. cbn. split; [apply od_get_del|].
  intros k Hne. apply od_get_del_ne. exact Hne.
Qed.

(** X14.  The cache never grows beyond [max_size] and never holds a key
    twice: both [put] and [get] keep these two facts. *)
Theorem cache_stays_within_max_size caller res act ctx d c w :
  NoDup (Opa._cache c).*1 ->
  Z.of_nat (length (Opa._cache c)) <= Opa.max_size c ->
  let c1 := fst (snd (cache_put caller res act ctx d (c, w))) in
  let c2 := fst (snd (cache_get caller res act ctx (c, w))) in
  (NoDup (Opa._cache c1).*1 /\
   Z.of_nat (length (Opa._cache c1)) <= Opa.max_size c1 /\
   Opa.max_size c1 = Opa.max_size c) /\
  (NoDup (Opa._cache c2).*1 /\
   Z.of_nat (length (Opa._cache c2)) <= Opa.max_size c2 /\
   Opa.max_size c2 = Opa.max_size c).
Proof.
  intros Hnd Hlen. split.
  - rewrite cache_put_result. cbn [fst snd Opa._cache Opa.max_size].
    set (k := cache_key caller res act ctx).
    set (e := (d, clock env (clock_reads w))).
    set (l := Opa.od_move_to_end k (Opa.od_set k e (Opa._cache c))).
    assert (Hl : NoDup l.*1) by apply od_move_to_end_NoDup, od_set_NoDup, Hnd.
    assert (Hll : (length l <= Datatypes.S (length (Opa._cache c)))%nat).
    { subst l. etransitivity; [apply od_move_to_end_length|].
      rewrite od_set_length. destruct (Opa.od_get k (Opa._cache c)); lia. }
    destruct (Z.ltb_spec (Opa.max_size c) (Z.of_nat (length l))) as [Hfull|Hfit].
    + split; [|split; [|reflexivity]].
      * destruct l as [|x l]; cbn in *; [exact Hl|].
        apply NoDup_cons in Hl as [_ Hl]. exact Hl.
      * unfold Opa.od_popfirst. destruct l as [|x l]; cbn in *; lia.
    + split; [exact Hl|]. split; [exact Hfit|reflexivity].
  - unfold Opa.cache_get.
    unfold Opa.set_cache,
      on_fst, on_snd, get, modify, read_clock, mbind, M_bind, bind, mret, M_ret, ret.
    cbn [fst snd].
    destruct (Opa.od_get (cache_key caller res act ctx) (Opa._cache c))
      as [[d0 stamp]|] eqn:Hget; cbn; [|auto].
    destruct (Opa.ttl_seconds c <? clock env (clock_reads w) - stamp); cbn.
    + split; [apply od_del_NoDup, Hnd|]. split; [|reflexivity].
      pose proof (od_del_length (cache_key caller res act ctx) (Opa._cache c)). lia.
    + split; [apply od_move_to_end_NoDup, Hnd|]. split; [|reflexivity].
      pose proof (od_move_to_end_length (cache_key caller res act ctx) (Opa._cache c)). lia.
Qed.

(** X15.  Eviction is by least recent use.  When the cache is full, putting a
    decision under a new key drops the first entry; if that entry was
    read just before, and was still fresh, it has moved to the end and
    the second entry is dropped instead. *)
Theorem cache_evicts_least_recently_used
    caller0 res0 act0 ctx0 d0 s0 k1 e1 rest caller res act ctx d c w :
  Opa._cache c = (cache_key caller0 res0 act0 ctx0, (d0, s0)) :: (k1, e1) :: rest ->
  NoDup (Opa._cache c).*1 ->
  Z.of_nat (length (Opa._cache c)) = Opa.max_size c ->
  Opa.od_get (cache_key caller res act ctx) (Opa._cache c) = None ->
  clock env (clock_reads w) - s0 <= Opa.ttl_seconds c ->
  Opa._cache (fst (snd (cache_put caller res act ctx d (c, w))))
  = (k1, e1) :: rest ++ [(cache_key caller res act ctx, (d, clock env (clock_reads w)))] /\
  let '(hit, (c1, w1)) := cache_get caller0 res0 act0 ctx0 (c, w) in
  hit = Some d0 /\
  Opa._cache (fst (snd (cache_put caller res act ctx d (c1, w1))))
  = rest ++ [(cache_key caller0 res0 act0 ctx0, (d0, s0));
             (cache_key caller res act ctx, (d, clock env (clock_reads w1)))].
Proof.
  destruct c as [ms ttl l]. cbn [Opa._cache Opa.max_size Opa.ttl_seconds].
  intros -> Hnd Hlen Hnew Hfresh.
  set (k0 := cache_key caller0 res0 act0 ctx0) in *.
  set (k := cache_key caller res act ctx) in *.
  set (l := (k0, (d0, s0)) :: (k1, e1) :: rest) in *.
  assert (Hk0 : Opa.od_get k0 ((k1, e1) :: rest) = None).
  { apply od_get_None. subst l. cbn [fmap list_fmap fst] in Hnd.
    apply NoDup_cons in Hnd as [Hk0 _]. exact Hk0. }
  assert (Hput : forall (l' : list (string * (Opa.AuthzDecision * Z))) x l'' e,
            l' = x :: l'' -> length l' = length l -> Opa.od_get k l' = None ->
            (let l1 := Opa.od_move_to_end k (Opa.od_set k e l') in
             if ms <? Z.of_nat (length l1) then Opa.od_popfirst l1 else l1)
            = l'' ++ [(k, e)]).
  { intros l' x l'' e -> Hlen' Hnone. cbn zeta.
    unfold Opa.od_set. rewrite Hnone. unfold Opa.od_move_to_end.
    rewrite od_get_app, Hnone, od_get_cons, String.eqb_refl.
    rewrite od_del_app, od_del_cons, String.eqb_refl, app_nil_r.
    rewrite od_del_absent by exact Hnone.
    rewrite length_app. cbn [length] in *.
    destruct (Z.ltb_spec ms (Z.of_nat (Datatypes.S (length l'') + 1))); [|lia].
    reflexivity. }
  split.
  - rewrite cache_put_result. cbn [fst snd Opa._cache Opa.max_size]. fold k.
    exact (Hput l (k0, (d0, s0)) ((k1, e1) :: rest) _ eq_refl eq_refl Hnew).
  - rewrite (cache_get_fresh caller0 res0 act0 ctx0 _ w d0 s0);
      [|unfold l; cbn [Opa._cache]; fold k0; rewrite od_get_cons, String.eqb_refl;
        reflexivity
       |exact Hfresh].
    split; [reflexivity|]. cbn [Opa._cache Opa.max_size Opa.ttl_seconds]. fold k0.
    rewrite cache_put_result. cbn [fst snd Opa._cache Opa.max_size clock_reads]. fold k.
    assert (Hmoved : Opa.od_move_to_end k0 l = (k1, e1) :: rest ++ [(k0, (d0, s0))]).
    { unfold Opa.od_move_to_end, l. rewrite od_get_cons, String.eqb_refl.
      rewrite od_del_cons, String.eqb_refl, od_del_absent by exact Hk0. reflexivity. }
    rewrite Hmoved.
    etransitivity;
      [refine (Hput _ (k1, e1) (rest ++ [(k0, (d0, s0))]) _ eq_refl _ _)|].
    + subst l. cbn [length]. rewrite length_app. cbn [length]. lia.
    + rewrite <- Hmoved, od_move_to_end_get. exact Hnew.
    + rewrite <- app_assoc. reflexivity.
Qed.

(** A successful call through a breaker that is not open: the query ran
    once and the clock was not read. *)
Lemma opa_call_success b w d :
  Opa.state b <> Opa.OPEN ->
  func env (invoked w) = Returned d ->
  exists b',
    Opa.call env (b, w)
    = (Returned d, (b', mkWorld (Datatypes.S (invoked w)) (clock_reads w) (draws w) (slept w))).
Proof.
  intros Hst Hd. destruct b. cbn in Hst.
  unfold Opa.call, Opa.guard_call, Opa._on_success, Opa._on_failure,
    on_fst, on_snd, get, modify, read_clock, call_func,
    mbind, M_bind, bind, mret, M_ret, ret. cbn.
  destruct state; [|congruence|]; cbn; rewrite Hd; cbn; eexists; reflexivity.
Qed.

(** X16.  A decision obtained from the policy engine is cached and audited;
    the same check repeated within [ttl_seconds] is answered from the
    cache with the very same decision, without a call to the engine and
    without a second audit record: only a debug line is logged. *)
Theorem cached_decision_is_served_unaudited caller res act ctx p w d w2 :
  Opa.od_get (cache_key caller res act ctx) (Opa._cache (Opa.cache p)) = None ->
  Opa.state (Opa._circuit_breaker p) <> Opa.OPEN ->
  func env (invoked w) = Returned d ->
  1 <= Opa.max_size (Opa.cache p) ->
  clock env (clock_reads w2) - clock env (Datatypes.S (clock_reads w))
    <= Opa.ttl_seconds (Opa.cache p) ->
  exists p1 w1 p2 line,
    opa_check caller res act ctx (p, w) = (d, (p1, w1)) /\
    Opa.logged p1 = Opa.logged p ++ [Opa.AUTHZ caller res act d] /\
    invoked w1 = Datatypes.S (invoked w) /\
    opa_check caller res act ctx (p1, w2)
    = (d, (p2, mkWorld (invoked w2) (Datatypes.S (clock_reads w2)) (draws w2) (slept w2))) /\
    Opa.logged p2 = Opa.logged p1 ++ [Opa.log_debug line].
Proof.
  intros Hmiss Hst Hd Hmax Hfresh.
  assert (Hget : Opa.with_cache (cache_get caller res act ctx) (p, w) = (None, (p, w))).
  { unfold Opa.with_cache. cbn [fst snd].
    rewrite (cache_get_absent env sha256_hexdigest str_sorted_items _ _ _ _ _ _ Hmiss).
    destruct p; reflexivity. }
  set (wi := mkWorld (invoked w) (Datatypes.S (clock_reads w)) (draws w) (slept w)).
  destruct (opa_call_success (Opa._circuit_breaker p) wi d Hst Hd) as [b' Hcall].
  assert (Hbr : Opa.with_breaker (Opa.call env) (p, wi)
                = (Returned d,
                   (Opa.mkProvider (Opa.default_deny p) (Opa.cache p) b'
                                   (Opa.uuids p) (Opa.logged p),
                    mkWorld (Datatypes.S (invoked w)) (Datatypes.S (clock_reads w))
                            (draws w) (slept w)))).
  { unfold Opa.with_breaker. cbn [fst snd]. rewrite Hcall. reflexivity. }
  destruct (check_success_path env uuid4 sha256_hexdigest str_sorted_items
              _ _ _ _ _ _ _ _ _ _ _ Hget Hbr) as (c3 & w3 & Hput & Hcheck).
  rewrite cache_put_result in Hput. injection Hput as <- <-.
  pose proof (cache_put_entry caller res act ctx d (Opa.cache p)
                (mkWorld (Datatypes.S (invoked w)) (Datatypes.S (clock_reads w))
                         (draws w) (slept w)) Hmax) as Hentry.
  pose proof (cache_get_fresh caller res act ctx _ w2 d _ Hentry) as Hlookup.
  rewrite cache_put_result in Hlookup. cbn [fst snd Opa.ttl_seconds] in Hlookup.
  specialize (Hlookup Hfresh).
  match type of Hlookup with _ = (_, (?c, _)) => set (c4 := c) in * end.
  match type of Hcheck with _ = (_, (?p1, ?w1)) =>
    assert (Hget2 : Opa.with_cache (cache_get caller res act ctx) (p1, w2)
                    = (Some d,
                       (Opa.mkProvider (Opa.default_deny p1) c4 (Opa._circuit_breaker p1)
                                       (Opa.uuids p1) (Opa.logged p1),
                        mkWorld (invoked w2) (Datatypes.S (clock_reads w2))
                                (draws w2) (slept w2))))
  end.
  { unfold Opa.with_cache. cbn [fst snd Opa.cache]. cbn [clock_reads] in Hlookup.
    rewrite Hlookup. reflexivity. }
  destruct (check_hit env uuid4 sha256_hexdigest str_sorted_items
              _ _ _ _ _ _ _ _ _ Hget2) as [line Hcheck2].
  eexists _, _, _, line. split; [exact Hcheck|]. split; [reflexivity|].
  split; [reflexivity|]. split; [exact Hcheck2|]. reflexivity.
Qed.
End CacheFacts.

(** ** More on the retry policy *)


Section RetryMore.
Context {T : Type} (env : Env T) (c : Retry.RetryConfig).


End RetryMore.



(** ** The connection pool *)

Section DictFacts.
Context {V : Type}.
Implicit Types (k : string) (d : list (string * V)).

Lemma od_get_Some_elem k d v : Opa.od_get k d = Some v -> (k, v) ∈ d.
Proof.
  induction d as [|[k' v'] d IH]; [discriminate|].
  rewrite od_get_cons. destruct (String.eqb_spec k k') as [->|_].
  - intros [= ->]. left.
  - intros H. right. auto.
Qed.

Lemma od_get_elem k d v : NoDup d.*1 -> (k, v) ∈ d -> Opa.od_get k d = Some v.
Proof.
  induction d as [|[k' v'] d IH]; [intros _ []%not_elem_of_nil|].
  cbn [fmap list_fmap fst]. intros [Hk Hnd]%NoDup_cons [Heq|Hin]%elem_of_cons.
  - injection Heq as -> ->. rewrite od_get_cons, String.eqb_refl. reflexivity.
  - rewrite od_get_cons. destruct (String.eqb_spec k k') as [->|_]; [|auto].
    exfalso. apply Hk. apply list_elem_of_fmap. exists (k', v). auto.
Qed.

Lemma od_get_split k d v :
  Opa.od_get k d = Some v ->
  exists pre post, d = pre ++ (k, v) :: post /\ Opa.od_get k pre = None.
Proof.
  induction d as [|[k' v'] d IH]; [discriminate|].
  rewrite od_get_cons. destruct (String.eqb_spec k k') as [->|Hne].
  - intros [= ->]. exists [], d. auto.
  - intros (pre & post & -> & Hpre)%IH. exists ((k', v') :: pre), post.
    split; [reflexivity|]. rewrite od_get_cons.
    destruct (String.eqb_spec k k'); [contradiction|exact Hpre].
Qed.

Lemma od_set_absent_map k (v : V) d :
  k ∉ d.*1 -> List.map (fun kv => if String.eqb k (fst kv) then (k, v) else kv) d = d.
Proof.
  induction d as [|[k' v'] d IH]; [reflexivity|].
  cbn [fmap list_fmap fst List.map]. intros [Hne Hd]%not_elem_of_cons.
  destruct (String.eqb_spec k k'); [contradiction|]. rewrite IH by exact Hd. reflexivity.
Qed.

Lemma od_set_split k (v v' : V) pre post :
  NoDup (pre ++ (k, v) :: post).*1 ->
  Opa.od_set k v' (pre ++ (k, v) :: post) = pre ++ (k, v') :: post.
Proof.
  intros Hnd. rewrite fmap_app in Hnd. cbn [fmap list_fmap fst] in Hnd.
  apply NoDup_app in Hnd as (_ & Hpre & Hpost).
  assert (Hk : k ∉ pre.*1).
  { intros Hin. apply (Hpre k Hin). left. }
  apply NoDup_cons in Hpost as [Hpost _].
  unfold Opa.od_set. rewrite od_get_app.
  replace (Opa.od_get k pre) with (@None V) by (symmetry; apply od_get_None, Hk).
  rewrite od_get_cons, String.eqb_refl.
  rewrite List.map_app. cbn [List.map fst]. rewrite String.eqb_refl.
  rewrite !od_set_absent_map by assumption. reflexivity.
Qed.
End DictFacts.

Section PoolFacts.
Context {T : Type} (env : Env T) (str_int : Z -> string).

Lemma handles_app (d1 d2 : list (string * list nat)) :
  concat (map snd (d1 ++ d2)) = concat (map snd d1) ++ concat (map snd d2).
Proof. rewrite map_app, concat_app. reflexivity. Qed.

Lemma elem_of_handles (d : list (string * list nat)) h :
  h ∈ concat (map snd d) <-> exists t l, (t, l) ∈ d /\ h ∈ l.
Proof.
  induction d as [|[t l] d IH]; cbn.
  - split; [intros []%not_elem_of_nil|intros (? & ? & []%not_elem_of_nil & _)].
  - rewrite elem_of_app, IH. split.
    + intros [Hl|(t' & l' & Hin & Hh)].
      * exists t, l. split; [left|exact Hl].
      * exists t', l'. split; [right; exact Hin|exact Hh].
    + intros (t' & l' & [Heq|Hin]%elem_of_cons & Hh).
      * injection Heq as -> ->. left. exact Hh.
      * right. eauto.
Qed.

(** A handle in a consistent pool is allocated. *)
Lemma handle_allocated p h :
  Pool.consistent p -> h ∈ Pool.handles p -> (h < length (Pool.objects p))%nat.
Proof.
  intros Hc (t & l & Hin & Hh)%elem_of_handles.
  destruct (Pool.handles_filed p Hc t l h Hin Hh) as (c & Hlook & _).
  apply lookup_lt_Some in Hlook. exact Hlook.
Qed.

(** Changing connections in place, without touching where they lead,
    keeps the bookkeeping sound. *)
Lemma consistent_objects p objs cfg tc acq cre cln :
  Pool.consistent p ->
  (forall h c, Pool.objects p !! h = Some c ->
     exists c', objs !! h = Some c' /\ Pool.target_id c' = Pool.target_id c /\
                Channel._peer_spiffe_id (Pool.channel c')
                  = Channel._peer_spiffe_id (Pool.channel c)) ->
  Pool.consistent (Pool.mkPool cfg tc objs (Pool._pools p) (Pool._total_connections p)
                               acq cre cln).
Proof.
  intros [H1 H2 H3 H4] Hobjs. constructor; cbn; try assumption.
  intros t l h Hin Hh. destruct (H3 t l h Hin Hh) as (c & Hlook & Ht & Hp).
  destruct (Hobjs h c Hlook) as (c' & Hl' & Ht' & Hc').
  exists c'. split; [exact Hl'|]. split; congruence.
Qed.

Lemma alter_keeps (f : Pool.PooledConnection -> Pool.PooledConnection)
    (objs : list Pool.PooledConnection) (i : nat) :
  (forall c, Pool.target_id (f c) = Pool.target_id c /\
             Channel._peer_spiffe_id (Pool.channel (f c))
               = Channel._peer_spiffe_id (Pool.channel c)) ->
  forall h c, objs !! h = Some c ->
    exists c', alter f i objs !! h = Some c' /\ Pool.target_id c' = Pool.target_id c /\
               Channel._peer_spiffe_id (Pool.channel c')
                 = Channel._peer_spiffe_id (Pool.channel c).
Proof.
  intros Hf h c Hlook. destruct (decide (h = i)) as [->|Hne].
  - exists (f c). rewrite list_lookup_alter_eq, Hlook. split; [reflexivity|apply Hf].
  - exists c. rewrite list_lookup_alter_ne by congruence. auto.
Qed.

Lemma close_keeps_peer ch :
  Channel._peer_spiffe_id (ChannelOps.close ch) = Channel._peer_spiffe_id ch.
Proof. unfold ChannelOps.close. destruct (Channel._client ch); reflexivity. Qed.

Lemma close_all_keeps removed : forall (objs : list Pool.PooledConnection) (h : nat) c,
  objs !! h = Some c ->
  exists c', foldl (fun o h => alter Pool.close_channel h o) objs removed !! h = Some c' /\
             Pool.target_id c' = Pool.target_id c /\
             Channel._peer_spiffe_id (Pool.channel c')
               = Channel._peer_spiffe_id (Pool.channel c) /\
             Pool.in_use c' = Pool.in_use c.
Proof.
  induction removed as [|x removed IH]; intros objs h c Hlook; cbn.
  - exists c. auto.
  - destruct (decide (h = x)) as [->|Hne].
    + destruct (IH (alter Pool.close_channel x objs) x (Pool.close_channel c))
        as (c' & Hl & Ht & Hp & Hu).
      { rewrite list_lookup_alter_eq, Hlook. reflexivity. }
      exists c'. split; [exact Hl|]. cbn in *. rewrite close_keeps_peer in Hp. auto.
    + apply IH. rewrite list_lookup_alter_ne by congruence. exact Hlook.
Qed.

Lemma touch_get target (d : list (string * list nat)) :
  exists l, Opa.od_get target (Pool.touch target d) = Some l /\
            l = default [] (Opa.od_get target d).
Proof.
  unfold Pool.touch. destruct (Opa.od_get target d) as [l|] eqn:Hget.
  - exists l. rewrite Hget. auto.
  - exists []. rewrite od_get_app, Hget, od_get_cons, String.eqb_refl. auto.
Qed.

Lemma pool_of_touch p target :
  Pool.pool_of (Pool.set_pools (Pool.touch target (Pool._pools p)) p) target
  = Pool.pool_of p target.
Proof.
  unfold Pool.pool_of, Pool.set_pools. cbn [Pool._pools].
  destruct (touch_get target (Pool._pools p)) as (l & -> & ->). reflexivity.
Qed.

(** The three ways [acquire] can go for a well-formed target. *)
Lemma acquire_cases target p w :
  startswith target "spiffe://" = true ->
  let now := clock env (clock_reads w) in
  let w1 := mkWorld (invoked w) (Datatypes.S (clock_reads w)) (draws w) (slept w) in
  let w2 := mkWorld (invoked w) (Datatypes.S (Datatypes.S (clock_reads w)))
                    (draws w) (slept w) in
  let cfg := Pool._config p in
  let pool := Pool.pool_of p target in
  Pool.acquire env str_int target (p, w) =
  match Pool.first_free (Pool.objects p) pool with
  | Some h =>
      (Returned h,
       (Pool.mkPool cfg (Pool._transport_config p)
          (alter (fun c => Pool.used_at now (Pool.set_in_use true c)) h (Pool.objects p))
          (Pool._pools p) (Pool._total_connections p) (Pool._total_acquisitions p + 1)
          (Pool._total_creations p) (Pool._total_cleanups p), w1))
  | None =>
      let p2 := Pool.mkPool cfg (Pool._transport_config p) (Pool.objects p)
                  (Pool.touch target (Pool._pools p)) (Pool._total_connections p)
                  (Pool._total_acquisitions p + 1) (Pool._total_creations p)
                  (Pool._total_cleanups p) in
      if Pool.max_connections_per_target cfg <=? Z.of_nat (length pool)
      then (Raised (Pool.PoolExhaustedError str_int target
                      (Pool.max_connections_per_target cfg)), (p2, w))
      else if Pool.max_total_connections cfg <=? Pool._total_connections p
      then (Raised (Pool.PoolExhaustedError str_int target
                      (Pool.max_total_connections cfg)), (p2, w))
      else
        let h := length (Pool.objects p) in
        let connection :=
          Pool.mkConn (Channel.mkChannel target (Pool._transport_config p) None None)
                      target now (clock env (Datatypes.S (clock_reads w))) true
                      "unknown" 0 in
        (Returned h,
         (Pool.mkPool cfg (Pool._transport_config p) (Pool.objects p ++ [connection])
            (Opa.od_set target (pool ++ [h]) (Pool.touch target (Pool._pools p)))
            (Pool._total_connections p + 1) (Pool._total_acquisitions p + 1)
            (Pool._total_creations p + 1) (Pool._total_cleanups p), w2))
  end.
Proof.
  intros Hsp. cbn zeta. unfold Pool.acquire. rewrite Hsp. cbn [negb].
  unfold Pool._get_available_connection.
  change (Pool.pool_of (Pool.mkPool _ _ _ _ _ _ _ _) target) with (Pool.pool_of p target).
  cbn [Pool.objects].
  destruct (Pool.first_free (Pool.objects p) (Pool.pool_of p target)) as [h|]; [reflexivity|].
  match goal with |- context [Pool.pool_of (Pool.set_pools ?d ?q) target] =>
    replace (Pool.pool_of (Pool.set_pools d q) target) with (Pool.pool_of p target)
      by (symmetry; apply (pool_of_touch (Pool.mkPool (Pool._config p)
            (Pool._transport_config p) (Pool.objects p) (Pool._pools p)
            (Pool._total_connections p) (Pool._total_acquisitions p + 1)
            (Pool._total_creations p) (Pool._total_cleanups p)))) end.
  cbn [Pool.set_pools Pool._config Pool._total_connections Pool._transport_config
       Pool.objects Pool._pools Pool._total_acquisitions Pool._total_creations
       Pool._total_cleanups].
  destruct (Pool.max_connections_per_target (Pool._config p) <=? _); [reflexivity|].
  destruct (Pool.max_total_connections (Pool._config p) <=? _); [reflexivity|].
  unfold Pool._create_connection, Channel.new_channel. rewrite Hsp. cbn [negb].
  unfold read_clock. cbn.
  unfold Pool.set_objects, Pool.set_pools. cbn. f_equal. f_equal. f_equal.
  rewrite alter_app_r_alt by reflexivity. rewrite Nat.sub_diag. reflexivity.
Qed.

Lemma consistent_same p p' :
  Pool.consistent p ->
  Pool.objects p' = Pool.objects p -> Pool._pools p' = Pool._pools p ->
  Pool._total_connections p' = Pool._total_connections p ->
  Pool.consistent p'.
Proof.
  intros [H1 H2 H3 H4] Ho Hp Ht. unfold Pool.handles in *.
  constructor; unfold Pool.handles; rewrite ?Ho, ?Hp, ?Ht; assumption.
Qed.

Lemma touch_consistent p target cfg tc acq cre cln :
  Pool.consistent p ->
  Pool.consistent (Pool.mkPool cfg tc (Pool.objects p) (Pool.touch target (Pool._pools p))
                               (Pool._total_connections p) acq cre cln).
Proof.
  intros Hc. unfold Pool.touch.
  destruct (Opa.od_get target (Pool._pools p)) eqn:Hget.
  - apply (consistent_same p); auto.
  - destruct Hc as [H1 H2 H3 H4]. unfold Pool.handles in *. constructor; cbn.
    + rewrite fmap_app. apply NoDup_app. split; [exact H1|]. split.
      * intros x Hx [->|[]%not_elem_of_nil]%elem_of_cons.
        apply od_get_None in Hget. contradiction.
      * apply NoDup_singleton.
    + unfold Pool.handles. cbn. rewrite handles_app. cbn. rewrite app_nil_r. exact H2.
    + intros t l h [Hin|Hin]%elem_of_app Hh; [eauto|].
      apply list_elem_of_singleton in Hin. injection Hin as -> ->.
      apply not_elem_of_nil in Hh. contradiction.
    + unfold Pool.handles. cbn. rewrite handles_app. cbn. rewrite app_nil_r. exact H4.
Qed.

Lemma touch_within_limits p target cfg tc objs acq cre cln :
  0 <= Pool.max_connections_per_target cfg ->
  cfg = Pool._config p ->
  Pool.within_limits p ->
  Pool.within_limits (Pool.mkPool cfg tc objs (Pool.touch target (Pool._pools p))
                                  (Pool._total_connections p) acq cre cln).
Proof.
  intros Hmax -> [Hper Htot]. split; cbn; [|exact Htot].
  unfold Pool.touch. destruct (Opa.od_get target (Pool._pools p)); [exact Hper|].
  intros t l [Hin|Hin]%elem_of_app; [eauto|].
  apply list_elem_of_singleton in Hin. injection Hin as -> ->. cbn. lia.
Qed.

(** Filing a fresh handle under a target that has an entry. *)
Lemma file_handle (d : list (string * list nat)) target pool h :
  NoDup d.*1 ->
  Opa.od_get target d = Some pool ->
  concat (map snd (Opa.od_set target (pool ++ [h]) d)) ≡ₚ h :: concat (map snd d) /\
  (Opa.od_set target (pool ++ [h]) d).*1 = d.*1 /\
  (forall t l, (t, l) ∈ Opa.od_set target (pool ++ [h]) d ->
     (t = target /\ l = pool ++ [h]) \/ ((t, l) ∈ d /\ t <> target)).
Proof.
  intros Hnd Hget. destruct (od_get_split _ _ _ Hget) as (pre & post & -> & Hpre).
  rewrite (od_set_split target pool (pool ++ [h]) pre post Hnd).
  split; [|split].
  - rewrite !handles_app. cbn. rewrite <- !app_assoc. cbn.
    rewrite !app_assoc. symmetry. apply Permutation_middle.
  - rewrite !fmap_app. reflexivity.
  - intros t l [Hin|[Heq|Hin]%elem_of_cons]%elem_of_app.
    + right. split; [apply elem_of_app; auto|].
      intros ->. apply od_get_None in Hpre. apply Hpre.
      apply list_elem_of_fmap. exists (target, l). auto.
    + left. injection Heq as -> ->. auto.
    + right. split; [apply elem_of_app; right; right; exact Hin|].
      intros ->. rewrite fmap_app in Hnd. apply NoDup_app in Hnd as (_ & _ & Hpost).
      cbn in Hpost. apply NoDup_cons in Hpost as [Hpost _]. apply Hpost.
      apply list_elem_of_fmap. exists (target, l). auto.
Qed.

Lemma within_limits_same p p' :
  Pool.within_limits p ->
  Pool._pools p' = Pool._pools p -> Pool._config p' = Pool._config p ->
  Pool._total_connections p' = Pool._total_connections p ->
  Pool.within_limits p'.
Proof. unfold Pool.within_limits. intros H -> -> ->. exact H. Qed.

Lemma acquire_keeps target p w :
  0 <= Pool.max_connections_per_target (Pool._config p) ->
  Pool.consistent p -> Pool.within_limits p ->
  let p' := fst (snd (Pool.acquire env str_int target (p, w))) in
  Pool.consistent p' /\ Pool.within_limits p' /\ Pool._config p' = Pool._config p.
Proof.
  intros Hmax Hc Hl. cbn zeta.
  destruct (startswith target "spiffe://") eqn:Hsp.
  2:{ unfold Pool.acquire. rewrite Hsp. cbn. auto. }
  rewrite (acquire_cases target p w Hsp). cbn zeta.
  destruct (Pool.first_free (Pool.objects p) (Pool.pool_of p target)) as [h|] eqn:Hfree.
  - cbn [fst snd]. split; [|split; [|reflexivity]].
    + apply consistent_objects; [exact Hc|]. apply alter_keeps. intros c. split; reflexivity.
    + apply (within_limits_same p); auto.
  - destruct (Z.leb_spec (Pool.max_connections_per_target (Pool._config p))
                (Z.of_nat (length (Pool.pool_of p target)))) as [Hfull|Hroom];
      [cbn [fst snd]; split; [apply touch_consistent, Hc|];
       split; [apply touch_within_limits; auto|reflexivity]|].
    destruct (Z.leb_spec (Pool.max_total_connections (Pool._config p))
                (Pool._total_connections p)) as [Hfull|Hroom'];
      [cbn [fst snd]; split; [apply touch_consistent, Hc|];
       split; [apply touch_within_limits; auto|reflexivity]|].
    cbn [fst snd].
    pose proof (touch_consistent p target (Pool._config p) (Pool._transport_config p)
                  0 0 0 Hc) as [K1 K2 K3 K4].
    unfold Pool.handles in *. cbn [Pool._pools Pool.objects Pool._total_connections] in *.
    destruct (touch_get target (Pool._pools p)) as (pool & Hget & Hpool).
    fold (Pool.pool_of p target) in Hpool. subst pool.
    destruct (file_handle _ target _ (length (Pool.objects p)) K1 Hget)
      as (Hperm & Hkeys & Helem).
    assert (Hfresh : length (Pool.objects p) ∉ concat (map snd (Pool.touch target (Pool._pools p)))).
    { intros (t & l & Hin & Hh)%elem_of_handles.
      destruct (K3 t l _ Hin Hh) as (c & Hlook & _).
      apply lookup_lt_Some in Hlook. lia. }
    split; [|split; [|reflexivity]].
    + constructor; unfold Pool.handles; cbn [Pool._pools Pool.objects Pool._total_connections].
      * rewrite Hkeys. exact K1.
      * rewrite Hperm. apply NoDup_cons. auto.
      * intros t l h Hin Hh. apply Helem in Hin as [[-> ->]|[Hin Hne]].
        -- apply elem_of_app in Hh as [Hh|Hh].
           ++ apply od_get_Some_elem in Hget.
              destruct (K3 _ _ h Hget Hh) as (c & Hlook & Ht & Hp).
              exists c. split; [|auto]. apply lookup_app_l_Some. exact Hlook.
           ++ apply list_elem_of_singleton in Hh. subst h.
              eexists. split.
              { rewrite lookup_app_r by reflexivity. rewrite Nat.sub_diag. reflexivity. }
              split; reflexivity.
        -- destruct (K3 _ _ h Hin Hh) as (c & Hlook & Ht & Hp).
           exists c. split; [|auto]. apply lookup_app_l_Some. exact Hlook.
      * rewrite Hperm. cbn [length]. rewrite K4. lia.
    + split; cbn [Pool._pools Pool._config Pool._total_connections]; [|lia].
      intros t l Hin. apply Helem in Hin as [[-> ->]|[Hin Hne]].
      * rewrite length_app. cbn [length]. lia.
      * destruct (touch_within_limits p target (Pool._config p) (Pool._transport_config p)
                    (Pool.objects p) 0 0 0 Hmax eq_refl Hl) as [Hper _].
        apply (Hper t l Hin).
Qed.

Lemma remove_first_split h (a b : list nat) :
  h ∉ a -> Pool.remove_first h (a ++ h :: b) = a ++ b.
Proof.
  induction a as [|x a IH]; cbn.
  - intros _. rewrite Nat.eqb_refl. reflexivity.
  - intros [Hne Ha]%not_elem_of_cons.
    destruct (Nat.eqb_spec h x); [contradiction|]. rewrite IH by exact Ha. reflexivity.
Qed.

(** Removing, one after the other, connections that sit in a list in
    that order leaves the others, in their order. *)
Lemma remove_idle r : forall l : list nat,
  NoDup l -> r `sublist_of` l ->
  foldl (fun l h => Pool.remove_first h l) l r ++ r ≡ₚ l /\
  foldl (fun l h => Pool.remove_first h l) l r `sublist_of` l.
Proof.
  induction r as [|h r IH]; intros l Hnd Hsub; cbn.
  - rewrite app_nil_r. split; reflexivity.
  - apply sublist_cons_l in Hsub as (k1 & k2 & -> & Hsub).
    apply NoDup_app in Hnd as (Hk1 & Hdisj & Hk2).
    assert (Hh : h ∉ k1) by (intros Hin; apply (Hdisj h Hin); left).
    rewrite (remove_first_split h k1 k2 Hh).
    apply NoDup_cons in Hk2 as [Hhk2 Hk2].
    destruct (IH (k1 ++ k2)) as [Hperm Hkept].
    + apply NoDup_app. split; [exact Hk1|]. split; [|exact Hk2].
      intros x Hx Hx2. apply (Hdisj x Hx). right. exact Hx2.
    + apply sublist_inserts_l. exact Hsub.
    + split.
      * rewrite <- Permutation_middle, Hperm. apply Permutation_middle.
      * etransitivity; [exact Hkept|]. apply sublist_app; [reflexivity|].
        apply sublist_cons. reflexivity.
Qed.

(** What the loop over one list finds: connections of the list, in
    order, none of them in use, each older than the timeout at the
    reading it was asked with; with a clock that stands still, exactly
    the connections not in use and older than the timeout. *)
Lemma idle_ones_spec timeout objs pool : forall w,
  let '(r, w') := Pool.idle_ones env timeout objs pool w in
  r `sublist_of` pool /\
  (clock_reads w <= clock_reads w')%nat /\
  (forall h, h ∈ r ->
     exists c k, objs !! h = Some c /\ Pool.in_use c = false /\
                 (clock_reads w <= k < clock_reads w')%nat /\
                 timeout < clock env k - Pool.last_used c) /\
  (forall now, (forall k, clock env k = now) ->
     r = List.filter
           (fun h => match objs !! h with
                     | Some c => negb (Pool.in_use c) && (timeout <? now - Pool.last_used c)
                     | None => false
                     end) pool).
Proof.
  induction pool as [|h pool IH]; intros w; cbn.
  - split; [constructor|]. split; [lia|]. split; [|auto].
    intros h []%not_elem_of_nil.
  - destruct (objs !! h) as [c|] eqn:Hlook.
    + unfold Pool.is_idle. destruct (Pool.in_use c) eqn:Huse.
      * specialize (IH w). destruct (Pool.idle_ones env timeout objs pool w) as [r w'].
        destruct IH as (Hsub & Hw & Hidle & Hexact).
        split; [apply sublist_cons, Hsub|]. split; [exact Hw|]. split; [exact Hidle|].
        intros now Hnow. cbn. apply Hexact, Hnow.
      * unfold read_clock.
        match goal with |- context [Pool.idle_ones env timeout objs pool ?w1] =>
          specialize (IH w1); destruct (Pool.idle_ones env timeout objs pool w1) as [r w'] end.
        cbn [clock_reads] in IH. destruct IH as (Hsub & Hw & Hidle & Hexact).
        destruct (Z.ltb_spec timeout (clock env (clock_reads w) - Pool.last_used c))
          as [Hold|Hyoung].
        -- split; [apply sublist_skip, Hsub|]. split; [lia|]. split.
           ++ intros x [->|Hx]%elem_of_cons.
              ** exists c, (clock_reads w). repeat split; try assumption; lia.
              ** destruct (Hidle x Hx) as (c' & k & ? & ? & ? & ?).
                 exists c', k. repeat split; try assumption; lia.
           ++ intros now Hnow. cbn. rewrite <- (Hnow (clock_reads w)).
              destruct (Z.ltb_spec timeout (clock env (clock_reads w) - Pool.last_used c));
                [|lia].
              f_equal. rewrite (Hnow (clock_reads w)). apply Hexact, Hnow.
        -- split; [apply sublist_cons, Hsub|]. split; [lia|]. split.
           ++ intros x Hx. destruct (Hidle x Hx) as (c' & k & ? & ? & ? & ?).
              exists c', k. repeat split; try assumption; lia.
           ++ intros now Hnow. cbn. rewrite <- (Hnow (clock_reads w)).
              destruct (Z.ltb_spec timeout (clock env (clock_reads w) - Pool.last_used c));
                [lia|].
              rewrite (Hnow (clock_reads w)). apply Hexact, Hnow.
    + specialize (IH w). destruct (Pool.idle_ones env timeout objs pool w) as [r w'].
      destruct IH as (Hsub & Hw & Hidle & Hexact).
      split; [apply sublist_cons, Hsub|]. split; [exact Hw|]. split; [exact Hidle|].
      intros now Hnow. apply Hexact, Hnow.
Qed.

Lemma perm_swap_mid (x r1 r2 : list nat) : x ++ r1 ++ r2 ≡ₚ r1 ++ x ++ r2.
Proof. rewrite !app_assoc. apply Permutation_app_tail, Permutation_app_comm. Qed.

(** What the sweep over the dict leaves and removes. *)
Lemma sweep_spec timeout objs pools : forall w,
  NoDup (concat (map snd pools)) ->
  let '((pools', removed), w') := Pool.sweep env timeout objs pools w in
  concat (map snd pools') ++ removed ≡ₚ concat (map snd pools) /\
  pools'.*1 `sublist_of` pools.*1 /\
  (forall t l', (t, l') ∈ pools' ->
     l' <> [] /\ exists l, (t, l) ∈ pools /\ l' `sublist_of` l) /\
  (clock_reads w <= clock_reads w')%nat /\
  (forall h, h ∈ removed ->
     exists c k, objs !! h = Some c /\ Pool.in_use c = false /\
                 (clock_reads w <= k < clock_reads w')%nat /\
                 timeout < clock env k - Pool.last_used c).
Proof.
  induction pools as [|[target pool] pools IH]; intros w Hnd; cbn.
  - split; [reflexivity|]. split; [constructor|]. split; [intros ? ? []%not_elem_of_nil|].
    split; [lia|]. intros h []%not_elem_of_nil.
  - cbn in Hnd. apply NoDup_app in Hnd as (Hpool & _ & Hrest).
    pose proof (idle_ones_spec timeout objs pool w) as Hidle.
    destruct (Pool.idle_ones env timeout objs pool w) as [to_remove w1].
    destruct Hidle as (Hsub & Hw1 & Hidle & _).
    destruct (remove_idle to_remove pool Hpool Hsub) as [Hperm Hkept].
    specialize (IH w1 Hrest).
    destruct (Pool.sweep env timeout objs pools w1) as [[rest removed] w2].
    destruct IH as (Hperm' & Hkeys & Hentries & Hw2 & Hremoved).
    assert (Hevidence : forall h, h ∈ to_remove ++ removed ->
              exists c k, objs !! h = Some c /\ Pool.in_use c = false /\
                          (clock_reads w <= k < clock_reads w2)%nat /\
                          timeout < clock env k - Pool.last_used c).
    { intros h [Hh|Hh]%elem_of_app.
      - destruct (Hidle h Hh) as (c & k & ? & ? & ? & ?).
        exists c, k. repeat split; try assumption; lia.
      - destruct (Hremoved h Hh) as (c & k & ? & ? & ? & ?).
        exists c, k. repeat split; try assumption; lia. }
    destruct (foldl (fun l h => Pool.remove_first h l) pool to_remove) as [|x kept] eqn:Hk.
    + split; [|split; [|split; [|split; [lia|exact Hevidence]]]].
      * cbn [app] in Hperm. rewrite <- Hperm, <- Hperm'. apply perm_swap_mid.
      * cbn. apply sublist_cons. exact Hkeys.
      * intros t l' Hin. destruct (Hentries t l' Hin) as (Hne & l & Hl & Hs).
        split; [exact Hne|]. exists l. split; [right; exact Hl|exact Hs].
    + split; [|split; [|split; [|split; [lia|exact Hevidence]]]].
      * cbn [map snd concat]. rewrite <- Hperm, <- Hperm'.
        rewrite <- !app_assoc. apply Permutation_app_head. apply perm_swap_mid.
      * cbn. apply sublist_skip. exact Hkeys.
      * intros t l' [Heq|Hin]%elem_of_cons.
        -- injection Heq as -> ->. split; [discriminate|].
           exists pool. split; [left|exact Hkept].
        -- destruct (Hentries t l' Hin) as (Hne & l & Hl & Hs).
           split; [exact Hne|]. exists l. split; [right; exact Hl|exact Hs].
Qed.

Lemma cleanup_result p w :
  Pool._cleanup_idle_connections env (p, w) =
  let '((pools, removed), w') :=
    Pool.sweep env (Pool.idle_timeout (Pool._config p)) (Pool.objects p) (Pool._pools p) w in
  (tt,
   (Pool.mkPool (Pool._config p) (Pool._transport_config p)
      (foldl (fun o h => alter Pool.close_channel h o) (Pool.objects p) removed)
      pools
      (Pool._total_connections p - Z.of_nat (length removed))
      (Pool._total_acquisitions p) (Pool._total_creations p)
      (if 0 <? Z.of_nat (length removed)
       then Pool._total_cleanups p + Z.of_nat (length removed)
       else Pool._total_cleanups p),
    w')).
Proof. reflexivity. Qed.

Lemma cleanup_keeps p w :
  Pool.consistent p -> Pool.within_limits p ->
  let p' := fst (snd (Pool._cleanup_idle_connections env (p, w))) in
  Pool.consistent p' /\ Pool.within_limits p' /\ Pool._config p' = Pool._config p.
Proof.
  intros [H1 H2 H3 H4] [Hper Htot]. cbn zeta. rewrite cleanup_result.
  pose proof (sweep_spec (Pool.idle_timeout (Pool._config p)) (Pool.objects p)
                (Pool._pools p) w H2) as Hsweep.
  destruct (Pool.sweep env _ _ _ w) as [[pools removed] w'].
  destruct Hsweep as (Hperm & Hkeys & Hentries & _ & _).
  cbn [fst snd]. unfold Pool.handles in *.
  assert (Hlen : (length (concat (map snd pools)) + length removed
                  = length (concat (map snd (Pool._pools p))))%nat).
  { rewrite <- length_app. apply Permutation_length. exact Hperm. }
  split; [|split; [|reflexivity]].
  - constructor; unfold Pool.handles; cbn [Pool._pools Pool.objects Pool._total_connections].
    + apply (sublist_NoDup _ _ H1 Hkeys).
    + rewrite <- Hperm in H2. apply NoDup_app in H2 as [H2 _]. exact H2.
    + intros t l' h Hin Hh. destruct (Hentries t l' Hin) as (_ & l & Hl & Hs).
      destruct (H3 t l h Hl) as (c & Hlook & Ht & Hp).
      { eapply elem_of_sublist; eauto. }
      destruct (close_all_keeps removed _ _ _ Hlook) as (c' & Hl' & Ht' & Hp' & _).
      exists c'. split; [exact Hl'|]. split; congruence.
    + lia.
  - split; cbn [Pool._pools Pool._config Pool._total_connections]; [|lia].
    intros t l' Hin. destruct (Hentries t l' Hin) as (_ & l & Hl & Hs).
    apply sublist_length in Hs. specialize (Hper t l Hl). lia.
Qed.

(** The operations that only change connections in place. *)
Lemma release_keeps h p w :
  Pool.consistent p -> Pool.within_limits p ->
  let p' := fst (snd (Pool.release h (p, w))) in
  Pool.consistent p' /\ Pool.within_limits p' /\ Pool._config p' = Pool._config p.
Proof.
  intros Hc Hl. cbn. split; [|split; [|reflexivity]].
  - apply consistent_objects; [exact Hc|]. apply alter_keeps. intros c. split; reflexivity.
  - apply (within_limits_same p); auto.
Qed.

Lemma health_check_keeps h p w :
  Pool.consistent p -> Pool.within_limits p ->
  let p' := fst (snd (Pool._health_check_connection env h (p, w))) in
  Pool.consistent p' /\ Pool.within_limits p' /\ Pool._config p' = Pool._config p.
Proof.
  intros Hc Hl. cbn zeta. unfold Pool._health_check_connection.
  destruct (Pool.objects p !! h) as [c|]; [|cbn; auto].
  destruct (Pool.in_use c); [cbn; auto|]. unfold read_clock.
  destruct (_ <? _); cbn [fst snd];
    (split; [|split; [|reflexivity]];
     [apply consistent_objects; [exact Hc|]; apply alter_keeps; intros c0; split; reflexivity
     |apply (within_limits_same p); auto]).
Qed.

Lemma close_all_empties p w :
  0 <= Pool.max_total_connections (Pool._config p) ->
  let p' := fst (snd (Pool.close_all (p, w))) in
  Pool.consistent p' /\ Pool.within_limits p' /\ Pool._config p' = Pool._config p.
Proof.
  intros Hmax. cbn. split; [|split; [|reflexivity]].
  - constructor; cbn; try constructor. intros ? ? ? []%not_elem_of_nil.
  - split; cbn; [|exact Hmax]. intros ? ? []%not_elem_of_nil.
Qed.

Lemma run_keeps op p w :
  0 <= Pool.max_connections_per_target (Pool._config p) ->
  0 <= Pool.max_total_connections (Pool._config p) ->
  Pool.consistent p -> Pool.within_limits p ->
  let p' := fst (snd (Pool.run env str_int op (p, w))) in
  Pool.consistent p' /\ Pool.within_limits p' /\ Pool._config p' = Pool._config p.
Proof.
  intros Hper Htot Hc Hl. destruct op as [target|h| |h|]; unfold Pool.run.
  - apply acquire_keeps; assumption.
  - apply release_keeps; assumption.
  - apply cleanup_keeps; assumption.
  - apply health_check_keeps; assumption.
  - apply close_all_empties; assumption.
Qed.

Lemma run_all_keeps ops : forall p w,
  0 <= Pool.max_connections_per_target (Pool._config p) ->
  0 <= Pool.max_total_connections (Pool._config p) ->
  Pool.consistent p -> Pool.within_limits p ->
  let p' := fst (Pool.run_all env str_int ops (p, w)) in
  Pool.consistent p' /\ Pool.within_limits p' /\ Pool._config p' = Pool._config p.
Proof.
  induction ops as [|op ops IH]; intros p w Hper Htot Hc Hl; [cbn; auto|].
  cbn zeta. unfold Pool.run_all. cbn [foldl].
  destruct (run_keeps op p w Hper Htot Hc Hl) as (Hc1 & Hl1 & Hcfg1).
  destruct (Pool.run env str_int op (p, w)) as [[] [p1 w1]]. cbn [fst snd] in *.
  destruct (IH p1 w1) as (Hc2 & Hl2 & Hcfg2); try assumption; try (rewrite Hcfg1; assumption).
  unfold Pool.run_all in *. split; [exact Hc2|]. split; [exact Hl2|]. congruence.
Qed.

Lemma run_all_from_new cfg tc ops w :
  Pool.post_init cfg = Returned tt ->
  let p := fst (Pool.run_all env str_int ops (Pool.new_pool (Some cfg) tc, w)) in
  Pool.consistent p /\ Pool.within_limits p /\ Pool._config p = cfg.
Proof.
  intros Hvalid. cbn zeta.
  assert (Hper : 0 < Pool.max_connections_per_target cfg /\
                 Pool.max_connections_per_target cfg <= Pool.max_total_connections cfg).
  { revert Hvalid. unfold Pool.post_init.
    destruct (Z.leb_spec (Pool.max_connections_per_target cfg) 0); [discriminate|].
    destruct (Z.ltb_spec (Pool.max_total_connections cfg)
                (Pool.max_connections_per_target cfg)); [discriminate|]. lia. }
  apply (run_all_keeps ops (Pool.new_pool (Some cfg) tc) w).
  - cbn. lia.
  - cbn. lia.
  - constructor; cbn; try constructor. intros ? ? ? []%not_elem_of_nil.
  - split; cbn; [|lia]. intros ? ? []%not_elem_of_nil.
Qed.

(** X19.  From a new pool with a valid configuration, after any sequence of
    acquisitions, releases, clean-ups, health checks and [close_all], at
    any readings of the clock: no target has more connections than
    [max_connections_per_target], there are no more than
    [max_total_connections] in all, no connection is filed twice, each
    leads to the target it is filed under, and [total_connections] of
    the statistics is the sum of the pool sizes. *)
Theorem pool_stays_within_limits cfg tc ops w :
  Pool.post_init cfg = Returned tt ->
  let p := fst (Pool.run_all env str_int ops (Pool.new_pool (Some cfg) tc, w)) in
  Pool.consistent p /\ Pool.within_limits p /\ Pool._config p = cfg /\
  Pool.total_connections (Pool.get_stats p)
  = Z.of_nat (list_sum (map snd (Pool.pool_sizes (Pool.get_stats p)))).
Proof.
  intros Hvalid. cbn zeta.
  destruct (run_all_from_new cfg tc ops w Hvalid) as (Hc & Hl & Hcfg).
  split; [exact Hc|]. split; [exact Hl|]. split; [exact Hcfg|].
  unfold Pool.get_stats. cbn [Pool.total_connections Pool.pool_sizes].
  rewrite (Pool.total_counts _ Hc). unfold Pool.handles.
  rewrite length_concat, !map_map. reflexivity.
Qed.

Lemma first_free_Some objs pool h :
  Pool.first_free objs pool = Some h ->
  h ∈ pool /\ exists c, objs !! h = Some c /\ Pool.in_use c = false.
Proof.
  unfold Pool.first_free. intros [Hin Hf]%find_some.
  split; [apply list_elem_of_In; exact Hin|].
  destruct (objs !! h) as [c|]; [|discriminate].
  exists c. split; [reflexivity|]. destruct (Pool.in_use c); [discriminate|reflexivity].
Qed.

Lemma first_free_None objs pool :
  Pool.first_free objs pool = None <->
  forall h, h ∈ pool -> forall c, objs !! h = Some c -> Pool.in_use c = true.
Proof.
  unfold Pool.first_free. split.
  - intros Hnone h Hin c Hlook.
    pose proof (find_none _ _ Hnone h (proj1 (list_elem_of_In _ _) Hin)) as Hf.
    cbn in Hf. rewrite Hlook in Hf. destruct (Pool.in_use c); [reflexivity|discriminate].
  - intros Hall. induction pool as [|x pool IH]; [reflexivity|]. cbn.
    destruct (objs !! x) as [c|] eqn:Hlook.
    + rewrite (Hall x (ltac:(left)) c Hlook). cbn. apply IH.
      intros h Hh. apply Hall. right. exact Hh.
    + apply IH. intros h Hh. apply Hall. right. exact Hh.
Qed.

Lemma pool_of_filed p target h :
  Pool.consistent p -> h ∈ Pool.pool_of p target ->
  exists c, Pool.objects p !! h = Some c /\ Pool.target_id c = target /\
            Channel._peer_spiffe_id (Pool.channel c) = target.
Proof.
  intros Hc. unfold Pool.pool_of.
  destruct (Opa.od_get target (Pool._pools p)) as [l|] eqn:Hget; cbn.
  - intros Hh. apply od_get_Some_elem in Hget.
    apply (Pool.handles_filed p Hc target l h Hget Hh).
  - intros []%not_elem_of_nil.
Qed.

(** X20.  [acquire] hands out a connection to the requested target that
    nobody else holds: either one of the target's pool that was not in
    use, or a new one; it is marked in use and filed under the target,
    and no other connection changes. *)
Theorem acquire_hands_out_free_connection target p w h p' w' :
  Pool.consistent p ->
  Pool.acquire env str_int target (p, w) = (Returned h, (p', w')) ->
  (exists c', Pool.objects p' !! h = Some c' /\ Pool.in_use c' = true /\
              Pool.target_id c' = target /\
              Channel._peer_spiffe_id (Pool.channel c') = target) /\
  h ∈ Pool.pool_of p' target /\
  match Pool.objects p !! h with
  | Some c => Pool.in_use c = false /\ h ∈ Pool.pool_of p target /\
              Pool._total_creations p' = Pool._total_creations p
  | None => h = length (Pool.objects p) /\
            Pool._total_creations p' = Pool._total_creations p + 1
  end /\
  (forall h', h' <> h -> (h' < length (Pool.objects p))%nat ->
     Pool.objects p' !! h' = Pool.objects p !! h').
Proof.
  intros Hc. destruct (startswith target "spiffe://") eqn:Hsp.
  2:{ unfold Pool.acquire. rewrite Hsp. cbn. discriminate. }
  rewrite (acquire_cases target p w Hsp). cbn zeta.
  destruct (Pool.first_free (Pool.objects p) (Pool.pool_of p target)) as [h0|] eqn:Hfree.
  - intros [= <- <- <-]. cbn [Pool.objects Pool._total_creations].
    destruct (first_free_Some _ _ _ Hfree) as (Hin & c & Hlook & Huse).
    destruct (pool_of_filed p target h0 Hc Hin) as (c0 & Hlook0 & Ht & Hp).
    rewrite Hlook in Hlook0. injection Hlook0 as <-.
    split; [|split; [|split]].
    + eexists. split; [rewrite list_lookup_alter_eq, Hlook; reflexivity|].
      cbn. auto.
    + exact Hin.
    + rewrite Hlook. auto.
    + intros h' Hne _. apply list_lookup_alter_ne. congruence.
  - destruct (_ <=? _); [discriminate|]. destruct (_ <=? _); [discriminate|].
    intros [= <- <- <-]. cbn [Pool.objects Pool._total_creations].
    split; [|split; [|split]].
    + eexists. split.
      { rewrite lookup_app_r by reflexivity. rewrite Nat.sub_diag. reflexivity. }
      cbn. auto.
    + unfold Pool.pool_of. cbn [Pool._pools]. rewrite od_set_get. cbn.
      apply elem_of_app. right. left.
    + rewrite (lookup_ge_None_2 (Pool.objects p)) by lia. auto.
    + intros h' _ Hlt. apply lookup_app_l. exact Hlt.
Qed.

(** X21.  [acquire] raises for a well-formed target exactly when the pool is
    exhausted: no connection of the target is free, and the target's
    pool or the whole pool is at its limit.  The error is
    [PoolExhaustedError]; no connection is created, changed or filed,
    and only the count of acquisitions moves. *)
Theorem acquire_raises_only_when_exhausted target p w :
  startswith target "spiffe://" = true ->
  let '(r, (p', w')) := Pool.acquire env str_int target (p, w) in
  ((exists e, r = Raised e) <->
   Pool.first_free (Pool.objects p) (Pool.pool_of p target) = None /\
   (Pool.max_connections_per_target (Pool._config p)
      <= Z.of_nat (length (Pool.pool_of p target)) \/
    Pool.max_total_connections (Pool._config p) <= Pool._total_connections p)) /\
  (forall e, r = Raised e ->
     isinstance e ["PoolExhaustedError"] = true /\
     Pool.objects p' = Pool.objects p /\
     Pool.handles p' = Pool.handles p /\
     Pool._total_connections p' = Pool._total_connections p /\
     Pool._total_creations p' = Pool._total_creations p /\
     Pool._total_acquisitions p' = Pool._total_acquisitions p + 1 /\
     w' = w).
Proof.
  intros Hsp. rewrite (acquire_cases target p w Hsp). cbn zeta.
  assert (Htouch : concat (map snd (Pool.touch target (Pool._pools p)))
                   = concat (map snd (Pool._pools p))).
  { unfold Pool.touch. destruct (Opa.od_get target (Pool._pools p)); [reflexivity|].
    rewrite handles_app. cbn. apply app_nil_r. }
  destruct (Pool.first_free (Pool.objects p) (Pool.pool_of p target)) as [h0|].
  - split; [|discriminate].
    split; [intros [e He]; discriminate|intros [? _]; discriminate].
  - destruct (Z.leb_spec (Pool.max_connections_per_target (Pool._config p))
                (Z.of_nat (length (Pool.pool_of p target)))).
    + split; [split; [auto|intros _; eexists; reflexivity]|].
      intros e [= <-]. unfold Pool.handles. cbn. rewrite Htouch. repeat split.
    + destruct (Z.leb_spec (Pool.max_total_connections (Pool._config p))
                  (Pool._total_connections p)).
      * split; [split; [auto|intros _; eexists; reflexivity]|].
        intros e [= <-]. unfold Pool.handles. cbn. rewrite Htouch. repeat split.
      * split; [|discriminate].
        split; [intros [e He]; discriminate|]. intros [_ [?|?]]; lia.
Qed.

Lemma first_free_only (objs : list Pool.PooledConnection) pool h c :
  h ∈ pool -> objs !! h = Some c -> Pool.in_use c = false ->
  (forall h0, h0 ∈ pool -> h0 <> h ->
     forall c0, objs !! h0 = Some c0 -> Pool.in_use c0 = true) ->
  Pool.first_free objs pool = Some h.
Proof.
  intros Hin Hlook Huse. unfold Pool.first_free.
  induction pool as [|x pool IH]; intros Hbusy; [apply not_elem_of_nil in Hin as []|].
  cbn. destruct (decide (x = h)) as [->|Hne].
  - rewrite Hlook, Huse. reflexivity.
  - apply elem_of_cons in Hin as [->|Hin]; [congruence|].
    destruct (objs !! x) as [c0|] eqn:Hx.
    + rewrite (Hbusy x (ltac:(left)) Hne c0 Hx). cbn. apply IH; [exact Hin|].
      intros h0 Hh0. apply Hbusy. right. exact Hh0.
    + apply IH; [exact Hin|]. intros h0 Hh0. apply Hbusy. right. exact Hh0.
Qed.

(** X22.  A connection given back is handed out again: when the others of the
    target's pool are in use, [acquire] after [release] returns the very
    connection that was released, creates nothing, and counts the use. *)
Theorem released_connection_is_reused target p w h :
  Pool.consistent p ->
  startswith target "spiffe://" = true ->
  h ∈ Pool.pool_of p target ->
  (forall h0, h0 ∈ Pool.pool_of p target -> h0 <> h ->
     forall c0, Pool.objects p !! h0 = Some c0 -> Pool.in_use c0 = true) ->
  exists p2 c c2,
    Pool.acquire env str_int target (snd (Pool.release h (p, w)))
    = (Returned h,
       (p2, mkWorld (invoked w) (Datatypes.S (clock_reads w)) (draws w) (slept w))) /\
    Pool.objects p !! h = Some c /\
    Pool.objects p2 !! h = Some c2 /\
    Pool.in_use c2 = true /\
    Pool.use_count c2 = Pool.use_count c + 1 /\
    Pool.last_used c2 = clock env (clock_reads w) /\
    length (Pool.objects p2) = length (Pool.objects p) /\
    Pool._total_creations p2 = Pool._total_creations p /\
    Pool._pools p2 = Pool._pools p.
Proof.
  intros Hc Hsp Hin Hbusy.
  destruct (pool_of_filed p target h Hc Hin) as (c & Hlook & _).
  cbn [Pool.release snd]. rewrite (acquire_cases target _ w Hsp). cbn zeta.
  change (Pool.pool_of (Pool.set_objects _ p) target) with (Pool.pool_of p target).
  cbn [Pool.set_objects Pool.objects].
  rewrite (first_free_only _ _ h (Pool.set_in_use false c)); [|exact Hin| |reflexivity|].
  - eexists _, c, _. split; [reflexivity|]. split; [exact Hlook|].
    cbn [Pool.objects Pool._total_creations Pool._pools].
    rewrite list_lookup_alter_eq, list_lookup_alter_eq, Hlook. cbn.
    split; [reflexivity|]. rewrite !length_alter. repeat split.
  - rewrite list_lookup_alter_eq, Hlook. reflexivity.
  - intros h0 Hh0 Hne c0. rewrite list_lookup_alter_ne by congruence.
    apply Hbusy; assumption.
Qed.

End PoolFacts.

(** ** More on the secure channel *)

Section ChannelMore.
Variable peer : Channel.Certificate.
Variable hostname_matches : bool.
Variable answers : nat -> outcome Channel.Response.
Variable random_source : nat -> Q.


Lemma ensure_client_built identity ch ctx ch' :
  Channel._client ch = None ->
  Channel._ensure_client identity ch = (Returned ctx, ch') ->
  ctx = Channel.mkContext (Channel.tls_min_version (Channel._config ch))
                          (Channel.tls_max_version (Channel._config ch))
                          Channel.CERT_REQUIRED false /\
  ch' = Channel.mkChannel (Channel._peer_spiffe_id ch) (Channel._config ch)
                          (Some ctx) (Some ctx).
Proof.
  intros Hnone. unfold Channel._ensure_client, Channel._create_ssl_context. rewrite Hnone.
  destruct (Channel.get_svid_context identity) as [c0|e]; [|discriminate].
  destruct (Channel.get_trust_bundle_for_domain identity _) as [ca|e]; [|discriminate].
  intros [= <- <-]. split; reflexivity.
Qed.

(** X24.  The client a channel builds always requires a certificate of the
    peer and never compares host names, whatever the context the
    identity provider handed over; once built it is kept, and the
    identity provider is not asked again. *)
Theorem ensure_client_requires_certificate identity ch ctx ch' :
  Channel._client ch = None ->
  Channel._ensure_client identity ch = (Returned ctx, ch') ->
  Channel.verify_mode ctx = Channel.CERT_REQUIRED /\
  Channel.check_hostname ctx = false /\
  Channel.minimum_version ctx = Channel.tls_min_version (Channel._config ch) /\
  Channel.maximum_version ctx = Channel.tls_max_version (Channel._config ch) /\
  Channel._peer_spiffe_id ch' = Channel._peer_spiffe_id ch /\
  forall identity', Channel._ensure_client identity' ch' = (Returned ctx, ch').
Proof.
  intros Hnone Hens.
  destruct (ensure_client_built identity ch ctx ch' Hnone Hens) as [-> ->].
  cbn. repeat split.
Qed.

End ChannelMore.

(** ** More on the decorators *)

Section DecoratorsMore.
Context {T : Type} (env : Env T) (fnmatch : string -> string -> bool).

(** X26.  Without a request context the authorization check is skipped.  A
    capability declared without peer patterns then runs its handler for
    anyone, whatever the agent's authorization would say; one declared
    with peer patterns raises a permission error and does not run. *)
Theorem no_context_skips_authorization cap_name authz patterns w :
  Decorators.body (Decorators.declare env fnmatch cap_name authz patterns) None w =
  match patterns with
  | [] => call_func env w
  | _ :: _ =>
      (Raised (Decorators.PermissionError
                 "No request context available for peer verification"), w)
  end.
Proof.
  unfold Decorators.declare. destruct patterns as [|pat patterns]; cbn;
    destruct authz; reflexivity.
Qed.


(** X28.  The metadata of a capability lists the peer patterns only of the
    [@requires_peer] lines placed above [@capability], innermost first;
    in the documented order, with [@capability] on top, it lists none
    although the patterns are enforced. *)
Theorem metadata_lists_patterns_only_above_capability
    cap_name description authz (func : @Decorators.Function T) patterns :
  Decorators.requires_peer_patterns <$>
    Decorators._capability_metadata
      (Decorators.capability cap_name description authz
         (fold_right (Decorators.requires_peer fnmatch) func patterns))
  = Some [] /\
  Decorators.requires_peer_patterns <$>
    Decorators._capability_metadata
      (fold_right (Decorators.requires_peer fnmatch)
         (Decorators.capability cap_name description authz func) patterns)
  = Some (rev patterns).
Proof.
  split; [reflexivity|].
  assert (Hmeta :
    Decorators._capability_metadata
      (fold_right (Decorators.requires_peer fnmatch)
         (Decorators.capability cap_name description authz func) patterns)
    = Some (Decorators.mkMetadata cap_name description (rev patterns) None)).
  { induction patterns as [|pat patterns IH]; [reflexivity|].
    cbn [fold_right]. unfold Decorators.requires_peer at 1.
    cbn [Decorators._capability_metadata]. rewrite IH. reflexivity. }
  rewrite Hmeta. reflexivity.
Qed.
End DecoratorsMore.

(** ** More on the configuration *)

(** X29.  Construction secures production and nothing else.  A configuration
    that was built has the values of its fields unchanged; if it is for
    production, the default action is deny, the provider is OPA, peer
    verification is strict and auditing is on.  Outside production the
    validator accepts every configuration whose fields parse. *)
Theorem build_secures_production_only re_match r c :
  (Config.build re_match r = Returned c ->
   Config.fields re_match r = Some c /\
   (Config.environment (Config.agent c) = Config.PRODUCTION ->
    Config.default_action (Config.authorization c) = Config.DENY /\
    Config.provider (Config.authorization c) = Config.OPA /\
    Config.peer_verification (Config.transport c) = Config.STRICT /\
    Config.enabled (Config.audit (Config.authorization c)) = true)) /\
  (Config.fields re_match r = Some c ->
   Config.environment (Config.agent c) <> Config.PRODUCTION ->
   Config.build re_match r = Returned c).
Proof.
  unfold Config.build. split.
  - destruct (Config.fields re_match r) as [c0|]; [|discriminate].
    intros Hval.
    assert (c0 = c) as ->.
    { revert Hval. unfold Config.validate_security.
      repeat (destruct (_ && _) || destruct (negb _)); congruence. }
    split; [reflexivity|]. intros Hprod.
    rewrite (validate_security_production c Hprod) in Hval.
    destruct (Config.default_action (Config.authorization c)),
             (Config.provider (Config.authorization c)),
             (Config.peer_verification (Config.transport c)),
             (Config.enabled (Config.audit (Config.authorization c)));
      cbn in Hval; try discriminate Hval; auto.
  - intros -> Hdev. unfold Config.validate_security, Config.is_production.
    rewrite bool_decide_eq_false_2 by exact Hdev. cbn.
    destruct (Config.tls_min_version (Config.transport c)); reflexivity.
Qed.

(** ** More on the static credential provider *)

(** X30.  The health check looks at initialisation and files only: it reports
    healthy exactly when the provider is initialised, the three files
    exist and a credential is loaded, whatever the certificate's
    not-after and whatever the permissions of the key file. *)
Theorem health_check_looks_at_files_only str_datetime p fs :
  fst (Mtls.health_check str_datetime p fs)
  = Mtls._initialized p && Mtls.cert_exists fs && Mtls.key_exists fs
    && Mtls.ca_bundle_exists fs && bool_decide (is_Some (Mtls._svid p)).
Proof.
  unfold Mtls.health_check, Mtls._validate_file_paths, Mtls.get_svid,
    Mtls._ensure_initialized.
  destruct p as [[svid|] [|]], (Mtls.cert_exists fs), (Mtls.key_exists fs),
    (Mtls.ca_bundle_exists fs); cbn; try reflexivity;
    rewrite ?Z.ltb_irrefl; destruct (negb _); reflexivity.
Qed.

(** ** Instances *)

Lemma delete_task_removes_witness :
  Task.get_task (snd (TaskOps.delete_task Samples.mixed_manager "t1")) "t7"
  = Task.get_task Samples.mixed_manager "t7".
Proof.
  generalize (delete_task_removes Samples.mixed_manager "t1").
  destruct (TaskOps.delete_task Samples.mixed_manager "t1") as [found m'].
  intros (_ & _ & _ & Hothers). apply Hothers. discriminate.
Defined.

Lemma cleanup_removes_old_terminal_tasks_witness :
  Task.get_task (snd (TaskOps.cleanup_completed_tasks Samples.mixed_manager 3600 4000)) "t7"
  = Some Samples.running_task.
Proof.
  generalize (cleanup_removes_old_terminal_tasks Samples.mixed_manager 3600 4000).
  destruct (TaskOps.cleanup_completed_tasks Samples.mixed_manager 3600 4000) as [n m'].
  intros (_ & Hkept & _). apply Hkept; vm_compute; reflexivity.
Defined.

Lemma cache_put_then_get_witness :
  exists c2,
    Opa.cache_get Samples.engine_up Scenario.toy_digest Scenario.toy_items
      "a" "b" "read" None
      (fst (snd (Opa.cache_put Samples.engine_up Scenario.toy_digest Scenario.toy_items
                   "a" "b" "read" None Samples.permit (Samples.small_cache, world0))),
       mkWorld 0 30 0 [])
    = (Some Samples.permit, (c2, mkWorld 0 31 0 [])).
Proof.
  apply (cache_put_then_get Samples.engine_up Scenario.toy_digest Scenario.toy_items
           "a" "b" "read" None Samples.permit Samples.small_cache world0
           (mkWorld 0 30 0 [])); simpl; lia.
Defined.

Lemma cache_get_drops_expired_witness :
  exists c1 w1,
    Opa.cache_get Samples.engine_up Scenario.toy_digest Scenario.toy_items
      "a" "b" "read" None (Samples.full_cache, mkWorld 0 100 0 []) = (None, (c1, w1)) /\
    Opa.od_get (Opa._make_key Scenario.toy_digest Scenario.toy_items "a" "b" "read" None)
               (Opa._cache c1) = None /\
    (forall k,
       k <> Opa._make_key Scenario.toy_digest Scenario.toy_items "a" "b" "read" None ->
       Opa.od_get k (Opa._cache c1) = Opa.od_get k (Opa._cache Samples.full_cache)).
Proof.
  apply (cache_get_drops_expired Samples.engine_up Scenario.toy_digest Scenario.toy_items
           "a" "b" "read" None Samples.full_cache (mkWorld 0 100 0 []) Samples.permit 0).
  - reflexivity.
  - simpl. lia.
Defined.

Lemma cache_stays_within_max_size_witness :
  Z.of_nat (length (Opa._cache (fst (snd
     (Opa.cache_put Samples.engine_up Scenario.toy_digest Scenario.toy_items
        "c" "d" "write" None Samples.permit (Samples.full_cache, world0)))))) <= 2.
Proof.
  apply (cache_stays_within_max_size Samples.engine_up Scenario.toy_digest
           Scenario.toy_items "c" "d" "write" None Samples.permit Samples.full_cache world0).
  - apply (bool_decide_unpack _). vm_compute. exact I.
  - simpl. lia.
Defined.

Lemma cache_evicts_least_recently_used_witness :
  Opa._cache (fst (snd
    (Opa.cache_put Samples.engine_up Scenario.toy_digest Scenario.toy_items
       "c" "d" "write" None Samples.permit (Samples.full_cache, world0))))
  = [("k1", (Samples.permit, 0)); ("c:d:write:", (Samples.permit, 0))].
Proof.
  apply (cache_evicts_least_recently_used Samples.engine_up Scenario.toy_digest
           Scenario.toy_items "a" "b" "read" None Samples.permit 0 "k1" (Samples.permit, 0) []
           "c" "d" "write" None Samples.permit Samples.full_cache world0).
  - reflexivity.
  - apply (bool_decide_unpack _). vm_compute. exact I.
  - reflexivity.
  - reflexivity.
  - simpl. lia.
Defined.

Lemma cached_decision_is_served_unaudited_witness :
  exists p1 w1 p2 line,
    Opa.check Samples.engine_up Scenario.uuid_of Scenario.toy_digest Scenario.toy_items
      Scenario.caller_id Scenario.resource_id "search" None (Samples.ready_provider, world0)
    = (Samples.permit, (p1, w1)) /\
    Opa.logged p1
    = Opa.logged Samples.ready_provider
      ++ [Opa.AUTHZ Scenario.caller_id Scenario.resource_id "search" Samples.permit] /\
    invoked w1 = 1%nat /\
    Opa.check Samples.engine_up Scenario.uuid_of Scenario.toy_digest Scenario.toy_items
      Scenario.caller_id Scenario.resource_id "search" None (p1, mkWorld 1 30 0 [])
    = (Samples.permit, (p2, mkWorld 1 31 0 [])) /\
    Opa.logged p2 = Opa.logged p1 ++ [Opa.log_debug line].
Proof.
  apply (cached_decision_is_served_unaudited Samples.engine_up Scenario.uuid_of
           Scenario.toy_digest Scenario.toy_items Scenario.caller_id Scenario.resource_id
           "search" None Samples.ready_provider world0 Samples.permit (mkWorld 1 30 0 [])).
  - reflexivity.
  - discriminate.
  - reflexivity.
  - simpl. lia.
  - simpl. lia.
Defined.



Lemma get_breaker_creates_once_witness :
  CircuitOps._breakers
    (snd (CircuitOps.get_breaker
            (CircuitOps.mkRegistry Scenario.breaker_config ∅) "search" None 0)) !! "index"
  = (∅ : gmap string Circuit.CircuitBreaker) !! "index".
Proof.
  generalize (get_breaker_creates_once
                (CircuitOps.mkRegistry Scenario.breaker_config ∅) "search" None None 0 1).
  destruct (CircuitOps.get_breaker _ "search" None 0) as [b1 r1].
  intros (_ & _ & Hothers). apply Hothers. discriminate.
Defined.

Lemma pool_stays_within_limits_witness :
  Pool.within_limits
    (fst (Pool.run_all Samples.ticking Samples.str_int
            [Pool.Acquire Scenario.search_id; Pool.Acquire Scenario.search_id;
             Pool.Release 0; Pool.Cleanup]
            (Pool.new_pool (Some Samples.pool_config) None, world0))).
Proof.
  destruct (pool_stays_within_limits Samples.ticking Samples.str_int Samples.pool_config None
              [Pool.Acquire Scenario.search_id; Pool.Acquire Scenario.search_id;
               Pool.Release 0; Pool.Cleanup] world0) as (_ & H & _).
  - reflexivity.
  - exact H.
Defined.

Lemma acquire_hands_out_free_connection_witness :
  (0%nat ∈ Pool.pool_of Samples.busy_pool Scenario.search_id).
Proof.
  destruct (acquire_hands_out_free_connection Samples.ticking Samples.str_int
              Scenario.search_id (Pool.new_pool (Some Samples.pool_config) None) world0 0
              Samples.busy_pool (mkWorld 0 2 0 [])) as (_ & H & _).
  - apply (run_all_from_new Samples.ticking Samples.str_int Samples.pool_config None []
             world0). reflexivity.
  - vm_compute. reflexivity.
  - exact H.
Defined.

Lemma acquire_raises_only_when_exhausted_witness :
  exists e,
    fst (Pool.acquire Samples.ticking Samples.str_int Scenario.search_id
           (Samples.busy_pool, world0)) = Raised e.
Proof.
  generalize (acquire_raises_only_when_exhausted Samples.ticking Samples.str_int
                Scenario.search_id Samples.busy_pool world0 eq_refl).
  destruct (Pool.acquire Samples.ticking Samples.str_int Scenario.search_id
              (Samples.busy_pool, world0)) as [r [p' w']].
  intros [[_ H] _]. apply H. split; [reflexivity|]. left. vm_compute. discriminate.
Defined.

Lemma released_connection_is_reused_witness :
  fst (Pool.acquire Samples.ticking Samples.str_int Scenario.search_id
         (snd (Pool.release 0 (Samples.busy_pool, world0)))) = Returned 0%nat.
Proof.
  destruct (released_connection_is_reused Samples.ticking Samples.str_int
              Scenario.search_id Samples.busy_pool world0 0) as (p2 & c & c2 & H & _).
  - apply (run_all_from_new Samples.ticking Samples.str_int Samples.pool_config None
             [Pool.Acquire Scenario.search_id] world0). reflexivity.
  - reflexivity.
  - vm_compute. left.
  - intros h0 Hh0 Hne. vm_compute in Hh0. apply list_elem_of_singleton in Hh0. contradiction.
  - rewrite H. reflexivity.
Defined.


Lemma ensure_client_requires_certificate_witness :
  Channel.verify_mode
    (Channel.mkContext Channel.TLSv1_3 Channel.TLSv1_3 Channel.CERT_REQUIRED false)
  = Channel.CERT_REQUIRED.
Proof.
  apply (ensure_client_requires_certificate Scenario.identity Scenario.search_channel
           (Channel.mkContext Channel.TLSv1_3 Channel.TLSv1_3 Channel.CERT_REQUIRED false)
           (Channel.mkChannel Scenario.search_id Channel.default_config
              (Some (Channel.mkContext Channel.TLSv1_3 Channel.TLSv1_3
                                       Channel.CERT_REQUIRED false))
              (Some (Channel.mkContext Channel.TLSv1_3 Channel.TLSv1_3
                                       Channel.CERT_REQUIRED false))));
    reflexivity.
Defined.



Lemma build_secures_production_only_witness :
  Config.build Scenario.any_re_match Samples.staging_raw = Returned Samples.staging_config.
Proof.
  apply (proj2 (build_secures_production_only Scenario.any_re_match Samples.staging_raw
                  Samples.staging_config)).
  - reflexivity.
  - discriminate.
Defined.
